(** * NFT marketplace chatbot: response-marker protocol and state reconciliation

    A shallow embedding of the marker pipeline of [nft_chatbot]:
    - [services/chat_service.py]: marker extraction and stripping, the
      user-facing sanitizer, the memory-write policy and history compaction;
    - [db/repository.py] and [db/models.py]: session-state merge and
      user-memory upsert/delete.

    Text is modelled as [string] (a sequence of 8-bit characters).  Character
    classes follow Python on the ASCII range; characters above 127 are opaque:
    neither whitespace, nor letters, nor affected by case folding. *)

From Stdlib Require Import Ascii String ZArith QArith Lia Bool List.
From stdpp Require Import base option list gmap strings.

Local Open Scope string_scope.
Local Open Scope nat_scope.

(* ===================================================================== *)
(** * Text primitives (Python [str] methods used by the pipeline)         *)
(* ===================================================================== *)

Module Text.

Definition newline : ascii := "010"%char.
Definition dquote : ascii := "034"%char.
Definition backslash : ascii := "092"%char.

Definition in_range (lo hi : nat) (c : ascii) : bool :=
  let n := nat_of_ascii c in (lo <=? n) && (n <=? hi).

(** [str.isspace] on one ASCII character: TAB..CR, FS..US and space. *)
Definition isspace (c : ascii) : bool := in_range 9 13 c || in_range 28 32 c.

Definition isupper (c : ascii) : bool := in_range 65 90 c.
Definition islower (c : ascii) : bool := in_range 97 122 c.
Definition isdigit (c : ascii) : bool := in_range 48 57 c.
Definition isalpha (c : ascii) : bool := isupper c || islower c.

(** [\w] of the [re] module: letters, digits and underscore. *)
Definition isword (c : ascii) : bool :=
  isalpha c || isdigit c || Ascii.eqb c "_".

Definition lower_char (c : ascii) : ascii :=
  if isupper c then ascii_of_nat (nat_of_ascii c + 32) else c.

(** [s.lower()] *)
Fixpoint lower (s : string) : string :=
  match s with
  | EmptyString => EmptyString
  | String c s' => String (lower_char c) (lower s')
  end.

(** [s.lstrip()] *)
Fixpoint lstrip (s : string) : string :=
  match s with
  | EmptyString => EmptyString
  | String c s' => if isspace c then lstrip s' else s
  end.

(** [s.rstrip()] *)
Fixpoint rstrip (s : string) : string :=
  match s with
  | EmptyString => EmptyString
  | String c s' =>
      match rstrip s' with
      | EmptyString => if isspace c then EmptyString else String c EmptyString
      | r => String c r
      end
  end.

(** [s.strip()] *)
Definition strip (s : string) : string := rstrip (lstrip s).

Definition is_empty (s : string) : bool :=
  match s with EmptyString => true | _ => false end.

(** The first [n] bytes of the text. *)
Fixpoint take (n : nat) (s : string) : string :=
  match n, s with
  | S n', String c s' => String c (take n' s')
  | _, _ => EmptyString
  end.

(** A [str] is held as its UTF-8 bytes; a byte [10xxxxxx] continues the
    code point begun before it. *)
Definition is_continuation (c : ascii) : bool := in_range 128 191 c.

(** [s[:n]] on a [str]: its first [n] code points. *)
Fixpoint take_chars (n : nat) (s : string) : string :=
  match s with
  | EmptyString => EmptyString
  | String c s' =>
      if is_continuation c then String c (take_chars n s')
      else
        match n with
        | 0 => EmptyString
        | S n' => String c (take_chars n' s')
        end
  end.

(** One pattern character against one text character; [ci] is
    [re.IGNORECASE]. *)
Definition char_eq (ci : bool) (p c : ascii) : bool :=
  if ci then Ascii.eqb (lower_char p) (lower_char c) else Ascii.eqb p c.

(** A literal pattern matched at the very start of [s]; the unmatched
    remainder is returned. *)
Fixpoint match_lit (ci : bool) (pat s : string) : option string :=
  match pat with
  | EmptyString => Some s
  | String p pat' =>
      match s with
      | EmptyString => None
      | String c s' => if char_eq ci p c then match_lit ci pat' s' else None
      end
  end.

(** Leftmost occurrence of a literal: the text before it and the text
    after it. *)
Fixpoint find_lit (ci : bool) (pat s : string) : option (string * string) :=
  match match_lit ci pat s with
  | Some r => Some (EmptyString, r)
  | None =>
      match s with
      | EmptyString => None
      | String c s' =>
          match find_lit ci pat s' with
          | Some (b, a) => Some (String c b, a)
          | None => None
          end
      end
  end.

(** [needle in s] *)
Definition contains (needle s : string) : bool :=
  match find_lit false needle s with Some _ => true | None => false end.

(** [s.split("\n")]: never the empty list. *)
Fixpoint split_lines (s : string) : list string :=
  match s with
  | EmptyString => [EmptyString]
  | String c s' =>
      if Ascii.eqb c newline then EmptyString :: split_lines s'
      else match split_lines s' with
           | l :: ls => String c l :: ls
           | [] => [String c EmptyString]
           end
  end.

(** ["\n".join(ls)] *)
Fixpoint join_lines (ls : list string) : string :=
  match ls with
  | [] => EmptyString
  | [l] => l
  | l :: ls' => l +:+ String newline (join_lines ls')
  end.

(** [sep.join(ls)] *)
Fixpoint join (sep : string) (ls : list string) : string :=
  match ls with
  | [] => EmptyString
  | [l] => l
  | l :: ls' => l +:+ sep +:+ join sep ls'
  end.

End Text.

(* ===================================================================== *)
(** * JSON values and [json.loads]                                        *)
(* ===================================================================== *)

(** The decoder of Python's standard library, which the extractors call on
    each marker body.  Integers are kept exactly; a number with a fraction
    or an exponent keeps its source lexeme (of the floating-point rounding
    only the test for zero is modelled).  [None] stands for
    [json.JSONDecodeError]; the limits of the interpreter (recursion depth,
    length of integer literals) are not modelled. *)
Module Json.

Import Text.

#[local] Set Warnings "-register-all".

Inductive json : Type :=
| JNull
| JBool (b : bool)
| JInt (z : Z)
| JFloat (lexeme : string)
| JStr (s : string)
| JArr (items : list json)
| JObj (members : list (string * json)).

(** A Python [dict] with string keys: insertion-ordered, keys unique. *)
Definition dict : Type := list (string * json).

(** [d.get(k)] *)
Fixpoint dict_get (k : string) (d : dict) : option json :=
  match d with
  | [] => None
  | (k', v) :: d' => if String.eqb k k' then Some v else dict_get k d'
  end.

(** [d[k] = v]: overwrite in place, or append a new key. *)
Fixpoint dict_set (k : string) (v : json) (d : dict) : dict :=
  match d with
  | [] => [(k, v)]
  | (k', v') :: d' =>
      if String.eqb k k' then (k, v) :: d' else (k', v') :: dict_set k v d'
  end.

(** [d.update(upd)], also [{**d, **upd}]. *)
Definition dict_update (d upd : dict) : dict :=
  fold_left (fun acc kv => dict_set (fst kv) (snd kv) acc) upd d.

(** [dict(pairs)] *)
Definition dict_of_pairs (pairs : list (string * json)) : dict :=
  dict_update [] pairs.

(** The longest run of digits at the start of a text, and what follows. *)
Fixpoint span_digits (s : string) : string * string :=
  match s with
  | String c s' =>
      if isdigit c then let (d, r) := span_digits s' in (String c d, r)
      else (EmptyString, s)
  | EmptyString => (EmptyString, EmptyString)
  end.

(** The number written by a run of digits, after [acc]. *)
Fixpoint digits_value (acc : Z) (s : string) : Z :=
  match s with
  | EmptyString => acc
  | String c s' => digits_value (acc * 10 + Z.of_nat (nat_of_ascii c - 48)) s'
  end.

(** The exponent of a float lexeme, given what follows its mantissa:
    nothing, or [e] or [E], an optional sign and digits. *)
Definition exponent_value (s : string) : Z :=
  match s with
  | String _ s' =>
      match s' with
      | String g t =>
          if Ascii.eqb g "-" then (- digits_value 0 t)%Z
          else if Ascii.eqb g "+" then digits_value 0 t
          else digits_value 0 s'
      | EmptyString => 0%Z
      end
  | EmptyString => 0%Z
  end.

(** [float(lexeme) == 0.0].  The lexeme stands for [m * 10 ^ e], with [m]
    the number written by the digits of its integer part and fraction.
    The conversion rounds to the nearest double, ties to even, so the
    result is zero exactly when the value is at most [2 ^ -1075], half of
    the smallest positive double.  [NaN] and the infinities are not zero. *)
Definition rounds_to_zero (lexeme : string) : bool :=
  let s :=
    match lexeme with
    | String c t => if Ascii.eqb c "-" then t else lexeme
    | EmptyString => lexeme
    end in
  match s with
  | String c _ =>
      if isdigit c then
        let (i, r) := span_digits s in
        let (f, r') :=
          match r with
          | String d t => if Ascii.eqb d "." then span_digits t else (EmptyString, r)
          | EmptyString => (EmptyString, r)
          end in
        let m := digits_value 0 (i +:+ f) in
        let e := (exponent_value r' - Z.of_nat (String.length f))%Z in
        if (m =? 0)%Z then true
        else if (0 <=? e)%Z then false
        else (m * 2 ^ 1075 <=? 10 ^ (- e))%Z
      else false
  | EmptyString => false
  end.

(** Truth value of a decoded JSON value ([bool(x)]). *)
Definition truthy (v : json) : bool :=
  match v with
  | JNull => false
  | JBool b => b
  | JInt z => negb (Z.eqb z 0)
  | JFloat lx => negb (rounds_to_zero lx)
  | JStr s => negb (is_empty s)
  | JArr l => match l with [] => false | _ => true end
  | JObj m => match m with [] => false | _ => true end
  end.

(** ** Lexical helpers of the decoder *)

Definition is_json_ws (c : ascii) : bool :=
  Ascii.eqb c " " || Ascii.eqb c "009" || Ascii.eqb c "010" || Ascii.eqb c "013".

Fixpoint skip_ws (s : string) : string :=
  match s with
  | EmptyString => EmptyString
  | String c s' => if is_json_ws c then skip_ws s' else s
  end.

Definition hex_val (c : ascii) : option N :=
  let n := N_of_ascii c in
  if isdigit c then Some (n - 48)%N
  else if in_range 97 102 c then Some (n - 87)%N
  else if in_range 65 70 c then Some (n - 55)%N
  else None.

Definition hex4 (s : string) : option (N * string) :=
  match s with
  | String a (String b (String c (String d r))) =>
      match hex_val a, hex_val b, hex_val c, hex_val d with
      | Some x, Some y, Some z, Some w =>
          Some ((((x * 16 + y) * 16 + z) * 16 + w)%N, r)
      | _, _, _, _ => None
      end
  | _ => None
  end.

(** A code point written as UTF-8 bytes (one byte below 128). *)
Definition utf8 (n : N) : string :=
  let b k := ascii_of_N k in
  (if n <? 128 then String (b n) EmptyString
   else if n <? 2048 then
     String (b (192 + n / 64)) (String (b (128 + n mod 64)) EmptyString)
   else if n <? 65536 then
     String (b (224 + n / 4096))
       (String (b (128 + (n / 64) mod 64))
          (String (b (128 + n mod 64)) EmptyString))
   else
     String (b (240 + n / 262144))
       (String (b (128 + (n / 4096) mod 64))
          (String (b (128 + (n / 64) mod 64))
             (String (b (128 + n mod 64)) EmptyString))))%N.

Definition unescape (e : ascii) : option ascii :=
  if Ascii.eqb e dquote then Some dquote
  else if Ascii.eqb e backslash then Some backslash
  else if Ascii.eqb e "/" then Some "/"%char
  else if Ascii.eqb e "b" then Some "008"%char
  else if Ascii.eqb e "f" then Some "012"%char
  else if Ascii.eqb e "n" then Some "010"%char
  else if Ascii.eqb e "r" then Some "013"%char
  else if Ascii.eqb e "t" then Some "009"%char
  else None.

(** After a backslash-u escape with value [n]: a high surrogate followed
    by an escaped low surrogate forms one code point. *)
Definition after_u (n : N) (r : string) : N * string :=
  if ((55296 <=? n) && (n <=? 56319))%N then
    match r with
    | String b (String u r') =>
        if Ascii.eqb b backslash && Ascii.eqb u "u" then
          match hex4 r' with
          | Some (n2, r'') =>
              if ((56320 <=? n2) && (n2 <=? 57343))%N
              then ((65536 + (n - 55296) * 1024 + (n2 - 56320))%N, r'')
              else (n, r)
          | None => (n, r)
          end
        else (n, r)
    | _ => (n, r)
    end
  else (n, r).

(** [scanstring] in strict mode, entered just after the opening quote. *)
Fixpoint scanstring (fuel : nat) (s : string) : option (string * string) :=
  match fuel with
  | 0 => None
  | S fuel' =>
      match s with
      | EmptyString => None
      | String c r =>
          if Ascii.eqb c dquote then Some (EmptyString, r)
          else if Ascii.eqb c backslash then
            match r with
            | EmptyString => None
            | String e r' =>
                if Ascii.eqb e "u" then
                  match hex4 r' with
                  | Some (n, r'') =>
                      let (cp, r3) := after_u n r'' in
                      match scanstring fuel' r3 with
                      | Some (str, rest) => Some (utf8 cp +:+ str, rest)
                      | None => None
                      end
                  | None => None
                  end
                else
                  match unescape e with
                  | Some ch =>
                      match scanstring fuel' r' with
                      | Some (str, rest) => Some (String ch str, rest)
                      | None => None
                      end
                  | None => None
                  end
            end
          else if nat_of_ascii c <? 32 then None
          else
            match scanstring fuel' r with
            | Some (str, rest) => Some (String c str, rest)
            | None => None
            end
      end
  end.

(** ** Numbers ([NUMBER_RE]): an optional minus sign; an integer part that
    is a single zero or starts with a non-zero digit; an optional fraction
    (a dot and at least one digit); an optional exponent. *)

Definition int_part (s : string) : option (string * string) :=
  match s with
  | String c s' =>
      if Ascii.eqb c "0" then Some ("0", s')
      else if isdigit c then
        let (d, r) := span_digits s' in Some (String c d, r)
      else None
  | EmptyString => None
  end.

Definition frac_part (s : string) : string * string :=
  match s with
  | String c s' =>
      if Ascii.eqb c "." then
        match span_digits s' with
        | (EmptyString, _) => (EmptyString, s)
        | (d, r) => (String c d, r)
        end
      else (EmptyString, s)
  | EmptyString => (EmptyString, s)
  end.

Definition exp_part (s : string) : string * string :=
  match s with
  | String c s' =>
      if Ascii.eqb c "e" || Ascii.eqb c "E" then
        let (sign, s'') :=
          match s' with
          | String g t =>
              if Ascii.eqb g "-" || Ascii.eqb g "+"
              then (String g EmptyString, t) else (EmptyString, s')
          | EmptyString => (EmptyString, s')
          end in
        match span_digits s'' with
        | (EmptyString, _) => (EmptyString, s)
        | (d, r) => (String c (sign +:+ d), r)
        end
      else (EmptyString, s)
  | EmptyString => (EmptyString, s)
  end.

Definition match_number (s : string) : option (json * string) :=
  let (neg, s1) :=
    match s with
    | String c t => if Ascii.eqb c "-" then (true, t) else (false, s)
    | EmptyString => (false, s)
    end in
  match int_part s1 with
  | None => None
  | Some (i, s2) =>
      let (f, s3) := frac_part s2 in
      let (e, s4) := exp_part s3 in
      if is_empty f && is_empty e then
        let z := digits_value 0 i in
        Some (JInt (if neg then (- z)%Z else z), s4)
      else
        Some (JFloat ((if neg then "-" else "") +:+ i +:+ f +:+ e), s4)
  end.

Definition keyword (kw : string) (v : json) (s : string) : option (json * string) :=
  match match_lit false kw s with
  | Some r => Some (v, r)
  | None => None
  end.

Definition first_some {A} (a b : option A) : option A :=
  match a with Some _ => a | None => b end.

(** ** The recursive scanner ([scan_once], [JSONObject], [JSONArray]) *)

Fixpoint scan_once (fuel : nat) (s : string) : option (json * string) :=
  match fuel with
  | 0 => None
  | S fuel' =>
      match s with
      | EmptyString => None
      | String c r =>
          if Ascii.eqb c dquote then
            match scanstring (S (String.length r)) r with
            | Some (str, r') => Some (JStr str, r')
            | None => None
            end
          else if Ascii.eqb c "{" then
            match skip_ws r with
            | String c1 r1 =>
                if Ascii.eqb c1 "}" then Some (JObj [], r1)
                else if Ascii.eqb c1 dquote then object_members fuel' [] r1
                else None
            | EmptyString => None
            end
          else if Ascii.eqb c "[" then
            match skip_ws r with
            | String c1 r1 =>
                if Ascii.eqb c1 "]" then Some (JArr [], r1)
                else array_items fuel' [] (String c1 r1)
            | EmptyString => None
            end
          else
            first_some (keyword "null" JNull s)
           (first_some (keyword "true" (JBool true) s)
           (first_some (keyword "false" (JBool false) s)
           (first_some (match_number s)
           (first_some (keyword "NaN" (JFloat "NaN") s)
           (first_some (keyword "Infinity" (JFloat "Infinity") s)
                       (keyword "-Infinity" (JFloat "-Infinity") s))))))
      end
  end

(** Entered just after the opening quote of a key; [acc] holds the pairs
    read so far, most recent first. *)
with object_members (fuel : nat) (acc : list (string * json)) (s : string)
  : option (json * string) :=
  match fuel with
  | 0 => None
  | S fuel' =>
      match scanstring (S (String.length s)) s with
      | None => None
      | Some (key, r) =>
          match skip_ws r with
          | String c r1 =>
              if Ascii.eqb c ":" then
                match scan_once fuel' (skip_ws r1) with
                | None => None
                | Some (v, r2) =>
                    let acc' := (key, v) :: acc in
                    match skip_ws r2 with
                    | String d r3 =>
                        if Ascii.eqb d "}" then
                          Some (JObj (dict_of_pairs (rev acc')), r3)
                        else if Ascii.eqb d "," then
                          match skip_ws r3 with
                          | String q r4 =>
                              if Ascii.eqb q dquote
                              then object_members fuel' acc' r4
                              else None
                          | EmptyString => None
                          end
                        else None
                    | EmptyString => None
                    end
                end
              else None
          | EmptyString => None
          end
      end
  end

(** Entered at the first character of an item. *)
with array_items (fuel : nat) (acc : list json) (s : string)
  : option (json * string) :=
  match fuel with
  | 0 => None
  | S fuel' =>
      match scan_once fuel' s with
      | None => None
      | Some (v, r) =>
          match skip_ws r with
          | String d r1 =>
              if Ascii.eqb d "]" then Some (JArr (rev (v :: acc)), r1)
              else if Ascii.eqb d "," then array_items fuel' (v :: acc) (skip_ws r1)
              else None
          | EmptyString => None
          end
      end
  end.

(** [json.loads(s)]: one value surrounded by optional whitespace.  Of any
    two nested calls of the scanner at least one is made after a further
    character was consumed, so a fuel of twice the length of the text is
    never exhausted. *)
Definition json_loads (s : string) : option json :=
  match scan_once (2 * String.length s + 2) (skip_ws s) with
  | Some (v, r) => if is_empty (skip_ws r) then Some v else None
  | None => None
  end.

(** [isinstance(payload, dict)] *)
Definition as_dict (v : json) : option dict :=
  match v with JObj m => Some m | _ => None end.

End Json.


(* ===================================================================== *)
(** * Marker grammar, extraction and sanitizing ([chat_service.py])       *)
(* ===================================================================== *)

Module Markers.

Import Text Json.

Definition SESSION_DATA : string := "SESSION_DATA".
Definition STORE_PERSONAL : string := "STORE_PERSONAL".
Definition STORE_PREFERENCE : string := "STORE_PREFERENCE".

Definition open_tag (tag : string) : string := "[" +:+ tag +:+ "]".
Definition close_tag (tag : string) : string := "[/" +:+ tag +:+ "]".

(** ** The block pattern: open tag, lazy body, close tag (DOTALL)

    One attempt of the pattern at the start of [s].  After the literal open
    tag the lazy body grows one character at a time (any character, since
    the pattern is compiled with DOTALL) until the close tag follows: the
    body ends at the first close tag.  The result is group 1 and the text
    after the match. *)
Definition match_block (ci : bool) (tag s : string) : option (string * string) :=
  match match_lit ci (open_tag tag) s with
  | Some r => find_lit ci (close_tag tag) r
  | None => None
  end.

(** [pattern.search(s)]: the attempts are made at successive start
    positions, the leftmost success wins.  Returns the text before the
    match, group 1, and the text after the match. *)
Fixpoint search_block (ci : bool) (tag s : string)
  : option (string * string * string) :=
  match match_block ci tag s with
  | Some (body, rest) => Some (EmptyString, body, rest)
  | None =>
      match s with
      | EmptyString => None
      | String c s' =>
          match search_block ci tag s' with
          | Some (pre, body, rest) => Some (String c pre, body, rest)
          | None => None
          end
      end
  end.

(** [m.group(1) for m in pattern.finditer(s)]: matches do not overlap, the
    search resumes where the previous match ended. *)
Fixpoint finditer_fuel (fuel : nat) (ci : bool) (tag s : string) : list string :=
  match fuel with
  | 0 => []
  | S fuel' =>
      match search_block ci tag s with
      | Some (_, body, rest) => body :: finditer_fuel fuel' ci tag rest
      | None => []
      end
  end.

Definition finditer (ci : bool) (tag s : string) : list string :=
  finditer_fuel (String.length s) ci tag s.

(** [pattern.sub("", s)]: every match is removed in one left-to-right pass. *)
Fixpoint sub_fuel (fuel : nat) (ci : bool) (tag s : string) : string :=
  match fuel with
  | 0 => s
  | S fuel' =>
      match search_block ci tag s with
      | Some (pre, _, rest) => pre +:+ sub_fuel fuel' ci tag rest
      | None => s
      end
  end.

Definition sub_blocks (ci : bool) (tag s : string) : string :=
  sub_fuel (String.length s) ci tag s.

(** [while pattern.search(t): t = pattern.sub("", t)], with the
    case-insensitive strip pattern. *)
Fixpoint strip_loop (fuel : nat) (tag s : string) : string :=
  match fuel with
  | 0 => s
  | S fuel' =>
      match search_block true tag s with
      | Some _ => strip_loop fuel' tag (sub_blocks true tag s)
      | None => s
      end
  end.

Definition strip_all_blocks (tag s : string) : string :=
  strip_loop (String.length s) tag s.

(** The orphan pattern (open tag, then greedily everything up to the end of
    the text, DOTALL and IGNORECASE) substituted by the empty string: the
    text is cut at the first open tag. *)
Definition sub_orphan (tag s : string) : string :=
  match find_lit true (open_tag tag) s with
  | Some (before, _) => before
  | None => s
  end.

(** The body of the three extraction loops: decode each stripped body, skip
    decode failures and non-objects, update the accumulator. *)
Definition merge_payloads (bodies : list string) : dict :=
  fold_left
    (fun acc body =>
       match json_loads (strip body) with
       | Some (JObj payload) => dict_update acc payload
       | _ => acc
       end)
    bodies [].

Definition _extract_and_strip_session_data (raw : string) : dict * string :=
  let updates := merge_payloads (finditer true SESSION_DATA raw) in
  let stripped := strip_all_blocks SESSION_DATA raw in
  let stripped := sub_orphan SESSION_DATA stripped in
  (updates, strip stripped).

(** [STORE_PERSONAL_PATTERN] is compiled with DOTALL only; the strip
    pattern with DOTALL and IGNORECASE. *)
Definition _extract_and_strip_store_personal (raw : string) : dict * string :=
  let personal := merge_payloads (finditer false STORE_PERSONAL raw) in
  (personal, strip (sub_blocks true STORE_PERSONAL raw)).

Definition _extract_and_strip_store_preference (raw : string) : dict * string :=
  let prefs := merge_payloads (finditer false STORE_PREFERENCE raw) in
  (prefs, strip (sub_blocks true STORE_PREFERENCE raw)).

(** ** The sanitizer *)

Definition marker_tags : list string :=
  [SESSION_DATA; STORE_PERSONAL; STORE_PREFERENCE].

(** The end-of-text anchor: at the end, or just before a final newline. *)
Definition at_end (r : string) : bool :=
  match r with
  | EmptyString => true
  | String c EmptyString => Ascii.eqb c newline
  | _ => false
  end.

Definition full_match (pat s : string) : bool :=
  match match_lit true pat s with
  | Some r => at_end r
  | None => false
  end.

(** A line that is only an opening or a closing tag of [tag] (the slash of
    the pattern is optional), compared without case. *)
Definition is_bare_tag (tag s : string) : bool :=
  full_match (close_tag tag) s || full_match (open_tag tag) s.

Definition is_marker_line (s : string) : bool :=
  is_bare_tag SESSION_DATA s || is_bare_tag STORE_PERSONAL s
  || is_bare_tag STORE_PREFERENCE s.

Definition keep_line (line : string) : bool :=
  negb (is_marker_line (strip line)).

Definition _sanitize_response_for_user (text : string) : string :=
  if is_empty text || is_empty (strip text) then text
  else
    let text := fold_left (fun t tag => strip_all_blocks tag t) marker_tags text in
    let text := fold_left (fun t tag => sub_orphan tag t) marker_tags text in
    let out := List.filter keep_line (split_lines text) in
    strip (join_lines out).

End Markers.


(* ===================================================================== *)
(** * Persistence ([db/models.py], [db/repository.py])                    *)
(* ===================================================================== *)

Module Repo.

Import Text Json.

(** Exceptions that can leave the modelled functions. *)
Inductive exn : Type :=
| MultipleResultsFound
| TypeError
| AttributeError.

Inductive result (A : Type) : Type :=
| Ok (a : A)
| Raise (e : exn).
Arguments Ok {A} a.
Arguments Raise {A} e.

(** Row of table [sessions]. *)
Record Session : Type := mkSession {
  session_id : string;
  session_user_id : string;
  title : option string;
  is_active : bool;
  session_created_at : Z;
  session_updated_at : Z;
  state : option dict
}.

(** Row of table [memories]. *)
Record Memory : Type := mkMemory {
  memory_id : string;
  user_id : string;
  memory_type : string;
  key : string;
  value : string;
  confidence : Q;
  source : string;
  created_at : Z;
  updated_at : Z
}.

(** What lies outside the program: the successive readings of
    [datetime.utcnow()] and the successive [uuid4()] draws. *)
Record Env : Type := mkEnv {
  clock : nat -> Z;
  uuid4 : nat -> string
}.

(** The database behind a [ChatRepository], with the number of committed
    transactions, of clock readings and of identifier draws so far.
    [sessions] is keyed by the primary key; [memories] has no uniqueness
    constraint besides its primary key and is kept as the list of rows. *)
Record DB : Type := mkDB {
  sessions : gmap string Session;
  memories : list Memory;
  commits : nat;
  ticks : nat;
  draws : nat
}.

Definition with_sessions (db : DB) (ss : gmap string Session) : DB :=
  mkDB ss (memories db) (commits db) (ticks db) (draws db).
Definition with_memories (db : DB) (ms : list Memory) : DB :=
  mkDB (sessions db) ms (commits db) (ticks db) (draws db).
(** [await self.db.commit()] *)
Definition commit (db : DB) : DB :=
  mkDB (sessions db) (memories db) (S (commits db)) (ticks db) (draws db).
Definition tick (db : DB) : DB :=
  mkDB (sessions db) (memories db) (commits db) (S (ticks db)) (draws db).
Definition draw (db : DB) : DB :=
  mkDB (sessions db) (memories db) (commits db) (ticks db) (S (draws db)).

Section WithEnv.

Variable env : Env.

(** [datetime.utcnow()] *)
Definition utcnow (db : DB) : Z := clock env (ticks db).

Definition get_session (db : DB) (sid : string) : option Session :=
  sessions db !! sid.

(** [session.state = {**(session.state or {}), **state}], then the
    timestamp, then the commit; nothing at all for an unknown session. *)
Definition update_session_state (sid : string) (upd : dict) (db : DB) : DB :=
  match get_session db sid with
  | Some session =>
      let old := match state session with Some d => d | None => [] end in
      let session' :=
        mkSession (session_id session) (session_user_id session)
          (title session) (is_active session) (session_created_at session)
          (utcnow db) (Some (dict_update old upd)) in
      commit (tick (with_sessions db (<[sid := session']> (sessions db))))
  | None => db
  end.

(** [Memory.user_id == user_id, Memory.key == key] *)
Definition same_user_key (u k : string) (m : Memory) : bool :=
  String.eqb (user_id m) u && String.eqb (key m) k.

Definition same_user_type (u t : string) (m : Memory) : bool :=
  String.eqb (user_id m) u && String.eqb (memory_type m) t.

(** [result.scalar_one_or_none()] *)
Definition scalar_one_or_none {A} (rows : list A) : result (option A) :=
  match rows with
  | [] => Ok None
  | [r] => Ok (Some r)
  | _ => Raise MultipleResultsFound
  end.

(** The in-place update of the row found by [upsert_memory]. *)
Definition touch (v : string) (c : Q) (now : Z) (m : Memory) : Memory :=
  mkMemory (memory_id m) (user_id m) (memory_type m) (key m) v c (source m)
    (created_at m) now.

(** Create or update a memory.  The lookup is by user and key only.  An
    existing row is updated in place, with one reading of the clock.  A new
    row takes its identifier from [uuid4] and its two timestamps from the
    column defaults of [db/models.py], each a call of [datetime.utcnow] of
    its own, made when the row is written: [created_at] is read first,
    [updated_at] second. *)
Definition upsert_memory (u t k v : string) (c : Q) (db : DB)
  : result (Memory * DB) :=
  match scalar_one_or_none (List.filter (same_user_key u k) (memories db)) with
  | Raise e => Raise e
  | Ok (Some memory) =>
      let now := utcnow db in
      let rows := map (fun m => if same_user_key u k m then touch v c now m else m)
                      (memories db) in
      Ok (touch v c now memory, commit (tick (with_memories db rows)))
  | Ok None =>
      let created := utcnow db in
      let updated := utcnow (tick db) in
      let memory :=
        mkMemory (uuid4 env (draws db)) u t k v c "conversation" created updated in
      Ok (memory,
          commit (tick (tick (draw (with_memories db (memories db ++ [memory]))))))
  end.

(** Deletes the rows of one type of one user; commits only when there was
    something to delete.  Returns the number of rows deleted. *)
Definition delete_memories_by_type (u t : string) (db : DB) : nat * DB :=
  let found := List.filter (same_user_type u t) (memories db) in
  let db' := with_memories db
               (List.filter (fun m => negb (same_user_type u t m)) (memories db)) in
  (length found, match found with [] => db' | _ => commit db' end).

End WithEnv.

End Repo.

(* ===================================================================== *)
(** * Regular expressions of the intent patterns ([re] module)            *)
(* ===================================================================== *)

(** A backtracking matcher for the constructs the intent patterns of
    [chat_service.py] use.  Alternatives are tried left to right, a greedy
    repetition [Rep lo hi] tries the longest count first, a lazy repetition
    [Lazy lo] the shortest first; an iteration has to consume text.  Only
    group 1 is ever read by the program, so [Grp] marks group 1; the other
    parentheses of a pattern only group. *)
Module Regex.

Import Text.

Inductive re : Type :=
| Eps
| Chr (c : ascii)
| Cls (f : ascii -> bool)
| Seq (a b : re)
| Alt (a b : re)
| Opt (a : re)
| Rep (lo : nat) (hi : option nat) (a : re)
| Lazy (lo : nat) (a : re)
| Grp (a : re)
| WordB
| Eot.

(** A position in the subject: the character before it, the text from it
    on, and what group 1 has captured so far. *)
Record pos : Type := mkPos {
  prev : option ascii;
  rest : string;
  cap : option string
}.

Definition first_some {A} (a b : option A) : option A :=
  match a with Some _ => a | None => b end.

Definition word_at (o : option ascii) : bool :=
  match o with Some c => isword c | None => false end.

Definition next_char (s : string) : option ascii :=
  match s with String c _ => Some c | EmptyString => None end.

Definition at_eot (r : string) : bool :=
  match r with
  | EmptyString => true
  | String c EmptyString => Ascii.eqb c newline
  | _ => false
  end.

Definition under (hi : option nat) (count : nat) : bool :=
  match hi with Some h => count <? h | None => true end.

Fixpoint run (ci : bool) (r : re) (p : pos) (k : pos -> option pos) : option pos :=
  match r with
  | Eps => k p
  | Chr c =>
      match rest p with
      | String d s' => if char_eq ci c d then k (mkPos (Some d) s' (cap p)) else None
      | EmptyString => None
      end
  | Cls f =>
      match rest p with
      | String d s' => if f d then k (mkPos (Some d) s' (cap p)) else None
      | EmptyString => None
      end
  | Seq a b => run ci a p (fun p' => run ci b p' k)
  | Alt a b => first_some (run ci a p k) (run ci b p k)
  | Opt a => first_some (run ci a p k) (k p)
  | Rep lo hi a =>
      (fix loop (fuel count : nat) (p : pos) {struct fuel} : option pos :=
         let stop := if lo <=? count then k p else None in
         match fuel with
         | 0 => stop
         | S fuel' =>
             if under hi count then
               first_some
                 (run ci a p (fun p' =>
                    if String.length (rest p') <? String.length (rest p)
                    then loop fuel' (S count) p' else None))
                 stop
             else stop
         end) (String.length (rest p)) 0 p
  | Lazy lo a =>
      (fix loop (fuel count : nat) (p : pos) {struct fuel} : option pos :=
         let more :=
           match fuel with
           | 0 => None
           | S fuel' =>
               run ci a p (fun p' =>
                 if String.length (rest p') <? String.length (rest p)
                 then loop fuel' (S count) p' else None)
           end in
         if lo <=? count then first_some (k p) more else more)
        (String.length (rest p)) 0 p
  | Grp a =>
      run ci a p (fun p' =>
        k (mkPos (prev p') (rest p')
             (Some (take (String.length (rest p) - String.length (rest p')) (rest p)))))
  | WordB =>
      if xorb (word_at (prev p)) (word_at (next_char (rest p))) then k p else None
  | Eot => if at_eot (rest p) then k p else None
  end.

(** [pattern.search(s)]: the leftmost start position with a match. *)
Fixpoint search_from (ci : bool) (r : re) (before : option ascii) (s : string)
  : option pos :=
  match run ci r (mkPos before s None) Some with
  | Some p => Some p
  | None =>
      match s with
      | String c s' => search_from ci r (Some c) s'
      | EmptyString => None
      end
  end.

Definition search (ci : bool) (r : re) (s : string) : option pos :=
  search_from ci r None s.

(** [m.group(1)] *)
Definition group1 (p : pos) : string :=
  match cap p with Some g => g | None => EmptyString end.

Definition matches (ci : bool) (r : re) (s : string) : bool :=
  match search ci r s with Some _ => true | None => false end.

(** ** Pattern combinators *)

Fixpoint lit (s : string) : re :=
  match s with
  | EmptyString => Eps
  | String c EmptyString => Chr c
  | String c s' => Seq (Chr c) (lit s')
  end.

Fixpoint seqs (l : list re) : re :=
  match l with
  | [] => Eps
  | [a] => a
  | a :: l' => Seq a (seqs l')
  end.

Fixpoint alts (l : list re) : re :=
  match l with
  | [] => Eps
  | [a] => a
  | a :: l' => Alt a (alts l')
  end.

Definition lits (l : list string) : re := alts (map lit l).

(** [\s+], [\s*], [\d+] *)
Definition ws1 : re := Rep 1 None (Cls isspace).
Definition ws0 : re := Rep 0 None (Cls isspace).
Definition digits1 : re := Rep 1 None (Cls isdigit).

End Regex.

(* ===================================================================== *)
(** * Memory keys ([models/memory_keys.py])                               *)
(* ===================================================================== *)

Module MemoryKeys.

Definition MEMORY_TYPE_PERSONAL : string := "personal".
Definition MEMORY_TYPE_PREFERENCE : string := "preference".
Definition MEMORY_TYPE_INTENT : string := "intent".
Definition MEMORY_TYPE_BEHAVIOR : string := "behavior".

Definition KEY_DISPLAY_NAME : string := "display_name".
Definition KEY_TIMEZONE : string := "timezone".
Definition KEY_LANGUAGE : string := "language".

Definition KEY_PREFERRED_VIEW : string := "preferred_view".
Definition KEY_DETAIL_LEVEL : string := "detail_level".
Definition KEY_RESPONSE_FORMAT : string := "response_format".
Definition KEY_STYLE_PREFERENCE : string := "style_preference".

Definition KEY_PRIMARY_INTENT : string := "primary_intent".
Definition KEY_INTEREST_COLLECTIONS : string := "interest_collections".
Definition KEY_PRICE_RANGE_INTEREST : string := "price_range_interest".

End MemoryKeys.

(* ===================================================================== *)
(** * Memory write policy ([ChatService._extract_and_store_memory])       *)
(* ===================================================================== *)

Module Policy.

Import Text Json Regex Repo MemoryKeys.

(** ** The intent patterns (all compiled with IGNORECASE) *)

Definition DONT_REMEMBER_PERSONAL : re :=
  seqs [ WordB;
         lits ["don't remember"; "do not remember"; "forget"; "don't store";
               "do not store"; "remove"; "delete"];
         ws1;
         Opt (Seq (lit "my") ws1);
         alts [lit "name"; Seq (lit "detail") (Opt (Chr "s")); lit "personal";
               lit "info"; lit "information"];
         WordB ].

Definition that_i (verb : string) : re :=
  seqs [lit "that"; ws1; lit "i"; ws1; lit verb].
Definition i_ (verb : string) : re := seqs [lit "i"; ws1; lit verb].

Definition REMEMBER_ASK_PATTERN : re :=
  alts [
    seqs [ WordB;
           lits ["remember"; "save"; "store"; "keep"; "share"; "sharing"];
           ws1;
           Opt (Seq (lit "that") ws1);
           Opt (Seq (lit "my") ws1);
           Opt (Seq (lit "this") ws1);
           alts [lit "preference"; lit "preferences"; lit "choice"; lit "choices";
                 that_i "prefer"; that_i "like"; i_ "prefer"; i_ "like"];
           WordB ];
    seqs [ WordB;
           alts [seqs [lit "this"; ws1; lit "is"];
                 seqs [lit "that"; Opt (Chr "'"); Opt (Chr "s")]];
           ws1;
           Opt (Seq (lit "my") ws1);
           lits ["preference"; "choice"];
           WordB ];
    seqs [ WordB;
           alts [seqs [lit "want"; ws1; lit "to"];
                 seqs [lit "would"; ws1; lit "like"; ws1; lit "to"];
                 lit "please"];
           ws1;
           lits ["remember"; "save"; "store"; "keep"];
           ws1;
           Opt (Seq (lit "my") ws1);
           Opt (alts [lit "preference"; lit "choice"; that_i "prefer"]);
           WordB ] ].

(** [[a-zA-Z][a-zA-Z0-9_\s]{0,50}] *)
Definition name_token : re :=
  Grp (Seq (Cls isalpha)
           (Rep 0 (Some 50) (Cls (fun c => isword c || isspace c)))).

Definition i_m : re := seqs [Chr "i"; Opt (Chr "'"); Chr "m"].

Definition NAME_PATTERNS : list re :=
  [ seqs [alts [lit "call me"; lit "my name is"; i_m; lit "i am"; lit "this is"];
          ws1; name_token];
    seqs [lits ["you can call me"; "call me"]; ws1; name_token] ].

Definition COLLECTION_INTEREST_PATTERN : re :=
  seqs [ lits ["interested in"; "like"; "love"; "collect"];
         ws1;
         Opt (Seq (lit "the") ws1);
         Opt (seqs [lit "collection"; Opt (Chr "s"); ws1]);
         Grp (Lazy 1 (Cls (fun c => isalpha c || isdigit c || isspace c
                                    || Ascii.eqb c ",")));
         Opt (Seq ws1 (lit "collection"));
         Rep 0 None (Cls (fun c => Ascii.eqb c "." || Ascii.eqb c "!"
                                   || Ascii.eqb c "," || isspace c));
         Eot ].

Definition PRICE_RANGE_PATTERN : re :=
  seqs [ lits ["under"; "below"; "max"; "within"];
         ws1;
         Grp (Seq digits1 (Opt (Seq (Chr ".") digits1)));
         ws0;
         lit "ETH" ].

(** ** Outcome of a sequence of repository calls

    A call that raises ends the turn; what was committed before stays. *)
Inductive outcome : Type :=
| Done (db : DB)
| Failed (e : exn) (db : DB).

Definition final (o : outcome) : DB :=
  match o with Done db => db | Failed _ db => db end.

Definition step : Type := DB -> outcome.

Definition skip : step := Done.

Definition and_then (a b : step) : step :=
  fun db => match a db with Done db' => b db' | Failed e db' => Failed e db' end.

Infix ">>>" := and_then (at level 65, right associativity).

Definition str_in (s : string) (l : list string) : bool :=
  existsb (String.eqb s) l.

(** [a or b] on the results of two [dict.get] calls. *)
Definition get_or (a b : option json) : option json :=
  match a with
  | Some v => if truthy v then a else b
  | None => b
  end.

Definition truthy_opt (o : option json) : bool :=
  match o with Some v => truthy v | None => false end.

Definition or_empty (o : option dict) : dict :=
  match o with Some d => d | None => [] end.

Definition nonempty (d : dict) : bool :=
  match d with [] => false | _ => true end.

(** The name loop: the first pattern that matches decides, later patterns
    are not tried. *)
Fixpoint first_name_match (pats : list re) (msg : string) : option string :=
  match pats with
  | [] => None
  | pat :: pats' =>
      match search true pat msg with
      | Some m => Some (strip (group1 m))
      | None => first_name_match pats' msg
      end
  end.

Section WithEnv.

Variable env : Env.

(** Python's [str()] on a decoded JSON value. *)
Variable py_str : json -> string.

(** [await self.repo.upsert_memory(user_id, t, k, v)] with the default
    confidence; the returned row is not used. *)
Definition upsert (u t k v : string) : step :=
  fun db =>
    match upsert_memory env u t k v 1%Q db with
    | Ok (_, db') => Done db'
    | Raise e => Failed e db
    end.

Definition personal_from_message (u msg : string) : step :=
  match first_name_match NAME_PATTERNS msg with
  | Some name =>
      if (String.length name <=? 50)
         && negb (str_in (lower name) ["me"; "i"; "a"; "the"])
      then upsert u MEMORY_TYPE_PERSONAL KEY_DISPLAY_NAME name
      else skip
  | None => skip
  end.

Definition personal_from_directive (u : string) (personal : dict)
  (k : string) (limit : nat) : step :=
  match dict_get k personal with
  | Some v =>
      if truthy v then upsert u MEMORY_TYPE_PERSONAL k (take_chars limit (py_str v))
      else skip
  | None => skip
  end.

(** A preference dimension: the directive value when it is one of the
    allowed values, else the keyword fallback on the lowered message. *)
Definition preference_dimension (u : string) (prefs : dict) (k : string)
  (allowed : list string) (fallback : option string) : step :=
  let v := get_or (dict_get k prefs) (dict_get k prefs) in
  let directive :=
    match v with
    | Some x => truthy x && str_in (lower (py_str x)) allowed
    | None => false
    end in
  if directive then
    upsert u MEMORY_TYPE_PREFERENCE k
      (lower (py_str (match v with Some x => x | None => JNull end)))
  else
    match fallback with
    | Some value => upsert u MEMORY_TYPE_PREFERENCE k value
    | None => skip
    end.

Definition view_fallback (m : string) : option string :=
  if contains "table" m || contains "list view" m || contains "list format" m
     || (contains "list" m
         && (contains "view" m || contains "prefer" m || contains "preference" m))
  then Some "table"
  else if contains "grid" m || contains "card view" m || contains "grid format" m
  then Some "grid"
  else None.

Definition detail_fallback (m : string) : option string :=
  if contains "more detail" m || contains "full info" m || contains "detailed" m
  then Some "detailed"
  else if contains "brief" m || contains "quick" m || contains "minimal" m
          || contains "less detail" m
  then Some "minimal"
  else if contains "standard" m && (contains "detail" m || contains "info" m)
  then Some "standard"
  else None.

Definition format_fallback (m : string) : option string :=
  if contains "short" m || contains "concise" m || contains "quick answer" m
  then Some "concise"
  else if contains "detailed" m || contains "full" m || contains "explain more" m
  then Some "detailed"
  else if contains "balanced" m then Some "balanced"
  else None.

Definition style_from_message (m : string) : option string :=
  if contains "minimal" m
     && (contains "style" m || contains "look" m || contains "prefer" m)
  then Some "minimal"
  else if contains "rich" m || contains "more style" m then Some "rich"
  else None.

Definition intent_from_message (m : string) : option string :=
  if contains "just browsing" m || contains "browsing" m || contains "looking around" m
  then Some "browsing"
  else if contains "looking to buy" m || contains "want to buy" m || contains "buying" m
  then Some "buying"
  else if contains "collector" m || contains "collecting" m then Some "collecting"
  else if contains "research" m || contains "comparing" m || contains "analysis" m
  then Some "research"
  else None.

Definition upsert_if (u t k : string) (o : option string) : step :=
  match o with Some v => upsert u t k v | None => skip end.

Definition collection_interest (u msg : string) : step :=
  match search true COLLECTION_INTEREST_PATTERN msg with
  | Some m =>
      let raw := strip (group1 m) in
      if String.length raw <=? 200
      then upsert u MEMORY_TYPE_INTENT KEY_INTEREST_COLLECTIONS raw
      else skip
  | None => skip
  end.

Definition price_range (u msg : string) : step :=
  match search true PRICE_RANGE_PATTERN msg with
  | Some m =>
      upsert u MEMORY_TYPE_INTENT KEY_PRICE_RANGE_INTEREST
        ("under " +:+ group1 m +:+ " ETH")
  | None => skip
  end.

(** Everything after the gate. *)
Definition preferences_and_intents (u msg msg_lower : string) (prefs : dict) : step :=
  preference_dimension u prefs KEY_PREFERRED_VIEW ["grid"; "table"]
    (view_fallback msg_lower) >>>
  preference_dimension u prefs KEY_DETAIL_LEVEL
    ["minimal"; "standard"; "detailed"; "full"] (detail_fallback msg_lower) >>>
  preference_dimension u prefs KEY_RESPONSE_FORMAT
    ["concise"; "balanced"; "detailed"] (format_fallback msg_lower) >>>
  upsert_if u MEMORY_TYPE_PREFERENCE KEY_STYLE_PREFERENCE
    (style_from_message msg_lower) >>>
  upsert_if u MEMORY_TYPE_INTENT KEY_PRIMARY_INTENT
    (intent_from_message msg_lower) >>>
  collection_interest u msg >>>
  price_range u msg.

Definition _extract_and_store_memory (u message : string)
  (personal_from_llm preference_from_llm : option dict) : step :=
  let msg := strip message in
  let msg_lower := lower msg in
  let personal := or_empty personal_from_llm in
  let prefs := or_empty preference_from_llm in
  if matches true DONT_REMEMBER_PERSONAL msg then
    fun db => Done (snd (delete_memories_by_type u MEMORY_TYPE_PERSONAL db))
  else
    personal_from_message u msg >>>
    personal_from_directive u personal KEY_DISPLAY_NAME 100 >>>
    personal_from_directive u personal KEY_TIMEZONE 100 >>>
    personal_from_directive u personal KEY_LANGUAGE 50 >>>
    (if negb (matches true REMEMBER_ASK_PATTERN msg) && negb (nonempty prefs)
     then skip
     else preferences_and_intents u msg msg_lower prefs).

End WithEnv.

End Policy.


(* ===================================================================== *)
(** * History compaction ([_build_blocks_json_for_storage])               *)
(* ===================================================================== *)

Module Compaction.

Import Text Json Repo.

(** [models/chat.py] *)
Record ContentBlock : Type := mkBlock {
  type : string;
  markdown : option string;
  html : option string;
  template : option string
}.

(** One entry of [out_blocks]. *)
Record StoredBlock : Type := mkStored {
  stored_markdown : string;
  html_tools_data : string
}.

(** [x or default] *)
Definition or_default (o : option json) (default : json) : json :=
  match o with
  | Some v => if truthy v then v else default
  | None => default
  end.

Definition str_or_empty (o : option string) : string :=
  match o with Some s => s | None => EmptyString end.

Definition bind {A B} (r : result A) (f : A -> result B) : result B :=
  match r with Ok a => f a | Raise e => Raise e end.

Fixpoint all_ok {A} (l : list (result A)) : result (list A) :=
  match l with
  | [] => Ok []
  | r :: l' => bind r (fun a => bind (all_ok l') (fun t => Ok (a :: t)))
  end.

Fixpoint chars (s : string) : list string :=
  match s with
  | EmptyString => []
  | String c s' => String c EmptyString :: chars s'
  end.

Section WithStr.

(** Python's [str()] on a decoded JSON value, which is also how an f-string
    formats it. *)
Variable py_str : json -> string.

(** [json.dumps] on the list of stored blocks. *)
Variable json_dumps : list StoredBlock -> string.

(** [{d.get(k, default)}] inside an f-string *)
Definition fmt (d : dict) (k default : string) : string :=
  match dict_get k d with Some v => py_str v | None => default end.

(** [{d.get(k)}] inside an f-string: a missing key formats as [None]. *)
Definition fmt_none (d : dict) (k : string) : string :=
  match dict_get k d with Some v => py_str v | None => py_str JNull end.

(** [" ... and K more"] after the first 20 entries *)
Definition more_suffix (n : nat) : string :=
  if 20 <? n then " ... and " +:+ py_str (JInt (Z.of_nat (n - 20))) +:+ " more"
  else EmptyString.

(** A list summary: the value must be a list, and each of its first 20
    entries a dict, for the calls on them to succeed. *)
Definition list_summary (line : dict -> string) (v : json) : result string :=
  if negb (truthy v) then Ok EmptyString
  else
    match v with
    | JArr items =>
        bind (all_ok (map (fun n => match n with
                                    | JObj d => Ok (line d)
                                    | _ => Raise AttributeError
                                    end) (firstn 20 items)))
             (fun parts => Ok (join "; " parts +:+ more_suffix (length items)))
    | JStr _ => Raise AttributeError
    | _ => Raise TypeError
    end.

Definition nft_line (n : dict) : string :=
  fmt n "id" "" +:+ " " +:+ fmt n "name" "" +:+ " (" +:+ fmt n "collection" ""
  +:+ ") price_eth=" +:+ fmt_none n "price_eth"
  +:+ " last_sale_eth=" +:+ fmt_none n "last_sale_eth"
  +:+ " owner="
  +:+ take_chars 16 (match dict_get "owner" n with
               | Some v => if truthy v then py_str v else EmptyString
               | None => EmptyString
               end)
  +:+ " status=" +:+ fmt_none n "status"
  +:+ " rarity_rank=" +:+ fmt_none n "rarity_rank".

Definition collection_line (c : dict) : string :=
  fmt c "name" "" +:+ " nft_count=" +:+ fmt c "nft_count" (py_str (JInt 0)).

Definition _nft_list_summary (state_updates : dict) : result string :=
  list_summary nft_line (or_default (dict_get "nft_list" state_updates) (JArr [])).

Definition _collection_list_summary (state_updates : dict) : result string :=
  list_summary collection_line
    (or_default (dict_get "collection_list" state_updates) (JArr [])).

(** [(d.get('description') or '')[:200]] formatted *)
Definition description_text (d : dict) : result string :=
  match dict_get "description" d with
  | Some v =>
      if truthy v then
        match v with
        | JStr s => Ok (take_chars 200 s)
        | JArr l => Ok (py_str (JArr (firstn 200 l)))
        | _ => Raise TypeError
        end
      else Ok EmptyString
  | None => Ok EmptyString
  end.

(** [", ".join(attrs)] for a truthy [attrs] *)
Definition attributes_text (attrs : json) : result string :=
  match attrs with
  | JArr l =>
      bind (all_ok (map (fun a => match a with
                                  | JStr s => Ok s
                                  | _ => Raise TypeError
                                  end) l))
           (fun strs => Ok (join ", " strs))
  | JStr s => Ok (join ", " (chars s))
  | JObj m => Ok (join ", " (map fst m))
  | _ => Raise TypeError
  end.

Definition _detail_summary_text (state_updates : dict) : result string :=
  let detail_summary := or_default (dict_get "detail_summary" state_updates) (JObj []) in
  let last_detail_id := or_default (dict_get "last_detail_id" state_updates) (JStr "") in
  if negb (truthy detail_summary) then
    Ok (if truthy last_detail_id
        then "[details for " +:+ py_str last_detail_id +:+ "]"
        else EmptyString)
  else
    match detail_summary with
    | JObj d =>
        bind (description_text d) (fun descr =>
        let lines :=
          [ "id=" +:+ fmt_none d "id" +:+ " name=" +:+ fmt_none d "name"
            +:+ " collection=" +:+ fmt_none d "collection";
            "price_eth=" +:+ fmt_none d "price_eth" +:+ " last_sale_eth="
            +:+ fmt_none d "last_sale_eth" +:+ " status=" +:+ fmt_none d "status";
            "owner=" +:+ fmt d "owner" "" +:+ " blockchain=" +:+ fmt d "blockchain" ""
            +:+ " rarity_rank=" +:+ fmt_none d "rarity_rank";
            "description: " +:+ descr ] in
        let attrs := or_default (dict_get "attributes" d) (JArr []) in
        if truthy attrs then
          bind (attributes_text attrs) (fun a =>
            Ok (join " | " (lines ++ ["attributes: " +:+ a])))
        else Ok (join " | " lines))
    | _ => Raise AttributeError
    end.

(** The three flags of the loop. *)
Record used : Type := mkUsed {
  nft_used : bool;
  collection_used : bool;
  detail_used : bool
}.

Definition str_in (s : string) (l : list string) : bool :=
  existsb (String.eqb s) l.

(** [(b.markdown or "").strip()] *)
Definition plain (b : ContentBlock) : StoredBlock :=
  mkStored (strip (str_or_empty (markdown b))) EmptyString.

(** The loop over [blocks]; a summary is computed at the place where it is
    used, so a summary that raises does so there. *)
Fixpoint storage_loop (state_updates : dict) (blocks : list ContentBlock)
  (u : used) : result (list StoredBlock) :=
  match blocks with
  | [] => Ok []
  | b :: blocks' =>
      let continue (sb : StoredBlock) (u' : used) :=
        bind (storage_loop state_updates blocks' u') (fun out => Ok (sb :: out)) in
      if String.eqb (type b) "text" then continue (plain b) u
      else if String.eqb (type b) "html_component"
              && negb (is_empty (str_or_empty (template b))) then
        let t := lower (str_or_empty (template b)) in
        if str_in t ["grid"; "table"] then
          bind (if nft_used u then Ok EmptyString else _nft_list_summary state_updates)
               (fun data => continue (mkStored EmptyString data)
                              (mkUsed true (collection_used u) (detail_used u)))
        else if str_in t ["collection_grid"; "collection_table"] then
          bind (if collection_used u then Ok EmptyString
                else _collection_list_summary state_updates)
               (fun data => continue (mkStored EmptyString data)
                              (mkUsed (nft_used u) true (detail_used u)))
        else if String.eqb t "details" then
          bind (if detail_used u then Ok EmptyString
                else _detail_summary_text state_updates)
               (fun data => continue (mkStored EmptyString data)
                              (mkUsed (nft_used u) (collection_used u) true))
        else continue (mkStored EmptyString EmptyString) u
      else continue (plain b) u
  end.

Definition out_blocks (blocks : list ContentBlock) (state_updates : dict)
  : result (list StoredBlock) :=
  storage_loop state_updates blocks (mkUsed false false false).

Definition _build_blocks_json_for_storage (blocks : list ContentBlock)
  (state_updates : dict) : result string :=
  bind (out_blocks blocks state_updates) (fun out => Ok (json_dumps out)).

End WithStr.

End Compaction.

(* ===================================================================== *)
(** * The turn ([ChatService.process_message], step 7)                    *)
(* ===================================================================== *)

Module Service.

Import Text Json Markers Repo.

(** Step 7 of [process_message]: the session data is extracted from the raw
    agent response, and the session state is merged only when the extracted
    update is not empty.  Returns the stripped response with the database. *)
Definition process_message_step7 (env : Env) (sid raw : string) (db : DB)
  : string * DB :=
  let (state_updates, stripped_response) := _extract_and_strip_session_data raw in
  (stripped_response,
   match state_updates with
   | [] => db
   | _ => update_session_state env sid state_updates db
   end).

End Service.

(* ===================================================================== *)
(** * Session data emitted by the tools ([tools/nft_tools.py])            *)
(* ===================================================================== *)

Module Tools.

Import Text Json.

Section WithDumps.

(** [json.dumps] on a payload. *)
Variable json_dumps : dict -> string.

Definition _session_data_line (payload : dict) : string :=
  String newline ("[SESSION_DATA]" +:+ json_dumps payload +:+ "[/SESSION_DATA]").

End WithDumps.

End Tools.

(* ===================================================================== *)
(** * The block parser ([agent/response_parser.py])                       *)
(* ===================================================================== *)

Module Parser.

Import Text Compaction.

Definition HTML_START : string := "<!--HTML_COMPONENT::".
Definition HTML_END : string := "::END_HTML-->".

(** The longest run of word characters at the start of [s], and what
    follows it. *)
Fixpoint span_word (s : string) : string * string :=
  match s with
  | String c s' =>
      if isword c then let (w, r) := span_word s' in (String c w, r)
      else (EmptyString, s)
  | EmptyString => (EmptyString, EmptyString)
  end.

(** One attempt of the component pattern (the start marker, group 1 a
    non-empty greedy run of word characters, the arrow, group 2 a lazy body,
    the end marker; DOTALL) at the start of [s].  The character after the
    run has to be the hyphen of the arrow, which is no word character, so
    only the longest run can match.  Returns the two groups and the text
    after the match. *)
Definition match_component (s : string) : option (string * string * string) :=
  match match_lit false HTML_START s with
  | None => None
  | Some r =>
      let (w, r1) := span_word r in
      if is_empty w then None
      else
        match match_lit false "-->" r1 with
        | None => None
        | Some r2 =>
            match find_lit false HTML_END r2 with
            | Some (body, rest) => Some (w, body, rest)
            | None => None
            end
        end
  end.

(** The leftmost match: the text before it, the groups, the text after. *)
Fixpoint search_component (s : string)
  : option (string * string * string * string) :=
  match match_component s with
  | Some (t, body, rest) => Some (EmptyString, t, body, rest)
  | None =>
      match s with
      | EmptyString => None
      | String c s' =>
          match search_component s' with
          | Some (pre, t, body, rest) => Some (String c pre, t, body, rest)
          | None => None
          end
      end
  end.

Definition text_block (m : string) : ContentBlock :=
  mkBlock "text" (Some m) None None.

Definition component_block (template_type html_content : string) : ContentBlock :=
  mkBlock "html_component" None (Some html_content) (Some template_type).

(** A stripped piece of text becomes a text block unless it is empty. *)
Definition text_if_any (s : string) : list ContentBlock :=
  let t := strip s in
  if is_empty t then [] else [text_block t].

(** The loop over the matches, with the text after the last match. *)
Fixpoint parse_loop (fuel : nat) (s : string) : list ContentBlock :=
  match fuel with
  | 0 => text_if_any s
  | S fuel' =>
      match search_component s with
      | Some (pre, t, body, rest) =>
          (text_if_any pre ++ component_block t (strip body) :: parse_loop fuel' rest)%list
      | None => text_if_any s
      end
  end.

(** [ResponseParser.parse] *)
Definition parse (raw_response : string) : list ContentBlock :=
  match parse_loop (String.length raw_response) raw_response with
  | [] => [text_block raw_response]
  | blocks => blocks
  end.

(** [ResponseParser.wrap_html] *)
Definition wrap_html (html template_type : string) : string :=
  HTML_START +:+ template_type +:+ "-->" +:+ String newline html
  +:+ String newline HTML_END.

End Parser.

(* ===================================================================== *)
(** * The text path of a turn ([process_message], steps 7 to 9b)          *)
(* ===================================================================== *)

Module Turn.

Import Text Json Markers Compaction Parser.

(** Steps 7, 8, 8b and 8c: the three extractions in their order, each on
    the text the previous one left, and the final sanitizing. *)
Definition extract_all (raw_response : string) : dict * dict * dict * string :=
  let (state_updates, s1) := _extract_and_strip_session_data raw_response in
  let (personal_from_llm, s2) := _extract_and_strip_store_personal s1 in
  let (preference_from_llm, s3) := _extract_and_strip_store_preference s2 in
  (state_updates, personal_from_llm, preference_from_llm,
   _sanitize_response_for_user s3).

(** Step 9b: text blocks with visible text are sanitized again and dropped
    when nothing is left; every other block is passed on. *)
Definition sanitize_block (b : ContentBlock) : list ContentBlock :=
  let md := str_or_empty (markdown b) in
  if String.eqb (type b) "text" && negb (is_empty (strip md)) then
    let cleaned := strip (_sanitize_response_for_user md) in
    if is_empty cleaned then []
    else [mkBlock (type b) (Some cleaned) (html b) (template b)]
  else [b].

Definition sanitized_blocks (blocks : list ContentBlock) : list ContentBlock :=
  flat_map sanitize_block blocks.

(** The blocks returned to the caller for a raw agent response. *)
Definition response_blocks (raw_response : string) : list ContentBlock :=
  let '(_, _, _, stripped_response) := extract_all raw_response in
  sanitized_blocks (parse stripped_response).

End Turn.

(* ===================================================================== *)
(** * More of the repository ([db/repository.py])                         *)
(* ===================================================================== *)

Module RepoQueries.

Import Text Json Repo.

(** [select(Memory).where(Memory.user_id == user_id)] *)
Definition get_user_memories (u : string) (db : DB) : list Memory :=
  List.filter (fun m => String.eqb (user_id m) u) (memories db).

(** Deletes the row found for (user, key), if one is found, and commits;
    tells whether a row was deleted.  The row found is the only row of that
    user and key, more than one makes the lookup raise. *)
Definition delete_memory (u k : string) (db : DB) : result (bool * DB) :=
  match scalar_one_or_none (List.filter (same_user_key u k) (memories db)) with
  | Raise e => Raise e
  | Ok (Some memory) =>
      Ok (true,
          commit (with_memories db
                    (List.filter (fun m => negb (same_user_key u k m)) (memories db))))
  | Ok None => Ok (false, db)
  end.

End RepoQueries.

(* ===================================================================== *)
(** * Value tuples ([models/memory_keys.py])                              *)
(* ===================================================================== *)

Module MemoryValues.

Definition VIEW_VALUES : list string := ["grid"; "table"].
Definition DETAIL_LEVEL_VALUES : list string :=
  ["minimal"; "standard"; "detailed"; "full"].
Definition RESPONSE_FORMAT_VALUES : list string :=
  ["concise"; "balanced"; "detailed"].
Definition INTENT_VALUES : list string :=
  ["browsing"; "buying"; "collecting"; "research"].

End MemoryValues.

(* ===================================================================== *)
(** * The context of a turn ([agent/context_manager.py])                  *)
(* ===================================================================== *)

Module Context.

Import Text Json Repo MemoryKeys RepoQueries.

(** The four lists of [by_type], each of (key, value) pairs. *)
Record buckets : Type := mkBuckets {
  personal : list (string * string);
  preference : list (string * string);
  intent : list (string * string);
  behavior : list (string * string)
}.

(** One round of the loop over the memories: the pair goes to the list of
    the record's type, and to the preferences when the type is none of the
    four. *)
Definition file (b : buckets) (mem : Memory) : buckets :=
  let kv := (key mem, value mem) in
  let t := memory_type mem in
  if String.eqb t MEMORY_TYPE_PERSONAL then
    mkBuckets (personal b ++ [kv]) (preference b) (intent b) (behavior b)
  else if String.eqb t MEMORY_TYPE_PREFERENCE then
    mkBuckets (personal b) (preference b ++ [kv]) (intent b) (behavior b)
  else if String.eqb t MEMORY_TYPE_INTENT then
    mkBuckets (personal b) (preference b) (intent b ++ [kv]) (behavior b)
  else if String.eqb t MEMORY_TYPE_BEHAVIOR then
    mkBuckets (personal b) (preference b) (intent b) (behavior b ++ [kv])
  else
    mkBuckets (personal b) (preference b ++ [kv]) (intent b) (behavior b).

Definition by_type (memories : list Memory) : buckets :=
  fold_left file memories (mkBuckets [] [] [] []).

Definition PERSONAL_HEADER : string :=
  "## User Personal Details (use when addressing the user):".
Definition PREFERENCE_HEADER : string :=
  "## User Preferences (page/response format, styling):".
Definition INTENT_HEADER : string :=
  "## User Intents & Behavior (tailor suggestions):".

Definition entry (kv : string * string) : string :=
  "- " +:+ fst kv +:+ ": " +:+ snd kv.

(** A header and its entries, or nothing for an empty list. *)
Definition section_of (header : string) (entries : list (string * string))
  : list string :=
  match entries with
  | [] => []
  | _ => header :: map entry entries
  end.

Definition sections (memories : list Memory) : list string :=
  let b := by_type memories in
  (section_of PERSONAL_HEADER (personal b)
   ++ section_of PREFERENCE_HEADER (preference b)
   ++ section_of INTENT_HEADER (intent b ++ behavior b))%list.

(** [ContextManager._format_memories] *)
Definition _format_memories (memories : list Memory) : string :=
  match memories with
  | [] => EmptyString
  | _ =>
      match sections memories with
      | [] => EmptyString
      | s => join_lines s
      end
  end.

(** The part of [build_context] that reads the user memory. *)
Definition formatted_memories (u : string) (db : DB) : string :=
  _format_memories (get_user_memories u db).

End Context.

(* ===================================================================== *)
(** * The history of a session as the model reads it                      *)
(* ===================================================================== *)

Module History.

Import Text Json Repo Compaction.

(** The columns of table [messages] that the formatting reads. *)
Record Message : Type := mkMessage {
  role : string;
  content : string;
  content_type : string
}.

(** [(b.get(k) or "").strip()]: a value that is true and no string has no
    [strip]. *)
Definition text_field (b : dict) (k : string) : result string :=
  match dict_get k b with
  | Some v =>
      if truthy v then
        match v with
        | JStr s => Ok (strip s)
        | _ => Raise AttributeError
        end
      else Ok EmptyString
  | None => Ok EmptyString
  end.

Definition if_any (s : string) : list string :=
  if is_empty s then [] else [s].

(** The loop over the decoded blocks; an entry that is no object has no
    [get]. *)
Fixpoint block_parts (blocks : list json) : result (list string) :=
  match blocks with
  | [] => Ok []
  | b :: blocks' =>
      match b with
      | JObj d =>
          bind (text_field d "markdown") (fun md =>
          bind (text_field d "html_tools_data") (fun htd =>
          bind (block_parts blocks') (fun parts =>
            Ok (if_any md ++ if_any htd ++ parts)%list)))
      | _ => Raise AttributeError
      end
  end.

Definition blank_line : string := String newline (String newline EmptyString).

(** The content shown for a message of content type [blocks_json]: text
    that does not decode is shown as it is, and so is text that decodes to
    something else than a list or that yields no part. *)
Definition expand (content : string) : result string :=
  match json_loads content with
  | Some (JArr blocks) =>
      bind (block_parts blocks) (fun parts =>
        Ok (match parts with [] => content | _ => join blank_line parts end))
  | Some _ => Ok content
  | None => Ok content
  end.

(** [ContextManager._format_history]: pairs of role and content. *)
Fixpoint _format_history (messages : list Message)
  : result (list (string * string)) :=
  match messages with
  | [] => Ok []
  | msg :: messages' =>
      if negb (str_in (role msg) ["user"; "assistant"]) then
        _format_history messages'
      else
        bind (if String.eqb (content_type msg) "blocks_json"
              then expand (content msg) else Ok (content msg))
          (fun c =>
             bind (_format_history messages') (fun r => Ok ((role msg, c) :: r)))
  end.

(** The entry of one stored block in the JSON array. *)
Definition stored_json (sb : StoredBlock) : json :=
  JObj [("markdown", JStr (stored_markdown sb));
        ("html_tools_data", JStr (html_tools_data sb))].

End History.

(* ===================================================================== *)
(** * Properties                                                          *)
(* ===================================================================== *)

Import Text Json Markers Regex Repo MemoryKeys Policy Service.

(** ** Sample data used by the worked examples *)

Definition env0 : Env :=
  mkEnv (fun n => 1000 + Z.of_nat n)%Z
        (fun n => "row-" +:+ String (ascii_of_nat (65 + n)) "").

Definition quoted (s : string) : string :=
  String dquote s +:+ String dquote "".

Definition session0 : Session :=
  mkSession "s1" "u1" None true 10 10 (Some [("x", JInt 1)]).

Definition memory0 : Memory :=
  mkMemory "m1" "u1" "personal" "display_name" "Sam" 1 "conversation" 5 5.
Definition memory1 : Memory :=
  mkMemory "m2" "u1" "preference" "preferred_view" "grid" 1 "conversation" 6 6.
Definition memory2 : Memory :=
  mkMemory "m3" "u2" "personal" "display_name" "Kim" 1 "conversation" 7 7.

Definition db0 : DB :=
  mkDB {[ "s1" := session0 ]} [memory0; memory1; memory2] 3 0 0.

(** ** Session state merge *)

Section SessionMerge.

Variable env : Env.

Lemma dict_update_empty (d : dict) : dict_update d [] = d.
Proof. reflexivity. Qed.

Lemma update_session_state_found sid upd db s :
  get_session db sid = Some s ->
  update_session_state env sid upd db =
  commit (tick (with_sessions db
    (<[sid := mkSession (session_id s) (session_user_id s) (title s)
                (is_active s) (session_created_at s) (utcnow env db)
                (Some (dict_update (match state s with Some d => d | None => [] end) upd))]>
       (sessions db)))).
Proof. intros H. unfold update_session_state. now rewrite H. Qed.

End SessionMerge.

(** C10: an update for a session id that matches no session changes nothing:
    the database, including its commit count, clock and sessions, is the one
    it was, and the call returns normally. *)
Theorem update_session_state_unknown_id (env : Env) (sid : string) (upd : dict) (db : DB) :
  get_session db sid = None ->
  update_session_state env sid upd db = db.
Proof.
  intros Hnone. unfold update_session_state. rewrite Hnone. reflexivity.
Qed.

Lemma update_session_state_unknown_id_witness :
  get_session db0 "s2" = None /\
  update_session_state env0 "s2" [("y", JInt 2)] db0 = db0.
Proof.
  assert (H : get_session db0 "s2" = None) by reflexivity.
  split; [exact H | exact (update_session_state_unknown_id env0 "s2" [("y", JInt 2)] db0 H)].
Defined.

(** C4, as stated, fails on the repository method: merging the empty update
    into an existing session sets a new update timestamp and commits. *)
Lemma empty_update_bumps_timestamp :
  let db' := update_session_state env0 "s1" [] db0 in
  (session_updated_at <$> get_session db0 "s1") = Some 10%Z /\
  (session_updated_at <$> get_session db' "s1") = Some 1000%Z /\
  commits db' = S (commits db0).
Proof. vm_compute. repeat split. Qed.

(** C4, amended: the turn calls the merge only for a non-empty update, so a
    response without session data leaves the database as it was; the merge
    itself, given the empty update for an existing session, keeps the keys
    and values of the state but sets the timestamp to the current time and
    commits once. *)
Theorem empty_update_skipped_by_turn :
  (forall (env : Env) (sid raw : string) (db : DB),
      fst (_extract_and_strip_session_data raw) = [] ->
      snd (process_message_step7 env sid raw db) = db)
  /\
  (forall (env : Env) (sid : string) (db : DB) (s : Session),
      get_session db sid = Some s ->
      let db' := update_session_state env sid [] db in
      get_session db' sid =
        Some (mkSession (session_id s) (session_user_id s) (title s)
                (is_active s) (session_created_at s) (utcnow env db)
                (Some (match state s with Some d => d | None => [] end)))
      /\ commits db' = S (commits db)
      /\ memories db' = memories db
      /\ (forall other, other <> sid -> get_session db' other = get_session db other)).
Proof.
  split.
  - intros env sid raw db Hempty. unfold process_message_step7.
    destruct (_extract_and_strip_session_data raw) as [updates stripped].
    simpl in Hempty. subst updates. reflexivity.
  - intros env sid db s Hs db'. subst db'.
    rewrite (update_session_state_found env sid [] db s Hs).
    rewrite dict_update_empty. unfold get_session. simpl.
    repeat split.
    + apply lookup_insert_eq.
    + intros other Hne. apply lookup_insert_ne. congruence.
Qed.

Lemma empty_update_skipped_by_turn_witness :
  snd (process_message_step7 env0 "s1" "Nothing to show." db0) = db0 /\
  commits (update_session_state env0 "s1" [] db0) = S (commits db0).
Proof.
  destruct empty_update_skipped_by_turn as [Hturn Hmerge].
  split.
  - apply Hturn. reflexivity.
  - assert (Hs : get_session db0 "s1" = Some session0) by reflexivity.
    exact (proj1 (proj2 (Hmerge env0 "s1" db0 session0 Hs))).
Defined.

(** ** User memory: upsert by (user, key) *)

Section Upsert.

Variable env : Env.

Lemma same_user_key_touch u k v c now m :
  same_user_key u k (touch v c now m) = same_user_key u k m.
Proof. reflexivity. Qed.

Lemma filter_map_commute {A} (f : A -> bool) (g : A -> A) (l : list A) :
  (forall x, f (g x) = f x) ->
  List.filter f (map g l) = map g (List.filter f l).
Proof.
  intros Hfg. induction l as [|x l IH]; simpl; [reflexivity|].
  rewrite Hfg. destruct (f x); simpl; now rewrite IH.
Qed.

Lemma filter_touch_matching u k v c now (l : list Memory) :
  List.filter (same_user_key u k)
    (map (fun m => if same_user_key u k m then touch v c now m else m) l)
  = map (touch v c now) (List.filter (same_user_key u k) l).
Proof.
  induction l as [|x l IH]; simpl; [reflexivity|].
  destruct (same_user_key u k x) eqn:E; simpl.
  - rewrite same_user_key_touch, E. simpl. now rewrite IH.
  - rewrite E. exact IH.
Qed.

Lemma filter_touch_others u k v c now (l : list Memory) :
  List.filter (fun m => negb (same_user_key u k m))
    (map (fun m => if same_user_key u k m then touch v c now m else m) l)
  = List.filter (fun m => negb (same_user_key u k m)) l.
Proof.
  induction l as [|x l IH]; simpl; [reflexivity|].
  destruct (same_user_key u k x) eqn:E; simpl.
  - rewrite same_user_key_touch, E. simpl. exact IH.
  - rewrite E. simpl. now rewrite IH.
Qed.

Lemma upsert_memory_existing u t k v c db m :
  List.filter (same_user_key u k) (memories db) = [m] ->
  upsert_memory env u t k v c db =
  Ok (touch v c (utcnow env db) m,
      commit (tick (with_memories db
        (map (fun r => if same_user_key u k r then touch v c (utcnow env db) r else r)
             (memories db))))).
Proof. intros H. unfold upsert_memory. rewrite H. reflexivity. Qed.

Lemma upsert_memory_fresh u t k v c db :
  List.filter (same_user_key u k) (memories db) = [] ->
  upsert_memory env u t k v c db =
  let row := mkMemory (uuid4 env (draws db)) u t k v c "conversation"
               (utcnow env db) (utcnow env (tick db)) in
  Ok (row, commit (tick (tick (draw (with_memories db (memories db ++ [row])))))).
Proof. intros H. unfold upsert_memory. rewrite H. reflexivity. Qed.

Lemma same_user_key_refl u k id t v c s a b :
  same_user_key u k (mkMemory id u t k v c s a b) = true.
Proof. unfold same_user_key. simpl. now rewrite !String.eqb_refl. Qed.

(** A series of upserts of one (user, key), each with its own type, value
    and confidence; the first failure ends the series. *)
Fixpoint upsert_series (u k : string) (calls : list (string * string * Q)) (db : DB)
  : result DB :=
  match calls with
  | [] => Ok db
  | (t, v, c) :: calls' =>
      match upsert_memory env u t k v c db with
      | Ok (_, db') => upsert_series u k calls' db'
      | Raise e => Raise e
      end
  end.

Lemma upsert_series_keeps_type u k calls :
  forall db m,
    List.filter (same_user_key u k) (memories db) = [m] ->
    exists db' row,
      upsert_series u k calls db = Ok db'
      /\ List.filter (same_user_key u k) (memories db') = [row]
      /\ memory_type row = memory_type m
      /\ memory_id row = memory_id m.
Proof.
  induction calls as [|[[t v] c] calls IH]; intros db m Hm; simpl.
  - exists db, m. auto.
  - rewrite (upsert_memory_existing u t k v c db m Hm).
    set (db1 := commit _).
    assert (H1 : List.filter (same_user_key u k) (memories db1)
                 = [touch v c (utcnow env db) m]).
    { subst db1. simpl. rewrite filter_touch_matching, Hm. reflexivity. }
    destruct (IH db1 _ H1) as (db' & row & Hrun & Hrow & Hty & Hid).
    exists db', row. simpl in Hty, Hid. auto.
Qed.

End Upsert.

(** C9: an upsert for a (user, key) that already has a record succeeds and
    rewrites value, confidence and update time of that record only; its
    memory type (and identifier, source and creation time) stay, whatever
    type the call names, and all other records are untouched.  Hence the
    record created by a first upsert stays the only one of its (user, key)
    and keeps the type of that first call through any later upserts. *)
Theorem upsert_memory_keeps_first_type :
  (forall (env : Env) (u t k v : string) (c : Q) (db : DB) (m : Memory),
      List.filter (same_user_key u k) (memories db) = [m] ->
      exists db',
        upsert_memory env u t k v c db = Ok (touch v c (utcnow env db) m, db')
        /\ List.filter (same_user_key u k) (memories db')
           = [mkMemory (memory_id m) (user_id m) (memory_type m) (key m) v c
                (source m) (created_at m) (utcnow env db)]
        /\ List.filter (fun r => negb (same_user_key u k r)) (memories db')
           = List.filter (fun r => negb (same_user_key u k r)) (memories db)
        /\ length (memories db') = length (memories db))
  /\
  (forall (env : Env) (u t k v : string) (c : Q) (db : DB)
          (later : list (string * string * Q)),
      List.filter (same_user_key u k) (memories db) = [] ->
      exists db' row,
        upsert_series env u k ((t, v, c) :: later) db = Ok db'
        /\ List.filter (same_user_key u k) (memories db') = [row]
        /\ memory_type row = t).
Proof.
  split.
  - intros env u t k v c db m Hm. eexists. split.
    + apply upsert_memory_existing. exact Hm.
    + simpl. rewrite filter_touch_matching, Hm, filter_touch_others.
      rewrite length_map. auto.
  - intros env u t k v c db later Hnone. simpl.
    rewrite (upsert_memory_fresh env u t k v c db Hnone). cbv zeta.
    set (row0 := mkMemory _ u t k v c _ _ _).
    set (db1 := commit _).
    assert (H1 : List.filter (same_user_key u k) (memories db1) = [row0]).
    { subst db1. simpl. rewrite List.filter_app, Hnone. simpl.
      subst row0. now rewrite same_user_key_refl. }
    destruct (upsert_series_keeps_type env u k later db1 row0 H1)
      as (db' & row & Hrun & Hrow & Hty & _).
    exists db', row. auto.
Qed.

Lemma upsert_memory_keeps_first_type_witness :
  (exists db',
     upsert_memory env0 "u1" "intent" "preferred_view" "table" 1 db0
       = Ok (touch "table" 1 1000 memory1, db')
     /\ List.filter (same_user_key "u1" "preferred_view") (memories db')
        = [mkMemory "m2" "u1" "preference" "preferred_view" "table" 1
             "conversation" 6 1000])
  /\
  (exists db' row,
     upsert_series env0 "u1" "timezone"
       [("personal", "UTC", 1%Q); ("intent", "CET", 1%Q)] db0 = Ok db'
     /\ List.filter (same_user_key "u1" "timezone") (memories db') = [row]
     /\ memory_type row = "personal").
Proof.
  destruct upsert_memory_keeps_first_type as [Hexisting Hfresh].
  split.
  - destruct (Hexisting env0 "u1" "intent" "preferred_view" "table" 1%Q db0 memory1
                eq_refl) as (db' & Hrun & Hrow & _).
    exists db'. split; [exact Hrun | exact Hrow].
  - exact (Hfresh env0 "u1" "personal" "timezone" "UTC" 1%Q db0
             [("intent", "CET", 1%Q)] eq_refl).
Defined.

(** ** Memory write policy *)

Definition is_personal (m : Memory) : bool :=
  String.eqb (memory_type m) MEMORY_TYPE_PERSONAL.

(** Records of type preference or intent. *)
Definition pref_or_intent (m : Memory) : bool :=
  String.eqb (memory_type m) MEMORY_TYPE_PREFERENCE
  || String.eqb (memory_type m) MEMORY_TYPE_INTENT.

Definition personal_keys : list string :=
  [KEY_DISPLAY_NAME; KEY_TIMEZONE; KEY_LANGUAGE].

(** The keys of personal details are used for personal records only; the
    service never writes them with another type. *)
Definition personal_keys_typed (db : DB) : Prop :=
  forall m, In m (memories db) -> In (key m) personal_keys ->
            memory_type m = MEMORY_TYPE_PERSONAL.

Section PolicyFacts.

Variable env : Env.
Variable py_str : json -> string.

Lemma pref_or_intent_not_personal m :
  memory_type m = MEMORY_TYPE_PERSONAL -> pref_or_intent m = false.
Proof. intros H. unfold pref_or_intent. rewrite H. reflexivity. Qed.

Lemma delete_personal_keeps_others u db :
  List.filter pref_or_intent
    (memories (snd (delete_memories_by_type u MEMORY_TYPE_PERSONAL db)))
  = List.filter pref_or_intent (memories db).
Proof.
  unfold delete_memories_by_type. simpl.
  assert (H : forall l,
    List.filter pref_or_intent
      (List.filter (fun m => negb (same_user_type u MEMORY_TYPE_PERSONAL m)) l)
    = List.filter pref_or_intent l).
  { induction l as [|x l IH]; simpl; [reflexivity|].
    destruct (same_user_type u MEMORY_TYPE_PERSONAL x) eqn:E; simpl.
    - unfold same_user_type in E. apply andb_true_iff in E as [_ E].
      apply String.eqb_eq in E.
      rewrite (pref_or_intent_not_personal x E). exact IH.
    - destruct (pref_or_intent x); now rewrite IH. }
  destruct (List.filter (same_user_type u MEMORY_TYPE_PERSONAL) (memories db));
    simpl; apply H.
Qed.

(** What one personal upsert preserves. *)
Definition frame (db db' : DB) : Prop :=
  List.filter pref_or_intent (memories db') = List.filter pref_or_intent (memories db)
  /\ (personal_keys_typed db -> personal_keys_typed db').

Lemma frame_refl db : frame db db.
Proof. split; auto. Qed.

Lemma frame_trans a b c :
  personal_keys_typed a -> frame a b -> frame b c -> frame a c.
Proof.
  intros Ha [H1 I1] [H2 I2]. split; [congruence | auto].
Qed.

Lemma same_user_key_key u k m : same_user_key u k m = true -> key m = k.
Proof.
  unfold same_user_key. intros H. apply andb_true_iff in H as [_ H].
  now apply String.eqb_eq in H.
Qed.

Lemma upsert_personal_frame u k v db :
  In k personal_keys ->
  personal_keys_typed db ->
  frame db (final (upsert env u MEMORY_TYPE_PERSONAL k v db)).
Proof.
  intros Hk Hinv. unfold upsert, upsert_memory.
  destruct (List.filter (same_user_key u k) (memories db)) as [|m [|m' rest]] eqn:Hf;
    simpl.
  - split; simpl.
    + rewrite List.filter_app. simpl. now rewrite app_nil_r.
    + intros _ m Hin Hkey. simpl in Hin. apply in_app_or in Hin as [Hin | [<- | []]].
      * now apply Hinv.
      * reflexivity.
  - assert (Hstep : forall l,
        (forall x, In x l -> In (key x) personal_keys ->
                   memory_type x = MEMORY_TYPE_PERSONAL) ->
        List.filter pref_or_intent
          (map (fun r => if same_user_key u k r
                         then touch v 1 (utcnow env db) r else r) l)
        = List.filter pref_or_intent l).
    { induction l as [|x l IH]; intros Hl; simpl; [reflexivity|].
      rewrite IH by (intros y Hy; apply Hl; now right).
      destruct (same_user_key u k x) eqn:E; [|reflexivity].
      assert (Hx : memory_type x = MEMORY_TYPE_PERSONAL).
      { apply Hl; [now left|]. now rewrite (same_user_key_key u k x E). }
      assert (Ht : pref_or_intent (touch v 1 (utcnow env db) x) = false)
        by (now apply pref_or_intent_not_personal).
      rewrite Ht, (pref_or_intent_not_personal x Hx). reflexivity. }
    split; simpl.
    + apply Hstep. exact Hinv.
    + intros _ x Hin Hkey. simpl in Hin. apply in_map_iff in Hin as (y & <- & Hy).
      destruct (same_user_key u k y); simpl in *; now apply Hinv.
  - apply frame_refl.
Qed.

Lemma and_then_frame (a b : step) db :
  personal_keys_typed db ->
  (forall d, personal_keys_typed d -> frame d (final (a d))) ->
  (forall d, personal_keys_typed d -> frame d (final (b d))) ->
  frame db (final ((a >>> b) db)).
Proof.
  intros Hinv Ha Hb. unfold and_then.
  specialize (Ha db Hinv).
  destruct (a db) as [db1 | e db1]; simpl in *.
  - apply (frame_trans db db1); auto. apply Hb. now apply Ha.
  - exact Ha.
Qed.

Lemma skip_frame db : frame db (final (skip db)).
Proof. apply frame_refl. Qed.

Lemma personal_from_message_frame u msg db :
  personal_keys_typed db ->
  frame db (final (personal_from_message env u msg db)).
Proof.
  intros Hinv. unfold personal_from_message.
  destruct (first_name_match NAME_PATTERNS msg) as [name|]; [|apply skip_frame].
  destruct (_ && _); [|apply skip_frame].
  apply upsert_personal_frame; [|exact Hinv]. simpl. auto.
Qed.

Lemma personal_from_directive_frame u personal k limit db :
  In k personal_keys ->
  personal_keys_typed db ->
  frame db (final (personal_from_directive env py_str u personal k limit db)).
Proof.
  intros Hk Hinv. unfold personal_from_directive.
  destruct (dict_get k personal) as [v|]; [|apply skip_frame].
  destruct (truthy v); [|apply skip_frame].
  now apply upsert_personal_frame.
Qed.

(** The invariant is kept by every turn: no call of the policy writes a
    personal key with another type. *)
Lemma upsert_keeps_typed u t k v db :
  (In k personal_keys -> t = MEMORY_TYPE_PERSONAL) ->
  personal_keys_typed db ->
  personal_keys_typed (final (upsert env u t k v db)).
Proof.
  intros Hk Hinv. unfold upsert, upsert_memory.
  destruct (List.filter (same_user_key u k) (memories db)) as [|m [|m' rest]];
    simpl; [| |exact Hinv].
  - intros x Hin Hkey. simpl in Hin. apply in_app_or in Hin as [Hin | [<- | []]].
    + now apply Hinv.
    + simpl in *. now apply Hk.
  - intros x Hin Hkey. simpl in Hin. apply in_map_iff in Hin as (z & <- & Hz).
    destruct (same_user_key u k z); simpl in *; now apply Hinv.
Qed.

Lemma and_then_keeps_typed (a b : step) :
  (forall d, personal_keys_typed d -> personal_keys_typed (final (a d))) ->
  (forall d, personal_keys_typed d -> personal_keys_typed (final (b d))) ->
  forall d, personal_keys_typed d -> personal_keys_typed (final ((a >>> b) d)).
Proof.
  intros Ha Hb d Hd. unfold and_then. specialize (Ha d Hd).
  destruct (a d) as [d1 | e d1]; simpl in *; auto.
Qed.

Lemma delete_keeps_typed u t db :
  personal_keys_typed db ->
  personal_keys_typed (snd (delete_memories_by_type u t db)).
Proof.
  intros Hinv x Hin Hkey. apply Hinv; [|exact Hkey].
  unfold delete_memories_by_type in Hin. simpl in Hin.
  destruct (List.filter (same_user_type u t) (memories db)); simpl in Hin;
    now apply List.filter_In in Hin.
Qed.

Ltac not_personal_key :=
  let H := fresh in
  intros H; simpl in H;
  repeat (destruct H as [H | H]; [discriminate H|]); destruct H.

Ltac step_keeps_typed Hdb :=
  repeat match goal with
         | |- context [if ?c then _ else _] => destruct c
         | |- context [match ?o with Some _ => _ | None => _ end] => destruct o
         end;
  first [ exact Hdb
        | apply upsert_keeps_typed;
          [first [now intros _ | not_personal_key] | exact Hdb] ].

Lemma extract_and_store_memory_keeps_typed u message personal prefs db :
  personal_keys_typed db ->
  personal_keys_typed
    (final (_extract_and_store_memory env py_str u message personal prefs db)).
Proof.
  unfold _extract_and_store_memory.
  destruct (matches true DONT_REMEMBER_PERSONAL (strip message)).
  { simpl. apply delete_keeps_typed. }
  revert db. repeat apply and_then_keeps_typed; intros db Hdb.
  - unfold personal_from_message. step_keeps_typed Hdb.
  - unfold personal_from_directive. step_keeps_typed Hdb.
  - unfold personal_from_directive. step_keeps_typed Hdb.
  - unfold personal_from_directive. step_keeps_typed Hdb.
  - destruct (_ && _); [exact Hdb|]. revert db Hdb.
    unfold preferences_and_intents.
    repeat apply and_then_keeps_typed; intros db Hdb;
      unfold preference_dimension, upsert_if, collection_interest, price_range;
      step_keeps_typed Hdb.
Qed.

End PolicyFacts.

(** C5: when the message matches the forget-personal pattern, the memory
    step is exactly the deletion of the user's personal records: it ends
    normally, every record left is a record that was there, none of them is
    a personal record of the user, and the directive payloads are not
    looked at. *)
Theorem forget_personal_is_exclusive (env : Env) (py_str : json -> string)
  (u message : string) (personal_from_llm preference_from_llm : option dict) (db : DB) :
  matches true DONT_REMEMBER_PERSONAL (strip message) = true ->
  let db' := snd (delete_memories_by_type u MEMORY_TYPE_PERSONAL db) in
  _extract_and_store_memory env py_str u message personal_from_llm
    preference_from_llm db = Done db'
  /\ memories db' =
     List.filter (fun m => negb (String.eqb (user_id m) u && is_personal m))
       (memories db)
  /\ (forall m, In m (memories db') ->
        In m (memories db)
        /\ ~ (user_id m = u /\ memory_type m = MEMORY_TYPE_PERSONAL)).
Proof.
  intros Hforget db'. unfold _extract_and_store_memory. rewrite Hforget.
  split; [reflexivity|].
  assert (Hmem : memories db' =
     List.filter (fun m => negb (String.eqb (user_id m) u && is_personal m))
       (memories db)).
  { subst db'. unfold delete_memories_by_type. simpl.
    destruct (List.filter _ (memories db)); reflexivity. }
  split; [exact Hmem|].
  intros m Hin. rewrite Hmem in Hin. apply List.filter_In in Hin as [Hin Hkeep].
  split; [exact Hin|]. intros [Hu Ht].
  unfold is_personal in Hkeep. rewrite Hu, Ht, !String.eqb_refl in Hkeep.
  discriminate.
Qed.

Definition py_str_plain (v : json) : string :=
  match v with JStr s => s | _ => "?" end.

Lemma forget_personal_is_exclusive_witness :
  _extract_and_store_memory env0 py_str_plain "u1" "please forget my details"
    (Some [("display_name", JStr "Alex")]) None db0
  = Done (mkDB {[ "s1" := session0 ]} [memory1; memory2] 4 0 0).
Proof.
  exact (proj1 (forget_personal_is_exclusive env0 py_str_plain "u1"
                  "please forget my details"
                  (Some [("display_name", JStr "Alex")]) None db0 eq_refl)).
Defined.

(** C7: when the message does not match the remember pattern and the
    preference directive is empty, the memory step leaves the records of
    type preference and intent exactly as they were: none is created,
    changed or deleted, whether the step ends normally or not. *)
Theorem no_preference_without_consent (env : Env) (py_str : json -> string)
  (u message : string) (personal_from_llm preference_from_llm : option dict) (db : DB) :
  matches true REMEMBER_ASK_PATTERN (strip message) = false ->
  or_empty preference_from_llm = [] ->
  personal_keys_typed db ->
  List.filter pref_or_intent
    (memories (final (_extract_and_store_memory env py_str u message
                        personal_from_llm preference_from_llm db)))
  = List.filter pref_or_intent (memories db).
Proof.
  intros Hask Hprefs Hinv. unfold _extract_and_store_memory.
  destruct (matches true DONT_REMEMBER_PERSONAL (strip message)).
  - simpl. apply delete_personal_keeps_others.
  - rewrite Hask, Hprefs. simpl negb. simpl andb. cbv iota.
    apply and_then_frame; [exact Hinv | |].
    { intros d Hd. now apply personal_from_message_frame. }
    intros d1 Hd1. apply and_then_frame; [exact Hd1 | |].
    { intros d Hd. apply personal_from_directive_frame; simpl; auto. }
    intros d2 Hd2. apply and_then_frame; [exact Hd2 | |].
    { intros d Hd. apply personal_from_directive_frame; simpl; auto. }
    intros d3 Hd3. apply and_then_frame; [exact Hd3 | |].
    { intros d Hd. apply personal_from_directive_frame; simpl; auto. }
    intros d Hd. apply skip_frame.
Qed.

Lemma db0_personal_keys_typed : personal_keys_typed db0.
Proof.
  intros m Hin Hkey. simpl in Hin.
  destruct Hin as [<- | [<- | [<- | []]]]; try reflexivity.
  simpl in Hkey. destruct Hkey as [H | [H | [H | []]]]; discriminate H.
Defined.

Lemma no_preference_without_consent_witness :
  List.filter pref_or_intent
    (memories (final (_extract_and_store_memory env0 py_str_plain "u1"
                        "I like grid view" None None db0)))
  = [memory1].
Proof.
  exact (no_preference_without_consent env0 py_str_plain "u1" "I like grid view"
           None None db0 eq_refl eq_refl db0_personal_keys_typed).
Defined.

(** ** History compaction *)

Import Compaction.

(** The three kinds of data summary. *)
Inductive kind : Type := NftList | CollectionList | Detail.

(** The kind of summary a block asks for: only a component block with a
    grid/table, collection or details template has one. *)
Definition kind_of (b : ContentBlock) : option kind :=
  if String.eqb (type b) "html_component" then
    match template b with
    | Some t =>
        let t := lower t in
        if Compaction.str_in t ["grid"; "table"] then Some NftList
        else if Compaction.str_in t ["collection_grid"; "collection_table"]
        then Some CollectionList
        else if String.eqb t "details" then Some Detail
        else None
    | None => None
    end
  else None.

Definition kind_eqb (a b : kind) : bool :=
  match a, b with
  | NftList, NftList | CollectionList, CollectionList | Detail, Detail => true
  | _, _ => false
  end.

Definition has_kind (K : kind) (b : ContentBlock) : bool :=
  match kind_of b with Some K' => kind_eqb K K' | None => false end.

Definition flag (K : kind) (u : used) : bool :=
  match K with
  | NftList => nft_used u
  | CollectionList => collection_used u
  | Detail => detail_used u
  end.

Definition set_flag (K : kind) (u : used) : used :=
  match K with
  | NftList => mkUsed true (collection_used u) (detail_used u)
  | CollectionList => mkUsed (nft_used u) true (detail_used u)
  | Detail => mkUsed (nft_used u) (collection_used u) true
  end.

Section CompactionFacts.

Variable py_str : json -> string.

(** The summary derived from the turn's session data for one kind. *)
Definition summary_of (state_updates : dict) (K : kind) : result string :=
  match K with
  | NftList => _nft_list_summary py_str state_updates
  | CollectionList => _collection_list_summary py_str state_updates
  | Detail => _detail_summary_text py_str state_updates
  end.

Lemma flag_set_flag K K' u :
  flag K (set_flag K' u) = kind_eqb K K' || flag K u.
Proof. destruct K, K'; reflexivity. Qed.

Lemma storage_loop_component su b bs u K :
  kind_of b = Some K ->
  storage_loop py_str su (b :: bs) u =
  bind (if flag K u then Ok EmptyString else summary_of su K)
    (fun data =>
       bind (storage_loop py_str su bs (set_flag K u))
         (fun out => Ok (mkStored EmptyString data :: out))).
Proof.
  unfold kind_of. intros HK. cbn [storage_loop].
  destruct (String.eqb (type b) "html_component") eqn:Hty; [|discriminate].
  apply String.eqb_eq in Hty.
  destruct (String.eqb (type b) "text") eqn:Htx.
  { apply String.eqb_eq in Htx. rewrite Htx in Hty. discriminate. }
  destruct (template b) as [t|]; [|discriminate].
  assert (Hne : is_empty (str_or_empty (Some t)) = false).
  { destruct t; [|reflexivity]. discriminate HK. }
  rewrite Hne. cbn [negb andb str_or_empty].
  cbv zeta in HK.
  destruct (Compaction.str_in (lower t) ["grid"; "table"]).
  { injection HK as <-. reflexivity. }
  destruct (Compaction.str_in (lower t) ["collection_grid"; "collection_table"]).
  { injection HK as <-. reflexivity. }
  destruct (String.eqb (lower t) "details"); [|discriminate].
  injection HK as <-. reflexivity.
Qed.

Lemma storage_loop_other su b bs u :
  kind_of b = None ->
  exists sb,
    html_tools_data sb = EmptyString /\
    storage_loop py_str su (b :: bs) u =
    bind (storage_loop py_str su bs u) (fun out => Ok (sb :: out)).
Proof.
  unfold kind_of. intros HK. cbn [storage_loop].
  destruct (String.eqb (type b) "text").
  { exists (plain b). split; reflexivity. }
  destruct (String.eqb (type b) "html_component"); cbn [andb].
  2:{ exists (plain b). split; reflexivity. }
  destruct (template b) as [t|]; cbn [str_or_empty].
  2:{ exists (plain b). split; reflexivity. }
  destruct (is_empty t); cbn [negb].
  { exists (plain b). split; reflexivity. }
  cbv zeta in HK.
  destruct (Compaction.str_in (lower t) ["grid"; "table"]); [discriminate|].
  destruct (Compaction.str_in (lower t) ["collection_grid"; "collection_table"]);
    [discriminate|].
  destruct (String.eqb (lower t) "details"); [discriminate|].
  exists (mkStored EmptyString EmptyString). split; reflexivity.
Qed.

Lemma storage_loop_length su blocks :
  forall u out,
    storage_loop py_str su blocks u = Ok out -> length out = length blocks.
Proof.
  induction blocks as [|b bs IH]; intros u out Hrun.
  - simpl in Hrun. injection Hrun as <-. reflexivity.
  - destruct (kind_of b) as [K|] eqn:HK.
    + rewrite (storage_loop_component su b bs u K HK) in Hrun.
      destruct (if flag K u then _ else _) as [data|]; [|discriminate].
      simpl in Hrun.
      destruct (storage_loop py_str su bs (set_flag K u)) as [out'|] eqn:E;
        [|discriminate].
      simpl in Hrun. injection Hrun as <-. simpl. f_equal. eapply IH, E.
    + destruct (storage_loop_other su b bs u HK) as (sb & _ & Heq).
      rewrite Heq in Hrun.
      destruct (storage_loop py_str su bs u) as [out'|] eqn:E; [|discriminate].
      simpl in Hrun. injection Hrun as <-. simpl. f_equal. eapply IH, E.
Qed.

Lemma storage_loop_at su pre :
  forall u out b post K,
    storage_loop py_str su (pre ++ b :: post) u = Ok out ->
    kind_of b = Some K ->
    exists sb,
      nth_error out (length pre) = Some sb
      /\ stored_markdown sb = EmptyString
      /\ (if flag K u || existsb (has_kind K) pre
          then html_tools_data sb = EmptyString
          else summary_of su K = Ok (html_tools_data sb)).
Proof.
  induction pre as [|b0 pre IH]; intros u out b post K Hrun HK.
  - change (storage_loop py_str su (b :: post) u = Ok out) in Hrun.
    rewrite (storage_loop_component su b post u K HK) in Hrun.
    simpl existsb. rewrite orb_false_r.
    destruct (flag K u).
    + simpl in Hrun.
      destruct (storage_loop py_str su post (set_flag K u)); [|discriminate].
      simpl in Hrun. injection Hrun as <-. eexists. simpl. eauto.
    + destruct (summary_of su K) as [data|]; [|discriminate]. simpl in Hrun.
      destruct (storage_loop py_str su post (set_flag K u)); [|discriminate].
      simpl in Hrun. injection Hrun as <-. eexists. simpl. eauto.
  - change (storage_loop py_str su (b0 :: (pre ++ b :: post)) u = Ok out) in Hrun.
    destruct (kind_of b0) as [K0|] eqn:HK0.
    + rewrite (storage_loop_component su b0 _ u K0 HK0) in Hrun.
      destruct (if flag K0 u then _ else _) as [data|]; [|discriminate].
      simpl in Hrun.
      destruct (storage_loop py_str su (pre ++ b :: post) (set_flag K0 u))
        as [out'|] eqn:E; [|discriminate].
      simpl in Hrun. injection Hrun as <-.
      destruct (IH _ _ _ _ _ E HK) as (sb & Hnth & Hmd & Hdata).
      exists sb. split; [exact Hnth|]. split; [exact Hmd|].
      rewrite flag_set_flag in Hdata. simpl existsb.
      unfold has_kind at 1. rewrite HK0.
      replace (flag K u || (kind_eqb K K0 || existsb (has_kind K) pre))
        with (kind_eqb K K0 || flag K u || existsb (has_kind K) pre)
        by (destruct (kind_eqb K K0), (flag K u); reflexivity).
      exact Hdata.
    + destruct (storage_loop_other su b0 (pre ++ b :: post) u HK0) as (sb0 & _ & Heq).
      rewrite Heq in Hrun.
      destruct (storage_loop py_str su (pre ++ b :: post) u) as [out'|] eqn:E;
        [|discriminate].
      simpl in Hrun. injection Hrun as <-.
      destruct (IH _ _ _ _ _ E HK) as (sb & Hnth & Hmd & Hdata).
      exists sb. split; [exact Hnth|]. split; [exact Hmd|].
      simpl existsb. unfold has_kind at 1. rewrite HK0. simpl. exact Hdata.
Qed.

Lemma storage_loop_total su blocks :
  forall u,
    (forall K, existsb (has_kind K) blocks = true ->
               exists s, summary_of su K = Ok s) ->
    exists out, storage_loop py_str su blocks u = Ok out.
Proof.
  induction blocks as [|b bs IH]; intros u Hsum.
  - exists []. reflexivity.
  - assert (Hrest : forall K, existsb (has_kind K) bs = true ->
                              exists s, summary_of su K = Ok s).
    { intros K HK. apply Hsum. simpl. rewrite HK. apply orb_true_r. }
    destruct (kind_of b) as [K|] eqn:HK.
    + rewrite (storage_loop_component su b bs u K HK).
      destruct (Hsum K) as [s Hs].
      { simpl. unfold has_kind at 1. rewrite HK. destruct K; reflexivity. }
      destruct (IH (set_flag K u) Hrest) as [out Hout].
      rewrite Hs, Hout. destruct (flag K u); simpl; eauto.
    + destruct (storage_loop_other su b bs u HK) as (sb & _ & Heq).
      destruct (IH u Hrest) as [out Hout].
      rewrite Heq, Hout. simpl. eauto.
Qed.

End CompactionFacts.

(** C8: in the stored record of a turn, the component block at any position
    carries the summary derived for its kind when no earlier block of the
    turn has that kind, and the empty summary when one has; the record has
    one entry per block, and it is produced whenever the summaries of the
    kinds that occur can be derived. *)
Theorem summary_used_once_per_kind (py_str : json -> string)
  (state_updates : dict) (blocks : list ContentBlock) :
  (forall out,
      out_blocks py_str blocks state_updates = Ok out ->
      length out = length blocks
      /\ forall (pre : list ContentBlock) (b : ContentBlock)
                (post : list ContentBlock) (K : kind),
           blocks = (pre ++ b :: post)%list ->
           kind_of b = Some K ->
           exists sb,
             nth_error out (length pre) = Some sb
             /\ stored_markdown sb = EmptyString
             /\ (if existsb (has_kind K) pre
                 then html_tools_data sb = EmptyString
                 else summary_of py_str state_updates K = Ok (html_tools_data sb)))
  /\
  ((forall K, existsb (has_kind K) blocks = true ->
              exists s, summary_of py_str state_updates K = Ok s) ->
   exists out, out_blocks py_str blocks state_updates = Ok out).
Proof.
  split.
  - intros out Hrun. split.
    + eapply storage_loop_length, Hrun.
    + intros pre b post K -> HK.
      destruct (storage_loop_at py_str state_updates pre _ out b post K Hrun HK)
        as (sb & Hnth & Hmd & Hdata).
      exists sb. split; [exact Hnth|]. split; [exact Hmd|].
      destruct K; exact Hdata.
  - intros Hsum. now apply storage_loop_total.
Qed.

Definition sample_blocks : list ContentBlock :=
  [ mkBlock "text" (Some "Here are your NFTs:") None None;
    mkBlock "html_component" None (Some "<div>1</div>") (Some "grid");
    mkBlock "html_component" None (Some "<div>2</div>") (Some "Details");
    mkBlock "html_component" None (Some "<div>3</div>") (Some "TABLE") ].

Definition sample_updates : dict :=
  [ ("nft_list", JArr [JObj [("id", JStr "nft-1"); ("name", JStr "Foo")]]);
    ("last_detail_id", JStr "nft-1") ].

Lemma summary_used_once_per_kind_witness :
  exists out,
    out_blocks py_str_plain sample_blocks sample_updates = Ok out
    /\ map html_tools_data out =
       [ "";
         "nft-1 Foo () price_eth=? last_sale_eth=? owner= status=? rarity_rank=?";
         "[details for nft-1]";
         "" ].
Proof.
  destruct (summary_used_once_per_kind py_str_plain sample_updates sample_blocks)
    as [_ Htotal].
  destruct Htotal as [out Hout].
  - intros K _. destruct K; eexists; reflexivity.
  - exists out. split; [exact Hout|].
    assert (Hval : out_blocks py_str_plain sample_blocks sample_updates
                   = Ok [ mkStored "Here are your NFTs:" "";
                          mkStored "" "nft-1 Foo () price_eth=? last_sale_eth=? owner= status=? rarity_rank=?";
                          mkStored "" "[details for nft-1]";
                          mkStored "" "" ]) by reflexivity.
    rewrite Hval in Hout. injection Hout as <-. reflexivity.
Defined.

(** ** Facts about literal matching and searching *)

Section TextFacts.

Lemma sapp_cons (c : ascii) (a b : string) :
  String c a +:+ b = String c (a +:+ b).
Proof. reflexivity. Qed.

Lemma sapp_nil_l (s : string) : EmptyString +:+ s = s.
Proof. reflexivity. Qed.

Lemma sapp_nil_r (s : string) : s +:+ EmptyString = s.
Proof.
  induction s as [|c s IH]; [reflexivity | now rewrite sapp_cons, IH].
Qed.

Lemma sapp_assoc (a b c : string) : (a +:+ b) +:+ c = a +:+ (b +:+ c).
Proof.
  induction a as [|x a IH]; [reflexivity | now rewrite !sapp_cons, IH].
Qed.

Lemma slength_app (a b : string) :
  String.length (a +:+ b) = String.length a + String.length b.
Proof.
  induction a as [|x a IH]; [reflexivity | rewrite sapp_cons; simpl; now rewrite IH].
Qed.

Lemma match_lit_app ci pat : forall s r t,
  match_lit ci pat s = Some r -> match_lit ci pat (s +:+ t) = Some (r +:+ t).
Proof.
  induction pat as [|p pat IH]; intros s r t H; simpl in *.
  - injection H as <-. reflexivity.
  - destruct s as [|c s]; [discriminate|]. rewrite sapp_cons.
    destruct (char_eq ci p c); [now apply IH | discriminate].
Qed.

Lemma match_lit_split ci pat : forall s r,
  match_lit ci pat s = Some r ->
  exists o, s = o +:+ r /\ match_lit ci pat o = Some EmptyString
            /\ String.length o = String.length pat.
Proof.
  induction pat as [|p pat IH]; intros s r H; simpl in *.
  - injection H as <-. exists EmptyString. auto.
  - destruct s as [|c s]; [discriminate|].
    destruct (char_eq ci p c) eqn:E; [|discriminate].
    destruct (IH s r H) as (o & -> & Ho & Hlen).
    exists (String c o). rewrite sapp_cons. simpl. rewrite E, Hlen. auto.
Qed.

Lemma match_lit_length ci pat s r :
  match_lit ci pat s = Some r ->
  String.length s = String.length pat + String.length r.
Proof.
  intros H. destruct (match_lit_split ci pat s r H) as (o & -> & _ & Hlen).
  now rewrite slength_app, Hlen.
Qed.

Lemma find_lit_split ci pat : forall s b a,
  find_lit ci pat s = Some (b, a) ->
  exists m, s = b +:+ m /\ match_lit ci pat m = Some a.
Proof.
  induction s as [|c s IH]; intros b a H; simpl in H.
  - destruct (match_lit ci pat EmptyString) as [r|] eqn:E; [|discriminate].
    injection H as <- <-. exists EmptyString. auto.
  - destruct (match_lit ci pat (String c s)) as [r|] eqn:E.
    + injection H as <- <-. exists (String c s). auto.
    + destruct (find_lit ci pat s) as [[b' a']|] eqn:F; [|discriminate].
      injection H as <- <-. destruct (IH b' a' eq_refl) as (m & -> & Hm).
      exists m. auto.
Qed.

Lemma find_lit_length ci pat s b a :
  find_lit ci pat s = Some (b, a) ->
  String.length s = String.length b + String.length pat + String.length a.
Proof.
  intros H. destruct (find_lit_split ci pat s b a H) as (m & -> & Hm).
  rewrite slength_app, (match_lit_length ci pat m a Hm). lia.
Qed.

Lemma find_lit_none_match ci pat s :
  find_lit ci pat s = None -> match_lit ci pat s = None.
Proof.
  destruct s; simpl; destruct (match_lit ci pat _); congruence.
Qed.

Lemma find_lit_none_tail ci pat c s :
  find_lit ci pat (String c s) = None -> find_lit ci pat s = None.
Proof.
  simpl. destruct (match_lit ci pat (String c s)); [discriminate|].
  destruct (find_lit ci pat s) as [[b a]|]; [discriminate | reflexivity].
Qed.

Lemma find_lit_none_cons ci pat c s :
  match_lit ci pat (String c s) = None ->
  find_lit ci pat s = None ->
  find_lit ci pat (String c s) = None.
Proof. intros H1 H2. simpl. now rewrite H1, H2. Qed.

Lemma find_lit_none_suffix ci pat a : forall b,
  find_lit ci pat (a +:+ b) = None -> find_lit ci pat b = None.
Proof.
  induction a as [|c a IH]; intros b H; [exact H|].
  apply IH. exact (find_lit_none_tail ci pat c _ H).
Qed.

Lemma find_lit_none_prefix ci pat : forall a b,
  find_lit ci pat (a +:+ b) = None -> find_lit ci pat a = None.
Proof.
  induction a as [|c a IH]; intros b H.
  - simpl in *. destruct (match_lit ci pat EmptyString) as [r|] eqn:E;
      [|reflexivity].
    apply find_lit_none_match in H.
    rewrite (match_lit_app ci pat EmptyString r b E) in H. discriminate.
  - apply find_lit_none_cons.
    + destruct (match_lit ci pat (String c a)) as [r|] eqn:E; [|reflexivity].
      apply find_lit_none_match in H.
      rewrite (match_lit_app ci pat (String c a) r b E) in H. discriminate.
    + apply (IH b). exact (find_lit_none_tail ci pat c _ H).
Qed.

Lemma match_lit_empty_subject ci pat :
  pat <> EmptyString -> match_lit ci pat EmptyString = None.
Proof. destruct pat; [congruence | reflexivity]. Qed.

Lemma find_lit_empty_subject ci pat :
  pat <> EmptyString -> find_lit ci pat EmptyString = None.
Proof. intros H. simpl. now rewrite (match_lit_empty_subject ci pat H). Qed.

(** The text before the leftmost occurrence holds no occurrence. *)
Lemma find_lit_before ci pat : pat <> EmptyString -> forall s b a,
  find_lit ci pat s = Some (b, a) -> find_lit ci pat b = None.
Proof.
  intros Hpat. induction s as [|c s IH]; intros b a H.
  - destruct (find_lit_split ci pat _ b a H) as (m & Hs & _).
    destruct b; [|discriminate]. now apply find_lit_empty_subject.
  - simpl in H. destruct (match_lit ci pat (String c s)) as [r|] eqn:E.
    + injection H as <- <-. now apply find_lit_empty_subject.
    + destruct (find_lit ci pat s) as [[b' a']|] eqn:F; [|discriminate].
      injection H as <- <-.
      destruct (find_lit_split ci pat s b' a' F) as (m & Hs & _).
      apply find_lit_none_cons; [|exact (IH b' a' eq_refl)].
      destruct (match_lit ci pat (String c b')) as [r|] eqn:E'; [|reflexivity].
      rewrite Hs in E.
      rewrite <- sapp_cons in E.
      rewrite (match_lit_app ci pat _ r m E') in E. discriminate.
Qed.

End TextFacts.

(** ** Facts about whitespace stripping and lines *)

Section StripFacts.

Fixpoint all_space (s : string) : bool :=
  match s with
  | EmptyString => true
  | String c s' => isspace c && all_space s'
  end.

Fixpoint no_newline (s : string) : bool :=
  match s with
  | EmptyString => true
  | String c s' => negb (Ascii.eqb c newline) && no_newline s'
  end.

Lemma rstrip_cons c s :
  rstrip (String c s) =
  if is_empty (rstrip s) && isspace c then EmptyString else String c (rstrip s).
Proof. simpl. destruct (rstrip s); simpl; [destruct (isspace c)|]; reflexivity. Qed.

Lemma lstrip_suffix s : exists w, s = w +:+ lstrip s.
Proof.
  induction s as [|c s [w IH]]; [now exists EmptyString|]. simpl.
  destruct (isspace c).
  - exists (String c w). now rewrite sapp_cons, <- IH.
  - now exists EmptyString.
Qed.

Lemma rstrip_prefix s : exists w, s = rstrip s +:+ w.
Proof.
  induction s as [|c s [w IH]]; [now exists EmptyString|].
  rewrite rstrip_cons. destruct (is_empty (rstrip s) && isspace c) eqn:E.
  - now exists (String c s).
  - exists w. now rewrite sapp_cons, <- IH.
Qed.

Lemma lstrip_head s :
  lstrip s = EmptyString \/
  exists c t, lstrip s = String c t /\ isspace c = false.
Proof.
  induction s as [|c s IH]; [now left|]. simpl.
  destruct (isspace c) eqn:E; [exact IH|]. right. now exists c, s.
Qed.

Lemma rstrip_idem s : rstrip (rstrip s) = rstrip s.
Proof.
  induction s as [|c s IH]; [reflexivity|].
  rewrite rstrip_cons. destruct (is_empty (rstrip s) && isspace c) eqn:E;
    [reflexivity|].
  rewrite rstrip_cons, IH, E. reflexivity.
Qed.

Lemma strip_idem s : strip (strip s) = strip s.
Proof.
  unfold strip. destruct (lstrip_head s) as [-> | (c & t & -> & Hc)];
    [reflexivity|].
  assert (H : rstrip (String c t) = String c (rstrip t)).
  { rewrite rstrip_cons. now rewrite Hc, andb_false_r. }
  rewrite H. simpl lstrip. rewrite Hc, <- H. apply rstrip_idem.
Qed.

Lemma find_lit_none_strip ci pat s :
  find_lit ci pat s = None -> find_lit ci pat (strip s) = None.
Proof.
  intros H. unfold strip.
  destruct (lstrip_suffix s) as [w Hw]. rewrite Hw in H.
  apply find_lit_none_suffix in H.
  destruct (rstrip_prefix (lstrip s)) as [w' Hw']. rewrite Hw' in H.
  now apply find_lit_none_prefix in H.
Qed.

Lemma all_space_rstrip s : all_space s = true -> rstrip s = EmptyString.
Proof.
  induction s as [|c s IH]; [reflexivity|]. simpl. intros H.
  apply andb_true_iff in H as [Hc Hs]. now rewrite (IH Hs), Hc.
Qed.

Lemma all_space_lstrip s : all_space s = true -> lstrip s = EmptyString.
Proof.
  induction s as [|c s IH]; [reflexivity|]. simpl. intros H.
  apply andb_true_iff in H as [Hc Hs]. now rewrite Hc, (IH Hs).
Qed.

Lemma rstrip_app_space w : all_space w = true -> forall x,
  rstrip (x +:+ w) = rstrip x.
Proof.
  intros Hw. induction x as [|c x IH].
  - rewrite sapp_nil_l. now apply all_space_rstrip.
  - rewrite sapp_cons, !rstrip_cons, IH. reflexivity.
Qed.

Lemma lstrip_app_space w : all_space w = true -> forall x,
  lstrip (x +:+ w) = if all_space x then EmptyString else lstrip x +:+ w.
Proof.
  intros Hw. induction x as [|c x IH].
  - rewrite sapp_nil_l. now apply all_space_lstrip.
  - rewrite sapp_cons. simpl. destruct (isspace c); [exact IH | reflexivity].
Qed.

(** Trailing whitespace of a line does not change what [strip] makes of it. *)
Lemma strip_app_space x w : all_space w = true -> strip (x +:+ w) = strip x.
Proof.
  intros Hw. unfold strip. rewrite (lstrip_app_space w Hw).
  destruct (all_space x) eqn:E.
  - now rewrite (all_space_lstrip x E).
  - now apply rstrip_app_space.
Qed.

Lemma strip_cons_space c x : isspace c = true -> strip (String c x) = strip x.
Proof. intros H. unfold strip. simpl. now rewrite H. Qed.

Lemma split_lines_cons_shape s : exists l ls, split_lines s = l :: ls.
Proof.
  induction s as [|c s (l & ls & IH)]; [now exists EmptyString, []|].
  simpl. destruct (Ascii.eqb c newline); [eauto|]. rewrite IH. eauto.
Qed.

Lemma split_lines_cons c s :
  split_lines (String c s) =
  if Ascii.eqb c newline then EmptyString :: split_lines s
  else match split_lines s with
       | l :: ls => String c l :: ls
       | [] => [String c EmptyString]
       end.
Proof. reflexivity. Qed.

Lemma split_lines_head_prefix s l ls :
  split_lines s = l :: ls -> exists r, s = l +:+ r.
Proof.
  revert l ls. induction s as [|c s IH]; intros l ls H.
  - injection H as <- <-. now exists EmptyString.
  - rewrite split_lines_cons in H. destruct (Ascii.eqb c newline).
    + injection H as <- <-. now exists (String c s).
    + destruct (split_lines s) as [|l0 ls0] eqn:E.
      * injection H as <- <-. destruct (split_lines_cons_shape s) as (? & ? & E').
        rewrite E' in E. discriminate.
      * injection H as <- <-. destruct (IH l0 ls0 eq_refl) as [r ->].
        now exists r.
Qed.

Lemma join_split s : join_lines (split_lines s) = s.
Proof.
  induction s as [|c s IH]; [reflexivity|].
  rewrite split_lines_cons.
  destruct (split_lines_cons_shape s) as (l & ls & E). rewrite E in *.
  destruct (Ascii.eqb c newline) eqn:Hc.
  - apply Ascii.eqb_eq in Hc. subst c.
    change (join_lines (EmptyString :: l :: ls))
      with (EmptyString +:+ String newline (join_lines (l :: ls))).
    now rewrite IH.
  - destruct ls as [|l2 ls]; simpl in *; [now rewrite IH|].
    rewrite sapp_cons. now rewrite IH.
Qed.

Lemma split_lines_no_newline s : Forall (fun l => no_newline l = true) (split_lines s).
Proof.
  induction s as [|c s IH]; [repeat constructor|].
  rewrite split_lines_cons. destruct (Ascii.eqb c newline) eqn:Hc.
  - constructor; [reflexivity | exact IH].
  - destruct (split_lines s) as [|l ls]; [repeat constructor; simpl; now rewrite Hc|].
    inversion IH as [|? ? Hl Hls]; subst. constructor; [|exact Hls].
    simpl. now rewrite Hc, Hl.
Qed.

Lemma split_lines_single l : no_newline l = true -> split_lines l = [l].
Proof.
  induction l as [|c l IH]; [reflexivity|]. simpl. intros H.
  apply andb_true_iff in H as [Hc Hl]. apply negb_true_iff in Hc.
  now rewrite Hc, (IH Hl).
Qed.

Lemma split_lines_app_newline l x :
  no_newline l = true ->
  split_lines (l +:+ String newline x) = l :: split_lines x.
Proof.
  induction l as [|c l IH]; intros H.
  - rewrite sapp_nil_l, split_lines_cons. reflexivity.
  - simpl in H. apply andb_true_iff in H as [Hc Hl]. apply negb_true_iff in Hc.
    rewrite sapp_cons, split_lines_cons, Hc, (IH Hl). reflexivity.
Qed.

Lemma split_join (ls : list string) :
  ls <> [] -> Forall (fun l => no_newline l = true) ls ->
  split_lines (join_lines ls) = ls.
Proof.
  induction ls as [|l ls IH]; intros Hne Hall; [congruence|].
  inversion Hall as [|? ? Hl Hls]; subst.
  destruct ls as [|l2 ls].
  - simpl. now apply split_lines_single.
  - change (join_lines (l :: l2 :: ls))
      with (l +:+ String newline (join_lines (l2 :: ls))).
    rewrite (split_lines_app_newline l _ Hl), IH; [reflexivity | congruence | exact Hls].
Qed.

End StripFacts.

(** ** Lines that survive the sanitizer's filter *)

Section LineFacts.

Lemma keep_line_cons_space c l :
  isspace c = true -> keep_line (String c l) = keep_line l.
Proof. intros H. unfold keep_line. now rewrite strip_cons_space. Qed.

Lemma keep_line_app_space l w :
  all_space w = true -> keep_line (l +:+ w) = keep_line l.
Proof. intros H. unfold keep_line. now rewrite strip_app_space. Qed.

Lemma keep_line_empty : keep_line EmptyString = true.
Proof. reflexivity. Qed.

Lemma newline_isspace c : Ascii.eqb c newline = true -> isspace c = true.
Proof. intros H. apply Ascii.eqb_eq in H. now subst c. Qed.

(** Lines of a left-stripped text. *)
Lemma lstrip_lines_kept s :
  Forall (fun l => keep_line l = true) (split_lines s) ->
  Forall (fun l => keep_line l = true) (split_lines (lstrip s)).
Proof.
  induction s as [|c s IH]; intros H; [exact H|]. simpl lstrip.
  destruct (isspace c) eqn:Hc; [|exact H].
  apply IH. rewrite split_lines_cons in H.
  destruct (Ascii.eqb c newline).
  - now inversion H.
  - destruct (split_lines_cons_shape s) as (l & ls & E). rewrite E in *.
    inversion H as [|? ? Hl Hls]; subst. constructor; [|exact Hls].
    now rewrite <- (keep_line_cons_space c l Hc).
Qed.

(** Lines of a right-stripped text against the lines of the text: the same
    lines up to the last one, which has lost trailing whitespace; the lines
    after it are dropped. *)
Lemma rstrip_lines s :
  exists (front : list string) (lk w : string) (dropped : list string),
    split_lines (rstrip s) = (front ++ [lk])%list
    /\ split_lines s = (front ++ (lk +:+ w) :: dropped)%list
    /\ all_space w = true.
Proof.
  induction s as [|c s (front & lk & w & dropped & Hr & Hs & Hw)].
  - exists [], EmptyString, EmptyString, []. auto.
  - rewrite rstrip_cons. destruct (is_empty (rstrip s) && isspace c) eqn:E.
    + apply andb_true_iff in E as [Hempty Hc].
      destruct (rstrip s); [|discriminate]. simpl in Hr.
      destruct front as [|x front]; [|destruct front; discriminate].
      injection Hr as <-. rewrite sapp_nil_l in Hs.
      rewrite split_lines_cons, Hs. simpl.
      destruct (Ascii.eqb c newline).
      * exists [], EmptyString, EmptyString, (w :: dropped). auto.
      * exists [], EmptyString, (String c w), dropped.
        repeat split; simpl; now rewrite ?Hc, ?Hw.
    + rewrite !split_lines_cons, Hr, Hs.
      destruct (Ascii.eqb c newline).
      * exists (EmptyString :: front), lk, w, dropped. auto.
      * destruct front as [|x front]; simpl.
        -- exists [], (String c lk), w, dropped. auto.
        -- exists (String c x :: front), lk, w, dropped. auto.
Qed.

Lemma rstrip_lines_kept s :
  Forall (fun l => keep_line l = true) (split_lines s) ->
  Forall (fun l => keep_line l = true) (split_lines (rstrip s)).
Proof.
  destruct (rstrip_lines s) as (front & lk & w & dropped & Hr & Hs & Hw).
  rewrite Hr, Hs. intros H.
  apply Forall_app in H as [Hfront Hrest].
  inversion Hrest as [|? ? Hlk _]; subst.
  apply Forall_app. split; [exact Hfront|].
  constructor; [|constructor]. now rewrite <- (keep_line_app_space lk w Hw).
Qed.

Lemma strip_lines_kept s :
  Forall (fun l => keep_line l = true) (split_lines s) ->
  Forall (fun l => keep_line l = true) (split_lines (strip s)).
Proof. intros H. unfold strip. now apply rstrip_lines_kept, lstrip_lines_kept. Qed.

Lemma filter_all_kept {A} (f : A -> bool) (l : list A) :
  Forall (fun x => f x = true) l -> List.filter f l = l.
Proof.
  induction 1 as [|x l Hx _ IH]; [reflexivity|]. simpl. now rewrite Hx, IH.
Qed.

Lemma filter_Forall {A} (f : A -> bool) (l : list A) :
  Forall (fun x => f x = true) (List.filter f l).
Proof.
  induction l as [|x l IH]; simpl; [constructor|].
  destruct (f x) eqn:E; [constructor|]; assumption.
Qed.

Lemma filter_keeps_Forall {A} (P : A -> Prop) (f : A -> bool) (l : list A) :
  Forall P l -> Forall P (List.filter f l).
Proof.
  induction 1 as [|x l Hx _ IH]; simpl; [constructor|].
  destruct (f x); [constructor|]; assumption.
Qed.

(** The lines of what the filter, the join and the final strip produce are
    all lines the filter would keep again. *)
Lemma filtered_lines_kept t :
  Forall (fun l => keep_line l = true)
    (split_lines (strip (join_lines (List.filter keep_line (split_lines t))))).
Proof.
  apply strip_lines_kept.
  destruct (List.filter keep_line (split_lines t)) as [|l ls] eqn:E.
  - simpl. constructor; [reflexivity | constructor].
  - rewrite split_join.
    + rewrite <- E. apply filter_Forall.
    + discriminate.
    + rewrite <- E. apply filter_keeps_Forall, split_lines_no_newline.
Qed.

End LineFacts.

(** ** Occurrences of a literal through lines *)

Section OccurrenceFacts.

Variable ci : bool.
Variable pat : string.

(** No character of the pattern matches a newline. *)
Fixpoint avoids_newline (p : string) : bool :=
  match p with
  | EmptyString => true
  | String c p' => negb (char_eq ci c newline) && avoids_newline p'
  end.

Lemma match_lit_across_newline : forall p a x r,
  avoids_newline p = true ->
  match_lit ci p (a +:+ String newline x) = Some r ->
  exists r', match_lit ci p a = Some r'.
Proof.
  induction p as [|c p IH]; intros a x r Hp H; [simpl; eauto|].
  simpl in Hp. apply andb_true_iff in Hp as [Hc Hp]. apply negb_true_iff in Hc.
  destruct a as [|d a].
  - rewrite sapp_nil_l in H. simpl in H. rewrite Hc in H. discriminate.
  - rewrite sapp_cons in H. simpl in *.
    destruct (char_eq ci c d); [|discriminate]. eapply IH; eauto.
Qed.

Hypothesis pat_nonempty : pat <> EmptyString.
Hypothesis pat_one_line : avoids_newline pat = true.

Lemma find_lit_none_lines s :
  find_lit ci pat s = None ->
  Forall (fun l => find_lit ci pat l = None) (split_lines s).
Proof.
  induction s as [|c s IH]; intros H; [repeat constructor; exact H|].
  pose proof (IH (find_lit_none_tail ci pat c s H)) as IH'.
  rewrite split_lines_cons. destruct (Ascii.eqb c newline).
  - constructor; [now apply find_lit_empty_subject | exact IH'].
  - destruct (split_lines s) as [|l ls] eqn:E.
    + destruct (split_lines_cons_shape s) as (? & ? & E'). congruence.
    + inversion IH' as [|? ? _ Hls]; subst. constructor; [|exact Hls].
      destruct (split_lines_head_prefix s l ls E) as [r ->].
      rewrite <- sapp_cons in H. now apply find_lit_none_prefix in H.
Qed.

Lemma find_lit_none_app_newline a x :
  find_lit ci pat a = None -> find_lit ci pat x = None ->
  find_lit ci pat (a +:+ String newline x) = None.
Proof.
  induction a as [|c a IH]; intros Ha Hx.
  - rewrite sapp_nil_l. apply find_lit_none_cons; [|exact Hx].
    destruct pat as [|p pat']; [congruence|]. simpl in *.
    apply andb_true_iff in pat_one_line as [Hp _]. apply negb_true_iff in Hp.
    now rewrite Hp.
  - rewrite sapp_cons. apply find_lit_none_cons.
    + destruct (match_lit ci pat (String c (a +:+ String newline x))) as [r|] eqn:E;
        [|reflexivity].
      rewrite <- sapp_cons in E.
      destruct (match_lit_across_newline pat _ _ _ pat_one_line E) as [r' Hr'].
      apply find_lit_none_match in Ha. congruence.
    + apply IH; [|exact Hx]. exact (find_lit_none_tail ci pat c a Ha).
Qed.

Lemma find_lit_none_join (ls : list string) :
  Forall (fun l => find_lit ci pat l = None) ls ->
  find_lit ci pat (join_lines ls) = None.
Proof.
  induction 1 as [|l ls Hl Hls IH]; [now apply find_lit_empty_subject|].
  destruct ls as [|l2 ls]; [exact Hl|].
  change (join_lines (l :: l2 :: ls))
    with (l +:+ String newline (join_lines (l2 :: ls))).
  now apply find_lit_none_app_newline.
Qed.

(** The filter, the join and the final strip of the sanitizer create no
    occurrence. *)
Lemma find_lit_none_filtered t :
  find_lit ci pat t = None ->
  find_lit ci pat
    (strip (join_lines (List.filter keep_line (split_lines t)))) = None.
Proof.
  intros H. apply find_lit_none_strip, find_lit_none_join.
  now apply filter_keeps_Forall, find_lit_none_lines.
Qed.

End OccurrenceFacts.

(** ** Facts about the block pattern and the orphan cut *)

Section MarkerFacts.

Lemma open_tag_nonempty tag : open_tag tag <> EmptyString.
Proof. discriminate. Qed.

Lemma match_block_length ci tag s body rest :
  match_block ci tag s = Some (body, rest) ->
  String.length rest < String.length s.
Proof.
  unfold match_block. intros H.
  destruct (match_lit ci (open_tag tag) s) as [r|] eqn:E; [|discriminate].
  apply match_lit_length in E. apply find_lit_length in H.
  unfold open_tag in E. simpl in E. lia.
Qed.

Lemma search_block_lengths ci tag : forall s pre body rest,
  search_block ci tag s = Some (pre, body, rest) ->
  String.length pre + String.length rest < String.length s.
Proof.
  induction s as [|c s IH]; intros pre body rest H; simpl in H.
  - destruct (match_block ci tag EmptyString) as [[b r]|] eqn:E; [|discriminate].
    apply match_block_length in E. simpl in E. lia.
  - destruct (match_block ci tag (String c s)) as [[b r]|] eqn:E.
    + injection H as <- <- <-. now apply match_block_length in E.
    + destruct (search_block ci tag s) as [[[p b] r]|] eqn:F; [|discriminate].
      injection H as <- <- <-. specialize (IH p b r eq_refl). simpl. lia.
Qed.

Lemma search_block_length ci tag s pre body rest :
  search_block ci tag s = Some (pre, body, rest) ->
  String.length rest < String.length s.
Proof. intros H. apply search_block_lengths in H. lia. Qed.

(** Without an open tag there is no block. *)
Lemma search_block_none ci tag : forall s,
  find_lit ci (open_tag tag) s = None -> search_block ci tag s = None.
Proof.
  induction s as [|c s IH]; intros H; [reflexivity|].
  cbn [search_block]. unfold match_block.
  rewrite (find_lit_none_match _ _ _ H).
  now rewrite (IH (find_lit_none_tail _ _ _ _ H)).
Qed.

(** The fuel given to the one-pass substitution is enough: the function
    satisfies the equation of the unbounded recursion. *)
Lemma sub_fuel_enough ci tag : forall n m s,
  String.length s <= n -> String.length s <= m ->
  sub_fuel n ci tag s = sub_fuel m ci tag s.
Proof.
  assert (Hempty : forall k, sub_fuel k ci tag EmptyString = EmptyString).
  { intros [|k]; reflexivity. }
  induction n as [|n IH]; intros m s Hn Hm.
  - destruct s; [|simpl in Hn; lia]. now rewrite !Hempty.
  - destruct m as [|m].
    + destruct s; [|simpl in Hm; lia]. now rewrite !Hempty.
    + simpl. destruct (search_block ci tag s) as [[[pre body] rest]|] eqn:E;
        [|reflexivity].
      apply search_block_length in E. f_equal. apply IH; lia.
Qed.

Lemma sub_blocks_eq ci tag s :
  sub_blocks ci tag s =
  match search_block ci tag s with
  | Some (pre, _, rest) => pre +:+ sub_blocks ci tag rest
  | None => s
  end.
Proof.
  unfold sub_blocks. destruct s as [|c s]; [reflexivity|].
  cbn [String.length sub_fuel].
  destruct (search_block ci tag (String c s)) as [[[pre body] rest]|] eqn:E;
    [|reflexivity].
  apply search_block_length in E. simpl in E.
  f_equal. apply sub_fuel_enough; lia.
Qed.

Lemma finditer_fuel_enough ci tag : forall n m s,
  String.length s <= n -> String.length s <= m ->
  finditer_fuel n ci tag s = finditer_fuel m ci tag s.
Proof.
  assert (Hempty : forall k, finditer_fuel k ci tag EmptyString = []).
  { intros [|k]; reflexivity. }
  induction n as [|n IH]; intros m s Hn Hm.
  - destruct s; [|simpl in Hn; lia]. now rewrite !Hempty.
  - destruct m as [|m].
    + destruct s; [|simpl in Hm; lia]. now rewrite !Hempty.
    + simpl. destruct (search_block ci tag s) as [[[pre body] rest]|] eqn:E;
        [|reflexivity].
      apply search_block_length in E. f_equal. apply IH; lia.
Qed.

Lemma finditer_eq ci tag s :
  finditer ci tag s =
  match search_block ci tag s with
  | Some (_, body, rest) => body :: finditer ci tag rest
  | None => []
  end.
Proof.
  unfold finditer. destruct s as [|c s]; [reflexivity|].
  cbn [String.length finditer_fuel].
  destruct (search_block ci tag (String c s)) as [[[pre body] rest]|] eqn:E;
    [|reflexivity].
  apply search_block_length in E. simpl in E.
  f_equal. apply finditer_fuel_enough; lia.
Qed.

Lemma sub_blocks_le ci tag s :
  String.length (sub_blocks ci tag s) <= String.length s.
Proof.
  assert (H : forall n t, String.length t <= n ->
                          String.length (sub_blocks ci tag t) <= String.length t).
  { induction n as [|n IH]; intros t Hn; rewrite sub_blocks_eq;
      (destruct (search_block ci tag t) as [[[pre body] rest]|] eqn:E; [|lia]);
      apply search_block_lengths in E; [lia|].
    rewrite slength_app.
    assert (Hrest : String.length rest <= n) by lia.
    specialize (IH rest Hrest). lia. }
  now apply (H (String.length s)).
Qed.

Lemma sub_blocks_shorter ci tag s pre body rest :
  search_block ci tag s = Some (pre, body, rest) ->
  String.length (sub_blocks ci tag s) < String.length s.
Proof.
  intros H. rewrite sub_blocks_eq, H, slength_app.
  apply search_block_lengths in H.
  pose proof (sub_blocks_le ci tag rest). lia.
Qed.

(** The loop of the closed-pair pass ends within its fuel: no block is left
    in its result. *)
Lemma strip_loop_converges tag : forall n s,
  String.length s <= n -> search_block true tag (strip_loop n tag s) = None.
Proof.
  induction n as [|n IH]; intros s Hn.
  - destruct s; [|simpl in Hn; lia]. reflexivity.
  - simpl. destruct (search_block true tag s) as [[[pre body] rest]|] eqn:E;
      [|exact E].
    apply IH. apply sub_blocks_shorter in E. lia.
Qed.

Lemma strip_all_blocks_converges tag s :
  search_block true tag (strip_all_blocks tag s) = None.
Proof. apply strip_loop_converges. lia. Qed.

Lemma strip_all_blocks_clean tag s :
  find_lit true (open_tag tag) s = None -> strip_all_blocks tag s = s.
Proof.
  intros H. unfold strip_all_blocks. destruct (String.length s); [reflexivity|].
  simpl. now rewrite (search_block_none true tag s H).
Qed.

Lemma sub_orphan_clean tag s :
  find_lit true (open_tag tag) s = None -> sub_orphan tag s = s.
Proof. intros H. unfold sub_orphan. now rewrite H. Qed.

Lemma sub_orphan_prefix tag s : exists r, s = sub_orphan tag s +:+ r.
Proof.
  unfold sub_orphan. destruct (find_lit true (open_tag tag) s) as [[b a]|] eqn:E.
  - destruct (find_lit_split _ _ _ _ _ E) as (m & -> & _). now exists m.
  - exists EmptyString. now rewrite sapp_nil_r.
Qed.

(** After the orphan cut no open tag of that kind is left. *)
Lemma sub_orphan_no_open tag s :
  find_lit true (open_tag tag) (sub_orphan tag s) = None.
Proof.
  unfold sub_orphan. destruct (find_lit true (open_tag tag) s) as [[b a]|] eqn:E.
  - exact (find_lit_before true _ (open_tag_nonempty tag) s b a E).
  - exact E.
Qed.

Lemma sub_orphan_keeps_none pat tag s :
  find_lit true pat s = None -> find_lit true pat (sub_orphan tag s) = None.
Proof.
  intros H. destruct (sub_orphan_prefix tag s) as [r Hr]. rewrite Hr in H.
  now apply find_lit_none_prefix in H.
Qed.

End MarkerFacts.

(** ** The sanitizer *)

Section SanitizerFacts.

(** No open tag of any of the three kinds, in any letter case. *)
Definition no_open_tag (s : string) : Prop :=
  find_lit true (open_tag SESSION_DATA) s = None
  /\ find_lit true (open_tag STORE_PERSONAL) s = None
  /\ find_lit true (open_tag STORE_PREFERENCE) s = None.

(** The sanitizer past its early return. *)
Definition sanitize_body (text : string) : string :=
  let t1 := strip_all_blocks STORE_PREFERENCE
              (strip_all_blocks STORE_PERSONAL
                 (strip_all_blocks SESSION_DATA text)) in
  let t2 := sub_orphan STORE_PREFERENCE
              (sub_orphan STORE_PERSONAL (sub_orphan SESSION_DATA t1)) in
  strip (join_lines (List.filter keep_line (split_lines t2))).

Lemma sanitize_unfold text :
  _sanitize_response_for_user text =
  if is_empty text || is_empty (strip text) then text else sanitize_body text.
Proof. reflexivity. Qed.

Lemma orphan_cuts_no_open t :
  no_open_tag (sub_orphan STORE_PREFERENCE
                 (sub_orphan STORE_PERSONAL (sub_orphan SESSION_DATA t))).
Proof.
  repeat split.
  - apply sub_orphan_keeps_none, sub_orphan_keeps_none, sub_orphan_no_open.
  - apply sub_orphan_keeps_none, sub_orphan_no_open.
  - apply sub_orphan_no_open.
Qed.

Lemma sanitize_body_no_open text : no_open_tag (sanitize_body text).
Proof.
  unfold sanitize_body. cbv zeta.
  destruct (orphan_cuts_no_open
              (strip_all_blocks STORE_PREFERENCE
                 (strip_all_blocks STORE_PERSONAL
                    (strip_all_blocks SESSION_DATA text)))) as (H1 & H2 & H3).
  repeat split; apply find_lit_none_filtered;
    try assumption; try discriminate; reflexivity.
Qed.

(** A text without open tags, whose lines the filter keeps and which is
    already stripped, is returned as it is. *)
Lemma sanitize_fixed y :
  no_open_tag y ->
  Forall (fun l => keep_line l = true) (split_lines y) ->
  strip y = y ->
  _sanitize_response_for_user y = y.
Proof.
  intros (H1 & H2 & H3) Hlines Hstrip. rewrite sanitize_unfold.
  destruct (is_empty y || is_empty (strip y)); [reflexivity|].
  unfold sanitize_body. cbv zeta.
  rewrite (strip_all_blocks_clean SESSION_DATA y H1).
  rewrite (strip_all_blocks_clean STORE_PERSONAL y H2).
  rewrite (strip_all_blocks_clean STORE_PREFERENCE y H3).
  rewrite (sub_orphan_clean SESSION_DATA y H1).
  rewrite (sub_orphan_clean STORE_PERSONAL y H2).
  rewrite (sub_orphan_clean STORE_PREFERENCE y H3).
  now rewrite (filter_all_kept keep_line _ Hlines), join_split.
Qed.

End SanitizerFacts.

(** C3: the sanitizer is idempotent. *)
Theorem sanitize_idempotent (s : string) :
  _sanitize_response_for_user (_sanitize_response_for_user s)
  = _sanitize_response_for_user s.
Proof.
  rewrite (sanitize_unfold s).
  destruct (is_empty s || is_empty (strip s)) eqn:E.
  - rewrite sanitize_unfold, E. reflexivity.
  - apply sanitize_fixed.
    + apply sanitize_body_no_open.
    + apply filtered_lines_kept.
    + apply strip_idem.
Qed.

(** ** Dictionaries and decoded objects *)

Section DictFacts.

Definition keys (d : dict) : list string := map fst d.

Lemma dict_get_set k v : forall d k',
  dict_get k' (dict_set k v d) =
  if String.eqb k' k then Some v else dict_get k' d.
Proof.
  induction d as [|[k0 v0] d IH]; intros k'; simpl.
  - destruct (String.eqb k' k); reflexivity.
  - destruct (String.eqb k k0) eqn:E; simpl.
    + apply String.eqb_eq in E. subst k0.
      destruct (String.eqb k' k); reflexivity.
    + rewrite IH. destruct (String.eqb k' k0) eqn:E'; [|reflexivity].
      apply String.eqb_eq in E'. subst k0.
      destruct (String.eqb k' k) eqn:E2; [|reflexivity].
      apply String.eqb_eq in E2. subst k'. rewrite String.eqb_refl in E.
      discriminate.
Qed.

Lemma dict_set_keys_in k v : forall d x,
  In x (keys (dict_set k v d)) <-> x = k \/ In x (keys d).
Proof.
  unfold keys. induction d as [|[k0 v0] d IH]; intros x; simpl.
  - intuition congruence.
  - destruct (String.eqb k k0) eqn:E; simpl.
    + apply String.eqb_eq in E. subst k0. intuition congruence.
    + rewrite IH. intuition congruence.
Qed.

Lemma dict_set_nodup k v : forall d,
  List.NoDup (keys d) -> List.NoDup (keys (dict_set k v d)).
Proof.
  induction d as [|[k0 v0] d IH]; intros H; simpl.
  - constructor; [intros [] | constructor].
  - inversion H as [|? ? Hnotin Hd]; subst.
    destruct (String.eqb k k0) eqn:E; simpl.
    + apply String.eqb_eq in E. subst k0. now constructor.
    + constructor; [|now apply IH].
      intros Hin. apply dict_set_keys_in in Hin as [-> | Hin]; [|now apply Hnotin].
      rewrite String.eqb_refl in E. discriminate.
Qed.

Lemma dict_update_nodup upd : forall d,
  List.NoDup (keys d) -> List.NoDup (keys (dict_update d upd)).
Proof.
  unfold dict_update.
  induction upd as [|[k v] upd IH]; intros d H; simpl; [exact H|].
  apply IH. now apply dict_set_nodup.
Qed.

Lemma dict_of_pairs_nodup pairs : List.NoDup (keys (dict_of_pairs pairs)).
Proof. apply dict_update_nodup. constructor. Qed.

Lemma dict_get_not_in k : forall d, ~ In k (keys d) -> dict_get k d = None.
Proof.
  induction d as [|[k0 v0] d IH]; intros H; simpl; [reflexivity|].
  destruct (String.eqb k k0) eqn:E.
  - apply String.eqb_eq in E. subst k0. exfalso. apply H. now left.
  - apply IH. intros Hin. apply H. now right.
Qed.

(** Updating with a dictionary: its bindings win, the others stay. *)
Lemma dict_get_update k : forall upd d,
  List.NoDup (keys upd) ->
  dict_get k (dict_update d upd) =
  match dict_get k upd with
  | Some v => Some v
  | None => dict_get k d
  end.
Proof.
  unfold dict_update.
  induction upd as [|[k0 v0] upd IH]; intros d H; simpl; [reflexivity|].
  inversion H as [|? ? Hnotin Hupd]; subst.
  rewrite (IH _ Hupd), dict_get_set.
  destruct (String.eqb k k0) eqn:E.
  - apply String.eqb_eq in E. subst k0.
    now rewrite (dict_get_not_in k upd Hnotin).
  - reflexivity.
Qed.

End DictFacts.

(** ** The decoder returns dictionaries with unique keys *)

Section DecoderFacts.

Lemma keyword_not_object kw v s m r :
  (forall d, v <> JObj d) -> keyword kw v s <> Some (JObj m, r).
Proof.
  unfold keyword. intros Hv H. destruct (match_lit false kw s); [|discriminate].
  injection H as H _. now apply (Hv m).
Qed.

Lemma match_number_not_object s m r : match_number s <> Some (JObj m, r).
Proof.
  unfold match_number. intros H.
  destruct (match s with
            | EmptyString => (false, s)
            | String c t => if Ascii.eqb c "-" then (true, t) else (false, s)
            end) as [neg s1].
  destruct (int_part s1) as [[i s2]|]; [|discriminate].
  destruct (frac_part s2) as [f s3]. destruct (exp_part s3) as [e s4].
  destruct (is_empty f && is_empty e); discriminate.
Qed.

Lemma array_items_not_object : forall fuel acc s m r,
  array_items fuel acc s <> Some (JObj m, r).
Proof.
  induction fuel as [|fuel IH]; intros acc s m r H; [discriminate|].
  cbn [array_items] in H.
  destruct (scan_once fuel s) as [[v r0]|]; [|discriminate].
  destruct (skip_ws r0) as [|d r1]; [discriminate|].
  destruct (Ascii.eqb d "]"); [discriminate|].
  destruct (Ascii.eqb d ","); [|discriminate].
  exact (IH _ _ _ _ H).
Qed.

Lemma object_members_nodup : forall fuel acc s m r,
  object_members fuel acc s = Some (JObj m, r) -> List.NoDup (keys m).
Proof.
  induction fuel as [|fuel IH]; intros acc s m r H; [discriminate|].
  cbn [object_members] in H.
  destruct (scanstring (S (String.length s)) s) as [[key r0]|]; [|discriminate].
  destruct (skip_ws r0) as [|c r1]; [discriminate|].
  destruct (Ascii.eqb c ":"); [|discriminate].
  destruct (scan_once fuel (skip_ws r1)) as [[v r2]|]; [|discriminate].
  destruct (skip_ws r2) as [|d r3]; [discriminate|].
  destruct (Ascii.eqb d "}").
  { injection H as <- _. apply dict_of_pairs_nodup. }
  destruct (Ascii.eqb d ","); [|discriminate].
  destruct (skip_ws r3) as [|q r4]; [discriminate|].
  destruct (Ascii.eqb q dquote); [|discriminate].
  exact (IH _ _ _ _ H).
Qed.

Lemma first_some_inv {A} (a b : option A) x :
  Json.first_some a b = Some x -> a = Some x \/ b = Some x.
Proof. destruct a; simpl; auto. Qed.

Lemma scan_once_nodup fuel s m r :
  scan_once fuel s = Some (JObj m, r) -> List.NoDup (keys m).
Proof.
  destruct fuel as [|fuel]; [discriminate|]. cbn [scan_once]. intros H.
  destruct s as [|c s]; [discriminate|].
  destruct (Ascii.eqb c dquote).
  { destruct (scanstring _ s) as [[str r']|]; discriminate. }
  destruct (Ascii.eqb c "{").
  { destruct (skip_ws s) as [|c1 r1]; [discriminate|].
    destruct (Ascii.eqb c1 "}").
    - injection H as <- _. constructor.
    - destruct (Ascii.eqb c1 dquote); [|discriminate].
      exact (object_members_nodup _ _ _ _ _ H). }
  destruct (Ascii.eqb c "[").
  { destruct (skip_ws s) as [|c1 r1]; [discriminate|].
    destruct (Ascii.eqb c1 "]"); [discriminate|].
    now apply array_items_not_object in H. }
  exfalso.
  repeat (apply first_some_inv in H as [H | H];
          [ first [ now apply match_number_not_object in H
                  | apply keyword_not_object in H; [exact H | discriminate] ] |]).
  apply keyword_not_object in H; [exact H | discriminate].
Qed.

Lemma json_loads_nodup s m : json_loads s = Some (JObj m) -> List.NoDup (keys m).
Proof.
  unfold json_loads. intros H.
  destruct (scan_once _ (skip_ws s)) as [[v r]|] eqn:E; [|discriminate].
  destruct (is_empty (skip_ws r)); [|discriminate].
  injection H as ->. exact (scan_once_nodup _ _ _ _ E).
Qed.

End DecoderFacts.

(** ** Merged payloads *)

Section MergeFacts.

(** The object an occurrence decodes to, if it decodes to one. *)
Definition decode_object (body : string) : option dict :=
  match json_loads (strip body) with
  | Some (JObj payload) => Some payload
  | _ => None
  end.

Definition decoded_objects (bodies : list string) : list dict :=
  omap decode_object bodies.

(** Left-to-right shallow merge. *)
Definition shallow_merge (payloads : list dict) : dict :=
  fold_left dict_update payloads [].

(** The value of [k] in the last payload that has [k]. *)
Fixpoint last_binding (k : string) (payloads : list dict) : option json :=
  match payloads with
  | [] => None
  | d :: rest =>
      match last_binding k rest with
      | Some v => Some v
      | None => dict_get k d
      end
  end.

Lemma decode_object_nodup body d :
  decode_object body = Some d -> List.NoDup (keys d).
Proof.
  unfold decode_object. intros H.
  destruct (json_loads (strip body)) as [[| | | | | |m]|] eqn:E; try discriminate.
  injection H as <-. exact (json_loads_nodup _ _ E).
Qed.

Lemma merge_payloads_fold (bodies : list string) : forall acc,
  fold_left
    (fun acc body =>
       match json_loads (strip body) with
       | Some (JObj payload) => dict_update acc payload
       | _ => acc
       end) bodies acc
  = fold_left dict_update (decoded_objects bodies) acc.
Proof.
  induction bodies as [|b bs IH]; intros acc; [reflexivity|].
  cbn [fold_left]. rewrite IH. unfold decoded_objects. cbn [omap list_omap].
  unfold decode_object.
  destruct (json_loads (strip b)) as [[| | | | | |m]|]; reflexivity.
Qed.

Lemma merge_payloads_shallow_merge bodies :
  merge_payloads bodies = shallow_merge (decoded_objects bodies).
Proof. apply merge_payloads_fold. Qed.

Lemma fold_update_get k (payloads : list dict) : forall acc,
  Forall (fun d => List.NoDup (keys d)) payloads ->
  dict_get k (fold_left dict_update payloads acc) =
  match last_binding k payloads with
  | Some v => Some v
  | None => dict_get k acc
  end.
Proof.
  induction payloads as [|d ds IH]; intros acc H; [reflexivity|].
  inversion H as [|? ? Hd Hds]; subst. cbn [fold_left last_binding].
  rewrite (IH _ Hds). destruct (last_binding k ds); [reflexivity|].
  now apply dict_get_update.
Qed.

Lemma decoded_objects_nodup bodies :
  Forall (fun d => List.NoDup (keys d)) (decoded_objects bodies).
Proof.
  induction bodies as [|b bs IH]; [constructor|].
  unfold decoded_objects. cbn [omap list_omap].
  destruct (decode_object b) as [d|] eqn:E; [|exact IH].
  constructor; [exact (decode_object_nodup b d E) | exact IH].
Qed.

Lemma merge_payloads_get k bodies :
  dict_get k (merge_payloads bodies) = last_binding k (decoded_objects bodies).
Proof.
  rewrite merge_payloads_shallow_merge. unfold shallow_merge.
  rewrite (fold_update_get k _ [] (decoded_objects_nodup bodies)).
  now destruct (last_binding k (decoded_objects bodies)).
Qed.

End MergeFacts.

Definition two_preferences : string :=
  "[STORE_PREFERENCE]{" +:+ quoted "a" +:+ ":1}[/STORE_PREFERENCE] then "
  +:+ "[STORE_PREFERENCE]{oops[/STORE_PREFERENCE]"
  +:+ "[STORE_PREFERENCE]{" +:+ quoted "a" +:+ ":2}[/STORE_PREFERENCE]".

(** A lower-case preference block followed by an upper-case one, and the
    same two blocks as session data. *)
Definition mixed_case_preferences : string :=
  "[store_preference]{" +:+ quoted "a" +:+ ":1}[/store_preference]"
  +:+ "[STORE_PREFERENCE]{" +:+ quoted "b" +:+ ":2}[/STORE_PREFERENCE]".

Definition mixed_case_session_data : string :=
  "[session_data]{" +:+ quoted "a" +:+ ":1}[/session_data]"
  +:+ "[SESSION_DATA]{" +:+ quoted "b" +:+ ":2}[/SESSION_DATA]".

(** C6: the payload is not the merge of all occurrences of the kind.  Of a
    lower-case preference block followed by an upper-case one, both are
    removed from the text, but only the upper-case one reaches the payload:
    the key of the first block is missing.  The session-data extractor
    merges the same two blocks, and upper-case preference blocks are merged
    from left to right with the later one winning and a malformed one
    skipped. *)
Theorem lower_case_occurrence_not_merged :
  _extract_and_strip_store_preference mixed_case_preferences
  = ([("b", JInt 2)], EmptyString)
  /\ dict_get "a" (fst (_extract_and_strip_store_preference mixed_case_preferences))
     = None
  /\ _extract_and_strip_session_data mixed_case_session_data
     = ([("a", JInt 1); ("b", JInt 2)], EmptyString)
  /\ fst (_extract_and_strip_store_preference two_preferences) = [("a", JInt 2)].
Proof. repeat split. Qed.

(** ** The block pattern through the general matcher

    The block pattern written with the constructors of [Regex]: the open
    tag, group 1 with a lazy run of any characters, the close tag.  On the
    sample texts the general matcher finds what [search_block] finds. *)

Definition block_pattern (tag : string) : re :=
  seqs [lit (open_tag tag); Grp (Lazy 0 (Cls (fun _ => true))); lit (close_tag tag)].

Definition search_block_re (ci : bool) (tag s : string) : option (string * string) :=
  match search ci (block_pattern tag) s with
  | Some m => Some (group1 m, rest m)
  | None => None
  end.

Definition search_block_scan (ci : bool) (tag s : string) : option (string * string) :=
  match search_block ci tag s with
  | Some (_, body, after) => Some (body, after)
  | None => None
  end.

Example block_pattern_agrees_nested :
  let s := "a [session_data][SESSION_DATA]x[/Session_Data] b [/SESSION_DATA]" in
  search_block_re true SESSION_DATA s = search_block_scan true SESSION_DATA s
  /\ search_block_scan true SESSION_DATA s
     = Some ("[SESSION_DATA]x", " b [/SESSION_DATA]").
Proof. split; reflexivity. Qed.

Example block_pattern_agrees_case_sensitive :
  let s := "[store_personal]{}[/store_personal][STORE_PERSONAL]{}[/STORE_PERSONAL]!" in
  search_block_re false STORE_PERSONAL s = search_block_scan false STORE_PERSONAL s
  /\ search_block_scan false STORE_PERSONAL s = Some ("{}", "!").
Proof. split; reflexivity. Qed.

Example block_pattern_agrees_unclosed :
  let s := "hello [SESSION_DATA]{bad json [SESSION_DATA] [/SESSION_DAT]" in
  search_block_re true SESSION_DATA s = search_block_scan true SESSION_DATA s
  /\ search_block_scan true SESSION_DATA s = None.
Proof. split; reflexivity. Qed.

(** ** Tag case *)

Definition lower_personal_block : string :=
  "Hi [store_personal]{" +:+ quoted "display_name" +:+ ":" +:+ quoted "Alex"
  +:+ "}[/store_personal] there".

Definition upper_personal_block : string :=
  "Hi [STORE_PERSONAL]{" +:+ quoted "display_name" +:+ ":" +:+ quoted "Alex"
  +:+ "}[/STORE_PERSONAL] there".

Definition lower_preference_block : string :=
  "[store_preference]{" +:+ quoted "preferred_view" +:+ ":" +:+ quoted "grid"
  +:+ "}[/store_preference]".

Definition lower_session_block : string :=
  "Hi [session_data]{" +:+ quoted "last_detail_id" +:+ ":" +:+ quoted "nft-1"
  +:+ "}[/session_data] there".

(** C1 on the code: a lower-case personal or preference block is removed
    from the text but its payload is not captured, while the same block in
    upper case, and a lower-case session-data block, are captured. *)
Theorem lower_case_store_block_payload_lost :
  _extract_and_strip_store_personal lower_personal_block = ([], "Hi  there")
  /\ _extract_and_strip_store_personal upper_personal_block
     = ([("display_name", JStr "Alex")], "Hi  there")
  /\ _extract_and_strip_store_preference lower_preference_block = ([], "")
  /\ _extract_and_strip_session_data lower_session_block
     = ([("last_detail_id", JStr "nft-1")], "Hi  there").
Proof. repeat split; reflexivity. Qed.

(** ** Unclosed markers *)

Section OrphanFacts.

Lemma find_lit_some_suffix ci pat x y :
  find_lit ci pat y <> None -> find_lit ci pat (x +:+ y) <> None.
Proof. intros H Hnone. apply H. exact (find_lit_none_suffix ci pat x y Hnone). Qed.

(** A block needs a close tag somewhere in the text. *)
Lemma search_block_needs_close ci tag : forall s,
  find_lit ci (close_tag tag) s = None -> search_block ci tag s = None.
Proof.
  assert (Hat : forall s, find_lit ci (close_tag tag) s = None ->
                          match_block ci tag s = None).
  { intros s H. unfold match_block.
    destruct (match_lit ci (open_tag tag) s) as [r|] eqn:E; [|reflexivity].
    destruct (match_lit_split _ _ _ _ E) as (o & Hs & _). rewrite Hs in H.
    exact (find_lit_none_suffix ci _ o r H). }
  induction s as [|c s IH]; intros H; cbn [search_block]; rewrite (Hat _ H);
    [reflexivity|].
  now rewrite (IH (find_lit_none_tail _ _ _ _ H)).
Qed.

Lemma sub_blocks_needs_close ci tag s :
  find_lit ci (close_tag tag) s = None -> sub_blocks ci tag s = s.
Proof.
  intros H. rewrite sub_blocks_eq. now rewrite (search_block_needs_close ci tag s H).
Qed.

Lemma session_data_stripped_no_open raw :
  find_lit true (open_tag SESSION_DATA)
    (snd (_extract_and_strip_session_data raw)) = None.
Proof.
  unfold _extract_and_strip_session_data. cbn [snd].
  apply find_lit_none_strip, sub_orphan_no_open.
Qed.

End OrphanFacts.

(** ** An unclosed marker at the end of a text

    The text is [x +:+ y] where [y] starts with an open bracket and holds
    no close tag.  Tags do not contain brackets, so no tag can start in [x]
    and end in [y]. *)

Section UnclosedTail.

Fixpoint bracket_free (p : string) : bool :=
  match p with
  | EmptyString => true
  | String c p' => negb (char_eq true c "[") && bracket_free p'
  end.

Variable y0 : ascii.
Variable y' : string.
Hypothesis y0_bracket : char_eq true "[" y0 = true.

Let y : string := String y0 y'.

Lemma char_eq_bracket c : char_eq true c y0 = true -> char_eq true c "[" = true.
Proof.
  unfold char_eq in *. intros H.
  apply Ascii.eqb_eq in H. apply Ascii.eqb_eq in y0_bracket.
  apply Ascii.eqb_eq. congruence.
Qed.

Lemma match_lit_inside : forall q x r,
  bracket_free q = true ->
  match_lit true q (x +:+ y) = Some r ->
  exists r', match_lit true q x = Some r' /\ r = r' +:+ y.
Proof.
  induction q as [|c q IH]; intros x r Hq H.
  - cbn [match_lit] in *. injection H as <-. eauto.
  - cbn [bracket_free] in Hq.
    apply andb_true_iff in Hq as [Hc Hq]. apply negb_true_iff in Hc.
    destruct x as [|d x].
    + rewrite sapp_nil_l in H. unfold y in H. cbn [match_lit] in H.
      destruct (char_eq true c y0) eqn:E; [|discriminate].
      rewrite (char_eq_bracket c E) in Hc. discriminate.
    + rewrite sapp_cons in H. cbn [match_lit] in *.
      destruct (char_eq true c d); [|discriminate]. now apply IH.
Qed.

Section OnePattern.

Variable p0 : ascii.
Variable ptail : string.
Hypothesis ptail_free : bracket_free ptail = true.

Let pat : string := String p0 ptail.

Lemma match_lit_app_tail x :
  x <> EmptyString ->
  match_lit true pat (x +:+ y) =
  match match_lit true pat x with Some r => Some (r +:+ y) | None => None end.
Proof.
  intros Hx. destruct (match_lit true pat x) as [r|] eqn:E.
  - now apply match_lit_app.
  - destruct (match_lit true pat (x +:+ y)) as [r|] eqn:E'; [|reflexivity].
    destruct x as [|d x]; [congruence|].
    rewrite sapp_cons in E'. unfold pat in *. cbn [match_lit] in *.
    destruct (char_eq true p0 d); [|discriminate].
    destruct (match_lit_inside ptail x r ptail_free E') as (r' & Hr' & _).
    congruence.
Qed.

Lemma find_lit_app_tail_none : forall x,
  find_lit true pat x = None -> find_lit true pat y = None ->
  find_lit true pat (x +:+ y) = None.
Proof.
  induction x as [|c x IH]; intros Hx Hy; [exact Hy|].
  rewrite sapp_cons. apply find_lit_none_cons.
  - rewrite <- sapp_cons, match_lit_app_tail by discriminate.
    now rewrite (find_lit_none_match _ _ _ Hx).
  - apply IH; [exact (find_lit_none_tail _ _ _ _ Hx) | exact Hy].
Qed.

Lemma find_lit_app_tail_some : forall x b a,
  find_lit true pat x = None -> find_lit true pat y = Some (b, a) ->
  find_lit true pat (x +:+ y) = Some (x +:+ b, a).
Proof.
  induction x as [|c x IH]; intros b a Hx Hy; [exact Hy|].
  rewrite sapp_cons. cbn [find_lit].
  rewrite <- sapp_cons, match_lit_app_tail by discriminate.
  rewrite (find_lit_none_match _ _ _ Hx). rewrite sapp_cons.
  now rewrite (IH b a (find_lit_none_tail _ _ _ _ Hx) Hy).
Qed.

End OnePattern.

Lemma match_lit_app_none ci : forall pat s z,
  String.length pat <= String.length s ->
  match_lit ci pat s = None -> match_lit ci pat (s +:+ z) = None.
Proof.
  induction pat as [|p pat IH]; intros s z Hlen H; [discriminate|].
  destruct s as [|c s]; [simpl in Hlen; lia|].
  rewrite sapp_cons. cbn [match_lit String.length] in *.
  destruct (char_eq ci p c); [|reflexivity].
  apply IH; [lia | exact H].
Qed.

(** An occurrence found in [x] is the leftmost one of any extension. *)
Lemma find_lit_app_some ci pat : forall x b a z,
  find_lit ci pat x = Some (b, a) ->
  find_lit ci pat (x +:+ z) = Some (b, a +:+ z).
Proof.
  induction x as [|c x IH]; intros b a z H.
  - simpl in H. destruct (match_lit ci pat EmptyString) as [r|] eqn:E;
      [|discriminate].
    injection H as <- <-. destruct pat; [|discriminate].
    simpl in E. injection E as <-. destruct z; reflexivity.
  - cbn [find_lit] in H. rewrite sapp_cons. cbn [find_lit].
    destruct (match_lit ci pat (String c x)) as [r|] eqn:E.
    + injection H as <- <-. rewrite <- sapp_cons.
      now rewrite (match_lit_app ci pat _ r z E).
    + destruct (find_lit ci pat x) as [[b' a']|] eqn:F; [|discriminate].
      injection H as <- <-.
      rewrite <- sapp_cons, match_lit_app_none; [| |exact E].
      * now rewrite (IH b' a' z eq_refl).
      * apply find_lit_length in F. simpl. lia.
Qed.

End UnclosedTail.

Section BlocksBeforeUnclosedTail.

Variable tag : string.
Hypothesis tag_free : bracket_free (tag +:+ "]") = true.

Variable y0 : ascii.
Variable y' : string.
Hypothesis y0_bracket : char_eq true "[" y0 = true.

Let y : string := String y0 y'.

Hypothesis no_close : find_lit true (close_tag tag) y = None.

Lemma close_tail_free : bracket_free (String "/" (tag +:+ "]")) = true.
Proof. cbn [bracket_free]. now rewrite tag_free. Qed.

Lemma match_block_app_tail x :
  x <> EmptyString ->
  match_block true tag (x +:+ y) =
  match match_block true tag x with
  | Some (b, r) => Some (b, r +:+ y)
  | None => None
  end.
Proof.
  intros Hx. unfold match_block.
  change (open_tag tag) with (String "[" (tag +:+ "]")).
  unfold y. rewrite (match_lit_app_tail y0 y' y0_bracket "[" _ tag_free x Hx).
  destruct (match_lit true (String "[" (tag +:+ "]")) x) as [r0|]; [|reflexivity].
  destruct (find_lit true (close_tag tag) r0) as [[b a]|] eqn:F.
  - now rewrite (find_lit_app_some true _ r0 b a _ F).
  - change (close_tag tag) with (String "[" (String "/" (tag +:+ "]"))) in *.
    now rewrite (find_lit_app_tail_none y0 y' y0_bracket "[" _ close_tail_free
                   r0 F no_close).
Qed.

Lemma search_block_app_tail : forall x,
  search_block true tag (x +:+ y) =
  match search_block true tag x with
  | Some (p, b, r) => Some (p, b, r +:+ y)
  | None => None
  end.
Proof.
  induction x as [|c x IH].
  - rewrite sapp_nil_l. now rewrite (search_block_needs_close true tag y no_close).
  - rewrite sapp_cons. cbn [search_block]. rewrite <- sapp_cons.
    rewrite match_block_app_tail by discriminate.
    destruct (match_block true tag (String c x)) as [[b r]|]; [reflexivity|].
    rewrite IH. now destruct (search_block true tag x) as [[[p b] r]|].
Qed.

Lemma sub_blocks_app_tail x :
  sub_blocks true tag (x +:+ y) = sub_blocks true tag x +:+ y.
Proof.
  assert (H : forall n t, String.length t <= n ->
            sub_blocks true tag (t +:+ y) = sub_blocks true tag t +:+ y).
  { induction n as [|n IH]; intros t Hn;
      rewrite (sub_blocks_eq true tag (t +:+ y)), (sub_blocks_eq true tag t),
        search_block_app_tail;
      (destruct (search_block true tag t) as [[[p b] r]|] eqn:E; [|reflexivity]);
      apply search_block_lengths in E; [lia|].
    rewrite IH by lia. now rewrite sapp_assoc. }
  now apply (H (String.length x)).
Qed.

Lemma finditer_app_tail x :
  finditer true tag (x +:+ y) = finditer true tag x.
Proof.
  assert (H : forall n t, String.length t <= n ->
            finditer true tag (t +:+ y) = finditer true tag t).
  { induction n as [|n IH]; intros t Hn;
      rewrite (finditer_eq true tag (t +:+ y)), (finditer_eq true tag t),
        search_block_app_tail;
      (destruct (search_block true tag t) as [[[p b] r]|] eqn:E; [|reflexivity]);
      apply search_block_lengths in E; [lia|].
    now rewrite IH by lia. }
  now apply (H (String.length x)).
Qed.

Lemma strip_loop_enough : forall n m s,
  String.length s <= n -> String.length s <= m ->
  strip_loop n tag s = strip_loop m tag s.
Proof.
  assert (Hempty : forall k, strip_loop k tag EmptyString = EmptyString).
  { intros [|k]; reflexivity. }
  induction n as [|n IH]; intros m s Hn Hm.
  - destruct s; [|simpl in Hn; lia]. now rewrite !Hempty.
  - destruct m as [|m].
    + destruct s; [|simpl in Hm; lia]. now rewrite !Hempty.
    + cbn [strip_loop].
      destruct (search_block true tag s) as [[[p b] r]|] eqn:E; [|reflexivity].
      apply sub_blocks_shorter in E. apply IH; lia.
Qed.

Lemma strip_all_blocks_eq s :
  strip_all_blocks tag s =
  match search_block true tag s with
  | Some _ => strip_all_blocks tag (sub_blocks true tag s)
  | None => s
  end.
Proof.
  unfold strip_all_blocks. destruct s as [|c s]; [reflexivity|].
  cbn [String.length strip_loop].
  destruct (search_block true tag (String c s)) as [[[p b] r]|] eqn:E;
    [|reflexivity].
  apply sub_blocks_shorter in E. cbn [String.length] in E.
  apply strip_loop_enough; lia.
Qed.

Lemma strip_all_blocks_app_tail x :
  strip_all_blocks tag (x +:+ y) = strip_all_blocks tag x +:+ y.
Proof.
  assert (H : forall n t, String.length t <= n ->
            strip_all_blocks tag (t +:+ y) = strip_all_blocks tag t +:+ y).
  { induction n as [|n IH]; intros t Hn;
      rewrite (strip_all_blocks_eq (t +:+ y)), (strip_all_blocks_eq t),
        search_block_app_tail;
      (destruct (search_block true tag t) as [[[p b] r]|] eqn:E; [|reflexivity]);
      apply sub_blocks_shorter in E; [lia|].
    rewrite sub_blocks_app_tail. apply IH. lia. }
  now apply (H (String.length x)).
Qed.

Variable after_open : string.
Hypothesis y_opens : match_lit true (open_tag tag) y = Some after_open.

Lemma sub_orphan_app_tail x : sub_orphan tag (x +:+ y) = sub_orphan tag x.
Proof.
  unfold sub_orphan.
  destruct (find_lit true (open_tag tag) x) as [[b a]|] eqn:F.
  - now rewrite (find_lit_app_some true _ x b a y F).
  - assert (Hy : find_lit true (open_tag tag) y = Some (EmptyString, after_open)).
    { unfold y in *. cbn [find_lit]. now rewrite y_opens. }
    change (open_tag tag) with (String "[" (tag +:+ "]")) in *.
    unfold y in *.
    rewrite (find_lit_app_tail_some y0 y' y0_bracket "[" _ tag_free x _ _ F Hy).
    apply sapp_nil_r.
Qed.

End BlocksBeforeUnclosedTail.

(** From an unclosed session-data opener on, the text plays no part in what
    the session-data extractor returns. *)
Lemma session_data_unclosed_tail pre opener rest :
  match_lit true (open_tag SESSION_DATA) opener = Some EmptyString ->
  find_lit true (close_tag SESSION_DATA) (opener +:+ rest) = None ->
  _extract_and_strip_session_data (pre +:+ opener +:+ rest)
  = _extract_and_strip_session_data pre.
Proof.
  intros Hopen Hclose.
  destruct opener as [|y0 o']; [discriminate Hopen|].
  assert (Hy0 : char_eq true "[" y0 = true).
  { cbn [open_tag] in Hopen. change (open_tag SESSION_DATA)
      with (String "[" (SESSION_DATA +:+ "]")) in Hopen.
    cbn [match_lit] in Hopen. now destruct (char_eq true "[" y0). }
  rewrite sapp_cons in *.
  pose proof (match_lit_app true _ _ _ rest Hopen) as Hopens.
  rewrite sapp_cons, sapp_nil_l in Hopens.
  unfold _extract_and_strip_session_data.
  rewrite (finditer_app_tail SESSION_DATA eq_refl y0 _ Hy0 Hclose).
  rewrite (strip_all_blocks_app_tail SESSION_DATA eq_refl y0 _ Hy0 Hclose).
  rewrite (sub_orphan_app_tail SESSION_DATA eq_refl y0 _ Hy0 rest Hopens).
  reflexivity.
Qed.

(** ** What reaches the user *)

Section SanitizedOutput.

Lemma space_not_bracket c : isspace c = true -> char_eq true "[" c = false.
Proof.
  destruct c as [[] [] [] [] [] [] [] []]; intros H;
    first [reflexivity | discriminate H].
Qed.

Lemma all_space_no_open tag : forall s,
  all_space s = true -> find_lit true (open_tag tag) s = None.
Proof.
  induction s as [|c s IH]; intros H; [reflexivity|].
  cbn [all_space] in H. apply andb_true_iff in H as [Hc Hs].
  apply find_lit_none_cons; [|now apply IH].
  change (open_tag tag) with (String "[" (tag +:+ "]")).
  cbn [match_lit]. now rewrite (space_not_bracket c Hc).
Qed.

Lemma lstrip_empty_all_space : forall s,
  lstrip s = EmptyString -> all_space s = true.
Proof.
  induction s as [|c s IH]; intros H; [reflexivity|].
  cbn [lstrip all_space] in *. destruct (isspace c); [now apply IH | discriminate].
Qed.

Lemma strip_empty_all_space s : strip s = EmptyString -> all_space s = true.
Proof.
  unfold strip. destruct (lstrip_head s) as [H | (c & t & H & Hc)].
  - intros _. now apply lstrip_empty_all_space.
  - rewrite H, rstrip_cons, Hc, andb_false_r. discriminate.
Qed.

(** The sanitizer's result holds no open tag of the three kinds. *)
Lemma sanitized_no_open_tag text : no_open_tag (_sanitize_response_for_user text).
Proof.
  rewrite sanitize_unfold.
  destruct (is_empty text || is_empty (strip text)) eqn:E;
    [|apply sanitize_body_no_open].
  assert (Hsp : all_space text = true).
  { apply orb_true_iff in E as [E | E].
    - destruct text; [reflexivity | discriminate].
    - apply strip_empty_all_space. destruct (strip text); [reflexivity | discriminate]. }
  repeat split; now apply all_space_no_open.
Qed.

End SanitizedOutput.

(** A preference block written after a personal marker that is never
    closed, and the same text with an unclosed session-data marker. *)
Definition preference_after_unclosed_personal : string :=
  "ok [STORE_PERSONAL]{" +:+ quoted "display_name" +:+ ": "
  +:+ "[STORE_PREFERENCE]{" +:+ quoted "preferred_view" +:+ ":" +:+ quoted "table"
  +:+ "}[/STORE_PREFERENCE]".

Definition preference_after_unclosed_session_data : string :=
  "ok [SESSION_DATA]{" +:+ quoted "last_detail_id" +:+ ": "
  +:+ "[STORE_PREFERENCE]{" +:+ quoted "preferred_view" +:+ ":" +:+ quoted "table"
  +:+ "}[/STORE_PREFERENCE]".

(** C2: the personal and the preference extractor leave an unclosed marker
    of their kind in the text they return, from the opener on, where the
    session-data extractor cuts its own from the opener to the end of the
    text.  In a turn, what follows an unclosed personal marker is therefore
    still read: a preference block written after it is extracted, while
    the same block after an unclosed session-data marker is cut away with
    it. *)
Theorem unclosed_store_marker_left_dangling :
  _extract_and_strip_store_personal "hello [STORE_PERSONAL]{bad json"
  = ([], "hello [STORE_PERSONAL]{bad json")
  /\ _extract_and_strip_store_preference "hello [STORE_PREFERENCE]{bad json"
     = ([], "hello [STORE_PREFERENCE]{bad json")
  /\ _extract_and_strip_session_data "hello [SESSION_DATA]{bad json"
     = ([], "hello")
  /\ Turn.extract_all preference_after_unclosed_personal
     = ([], [], [("preferred_view", JStr "table")], "ok")
  /\ Turn.extract_all preference_after_unclosed_session_data
     = ([], [], [], "ok").
Proof. repeat split. Qed.

(* ===================================================================== *)
(** * Further properties of the extractors                                *)
(* ===================================================================== *)

(** Text of ASCII characters only.  On such text [Text.isspace],
    [Text.isword] and [Text.char_eq] are what [str.strip], the classes and
    the word boundary of [re] and [re.IGNORECASE] are on a [str]; beyond
    ASCII Python knows further whitespace, further word characters and the
    case pairs of U+0130, U+0131, U+017F and U+212A with ASCII letters. *)
Fixpoint is_ascii (s : string) : bool :=
  match s with
  | EmptyString => true
  | String c s' => (nat_of_ascii c <? 128) && is_ascii s'
  end.






Section CaseFacts.

Lemma char_eq_refl ci c : char_eq ci c c = true.
Proof. unfold char_eq. destruct ci; apply Ascii.eqb_refl. Qed.

Lemma char_eq_case p c : char_eq false p c = true -> char_eq true p c = true.
Proof.
  unfold char_eq. intros H. apply Ascii.eqb_eq in H. subst. apply Ascii.eqb_refl.
Qed.

(** A case-sensitive match is a case-insensitive match. *)
Lemma match_lit_case : forall pat s r,
  match_lit false pat s = Some r -> match_lit true pat s = Some r.
Proof.
  induction pat as [|p pat IH]; intros s r H; [exact H|].
  destruct s as [|c s]; [discriminate|]. cbn [match_lit] in *.
  destruct (char_eq false p c) eqn:E; [|discriminate].
  rewrite (char_eq_case p c E). now apply IH.
Qed.

Lemma find_lit_case_none pat : forall s,
  find_lit true pat s = None -> find_lit false pat s = None.
Proof.
  assert (Hm : forall s, match_lit true pat s = None -> match_lit false pat s = None).
  { intros s H. destruct (match_lit false pat s) as [r|] eqn:E; [|reflexivity].
    apply match_lit_case in E. congruence. }
  induction s as [|c s IH]; intros H.
  - cbn [find_lit]. now rewrite (Hm _ (find_lit_none_match _ _ _ H)).
  - apply find_lit_none_cons.
    + exact (Hm _ (find_lit_none_match _ _ _ H)).
    + apply IH. exact (find_lit_none_tail _ _ _ _ H).
Qed.

Lemma match_lit_self ci : forall pat r, match_lit ci pat (pat +:+ r) = Some r.
Proof.
  induction pat as [|p pat IH]; intros r; [reflexivity|].
  rewrite sapp_cons. cbn [match_lit]. now rewrite char_eq_refl.
Qed.

Lemma finditer_none ci tag s :
  search_block ci tag s = None -> finditer ci tag s = [].
Proof. intros H. now rewrite finditer_eq, H. Qed.

Lemma sub_blocks_none ci tag s :
  search_block ci tag s = None -> sub_blocks ci tag s = s.
Proof. intros H. now rewrite sub_blocks_eq, H. Qed.

End CaseFacts.

Lemma session_data_without_open raw :
  find_lit true (open_tag SESSION_DATA) raw = None ->
  _extract_and_strip_session_data raw = ([], strip raw).
Proof.
  intros H. unfold _extract_and_strip_session_data.
  rewrite (finditer_none _ _ _ (search_block_none true _ raw H)).
  now rewrite (strip_all_blocks_clean _ raw H), (sub_orphan_clean _ raw H).
Qed.

Lemma store_without_open tag raw :
  find_lit true (open_tag tag) raw = None ->
  (merge_payloads (finditer false tag raw), strip (sub_blocks true tag raw))
  = ([], strip raw).
Proof.
  intros H.
  rewrite (finditer_none _ _ _
             (search_block_none false _ raw (find_lit_case_none _ raw H))).
  now rewrite (sub_blocks_none _ _ _ (search_block_none true _ raw H)).
Qed.

(** X1: an ASCII text without an opening tag of a kind, in any letter
    case, comes back from that kind's extractor with the empty payload and
    only its surrounding whitespace removed. *)
Theorem extract_without_marker (raw : string) :
  is_ascii raw = true ->
  (find_lit true (open_tag SESSION_DATA) raw = None ->
   _extract_and_strip_session_data raw = ([], strip raw))
  /\ (find_lit true (open_tag STORE_PERSONAL) raw = None ->
      _extract_and_strip_store_personal raw = ([], strip raw))
  /\ (find_lit true (open_tag STORE_PREFERENCE) raw = None ->
      _extract_and_strip_store_preference raw = ([], strip raw)).
Proof.
  intros _. split; [exact (session_data_without_open raw)|].
  split; intros H; exact (store_without_open _ raw H).
Qed.

Lemma extract_without_marker_witness :
  _extract_and_strip_session_data "  [/SESSION_DATA] plain text [STORE_PERSONAL] "
  = ([], "[/SESSION_DATA] plain text [STORE_PERSONAL]")
  /\ _extract_and_strip_store_personal " no markers here"
     = ([], "no markers here")
  /\ _extract_and_strip_store_preference "[SESSION_DATA]{}[/SESSION_DATA]"
     = ([], "[SESSION_DATA]{}[/SESSION_DATA]").
Proof.
  split; [|split].
  - exact (proj1 (extract_without_marker
                    "  [/SESSION_DATA] plain text [STORE_PERSONAL] " eq_refl)
             eq_refl).
  - exact (proj1 (proj2 (extract_without_marker " no markers here" eq_refl))
             eq_refl).
  - exact (proj2 (proj2 (extract_without_marker "[SESSION_DATA]{}[/SESSION_DATA]"
                           eq_refl))
             eq_refl).
Defined.

(** X2: the session-data extractor has nothing left to do on its own
    result: extracting again gives the empty payload and the same text. *)
Theorem session_data_extraction_settles (raw : string) :
  _extract_and_strip_session_data (snd (_extract_and_strip_session_data raw))
  = ([], snd (_extract_and_strip_session_data raw)).
Proof.
  rewrite (session_data_without_open _ (session_data_stripped_no_open raw)).
  f_equal. unfold _extract_and_strip_session_data. cbn [snd]. apply strip_idem.
Qed.

(** ** One well-formed block *)

Section TailAnyCase.

Variable ci : bool.

Fixpoint tag_chars_free (p : string) : bool :=
  match p with
  | EmptyString => true
  | String c p' => negb (char_eq ci c "[") && tag_chars_free p'
  end.

Variable y0 : ascii.
Variable y' : string.
Hypothesis y0_bracket : char_eq ci "[" y0 = true.

Let y : string := String y0 y'.

Lemma char_eq_bracket_ci c : char_eq ci c y0 = true -> char_eq ci c "[" = true.
Proof.
  unfold char_eq in *. destruct ci; intros H;
    apply Ascii.eqb_eq in H; apply Ascii.eqb_eq in y0_bracket;
    apply Ascii.eqb_eq; congruence.
Qed.

Lemma match_lit_inside_ci : forall q x r,
  tag_chars_free q = true ->
  match_lit ci q (x +:+ y) = Some r ->
  exists r', match_lit ci q x = Some r' /\ r = r' +:+ y.
Proof.
  induction q as [|c q IH]; intros x r Hq H.
  - cbn [match_lit] in *. injection H as <-. eauto.
  - cbn [tag_chars_free] in Hq.
    apply andb_true_iff in Hq as [Hc Hq]. apply negb_true_iff in Hc.
    destruct x as [|d x].
    + rewrite sapp_nil_l in H. unfold y in H. cbn [match_lit] in H.
      destruct (char_eq ci c y0) eqn:E; [|discriminate].
      rewrite (char_eq_bracket_ci c E) in Hc. discriminate.
    + rewrite sapp_cons in H. cbn [match_lit] in *.
      destruct (char_eq ci c d); [|discriminate]. now apply IH.
Qed.

Variable p0 : ascii.
Variable ptail : string.
Hypothesis ptail_free : tag_chars_free ptail = true.

Let pat : string := String p0 ptail.

Lemma match_lit_before_bracket x :
  x <> EmptyString ->
  match_lit ci pat x = None -> match_lit ci pat (x +:+ y) = None.
Proof.
  intros Hx E.
  destruct (match_lit ci pat (x +:+ y)) as [r|] eqn:E'; [|reflexivity].
  destruct x as [|d x]; [congruence|].
  rewrite sapp_cons in E'. unfold pat in *. cbn [match_lit] in *.
  destruct (char_eq ci p0 d); [|discriminate].
  destruct (match_lit_inside_ci ptail x r ptail_free E') as (r' & Hr' & _).
  congruence.
Qed.

(** With no occurrence in [x], the leftmost occurrence in [x +:+ y] is the
    leftmost occurrence in [y]. *)
Lemma find_lit_before_bracket : forall x b a,
  find_lit ci pat x = None -> find_lit ci pat y = Some (b, a) ->
  find_lit ci pat (x +:+ y) = Some (x +:+ b, a).
Proof.
  induction x as [|c x IH]; intros b a Hx Hy; [exact Hy|].
  rewrite sapp_cons. cbn [find_lit].
  rewrite <- sapp_cons, match_lit_before_bracket;
    [| discriminate | exact (find_lit_none_match _ _ _ Hx)].
  rewrite sapp_cons.
  now rewrite (IH b a (find_lit_none_tail _ _ _ _ Hx) Hy).
Qed.

End TailAnyCase.

Section OneBlock.

Variable ci : bool.
Variable tag : string.
Hypothesis tag_free : tag_chars_free ci (tag +:+ "]") = true.

Lemma search_block_unfold s :
  search_block ci tag s =
  match match_block ci tag s with
  | Some (body, rest) => Some (EmptyString, body, rest)
  | None =>
      match s with
      | EmptyString => None
      | String c s' =>
          match search_block ci tag s' with
          | Some (pre, body, rest) => Some (String c pre, body, rest)
          | None => None
          end
      end
  end.
Proof. destruct s; reflexivity. Qed.

Lemma starts_with_bracket pat0 o r :
  match_lit ci (String "[" pat0) o = Some r ->
  exists y0 y', o = String y0 y' /\ char_eq ci "[" y0 = true.
Proof.
  destruct o as [|y0 y']; [discriminate|]. cbn [match_lit].
  destruct (char_eq ci "[" y0) eqn:E; [|discriminate]. eauto.
Qed.

Lemma close_tail_free_ci : tag_chars_free ci (String "/" (tag +:+ "]")) = true.
Proof.
  cbn [tag_chars_free]. rewrite tag_free.
  now destruct ci.
Qed.

(** The leftmost block of a text that has no open tag before a well-formed
    block. *)
Lemma search_block_first : forall pre opener body closer post,
  find_lit ci (open_tag tag) pre = None ->
  match_lit ci (open_tag tag) opener = Some EmptyString ->
  find_lit ci (close_tag tag) body = None ->
  match_lit ci (close_tag tag) closer = Some EmptyString ->
  search_block ci tag (pre +:+ opener +:+ body +:+ closer +:+ post)
  = Some (pre, body, post).
Proof.
  intros pre opener body closer post Hpre Hopen Hbody Hclose.
  assert (Hat : match_block ci tag (opener +:+ body +:+ closer +:+ post)
                = Some (body, post)).
  { unfold match_block.
    pose proof (match_lit_app ci _ _ _ (body +:+ closer +:+ post) Hopen) as Ho.
    rewrite sapp_nil_l in Ho. rewrite Ho.
    change (close_tag tag) with (String "[" (String "/" (tag +:+ "]"))) in *.
    destruct (starts_with_bracket _ _ _ Hclose) as (c0 & c' & -> & Hc0).
    pose proof (match_lit_app ci _ _ _ post Hclose) as Hc.
    rewrite sapp_nil_l in Hc.
    assert (Hy : find_lit ci (String "[" (String "/" (tag +:+ "]")))
                   (String c0 c' +:+ post) = Some (EmptyString, post)).
    { rewrite sapp_cons in *. cbn [find_lit]. now rewrite Hc. }
    rewrite sapp_cons in *.
    rewrite (find_lit_before_bracket ci c0 _ Hc0 "[" _ close_tail_free_ci
               body _ _ Hbody Hy).
    now rewrite sapp_nil_r. }
  change (open_tag tag) with (String "[" (tag +:+ "]")) in *.
  destruct (starts_with_bracket _ _ _ Hopen) as (o0 & o' & -> & Ho0).
  induction pre as [|c pre IH].
  - rewrite sapp_nil_l, search_block_unfold. now rewrite Hat.
  - rewrite sapp_cons, search_block_unfold.
    assert (Hnone : match_block ci tag
                      (String c (pre +:+ String o0 o' +:+ body +:+ closer +:+ post))
                    = None).
    { unfold match_block. change (open_tag tag) with (String "[" (tag +:+ "]")).
      rewrite <- sapp_cons. rewrite !sapp_cons.
      rewrite <- (sapp_cons c pre).
      rewrite (match_lit_before_bracket ci o0 _ Ho0 "[" _ tag_free
                 (String c pre)); [reflexivity | discriminate |].
      exact (find_lit_none_match _ _ _ Hpre). }
    rewrite Hnone. now rewrite (IH (find_lit_none_tail _ _ _ _ Hpre)).
Qed.

End OneBlock.

Section FreshUpdate.

Lemma dict_set_fresh k v : forall d,
  ~ In k (keys d) -> dict_set k v d = (d ++ [(k, v)])%list.
Proof.
  induction d as [|[k0 v0] d IH]; intros H; [reflexivity|].
  cbn [dict_set]. destruct (String.eqb k k0) eqn:E.
  - apply String.eqb_eq in E. subst k0. exfalso. apply H. now left.
  - cbn [app]. f_equal. apply IH. intros Hin. apply H. now right.
Qed.

Lemma dict_update_fresh : forall upd d,
  List.NoDup (keys upd) ->
  (forall k, In k (keys upd) -> ~ In k (keys d)) ->
  dict_update d upd = (d ++ upd)%list.
Proof.
  unfold dict_update.
  induction upd as [|[k v] upd IH]; intros d Hnd Hfresh.
  - cbn [fold_left]. now rewrite app_nil_r.
  - inversion Hnd as [|? ? Hnotin Hupd]; subst. cbn [fold_left fst snd].
    rewrite dict_set_fresh by (apply Hfresh; now left).
    rewrite IH; [now rewrite <- app_assoc | exact Hupd |].
    intros k0 Hk0 Hin. unfold keys in Hin. rewrite map_app in Hin.
    apply in_app_or in Hin as [Hin | [<- | []]].
    + apply (Hfresh k0); [now right | exact Hin].
    + now apply Hnotin.
Qed.

(** A decoded object merged into the empty accumulator is that object. *)
Lemma merge_one_object body payload :
  json_loads (strip body) = Some (JObj payload) ->
  merge_payloads [body] = payload.
Proof.
  intros H. unfold merge_payloads. cbn [fold_left]. rewrite H.
  apply (dict_update_fresh payload []); [exact (json_loads_nodup _ _ H)|].
  intros k _ [].
Qed.

End FreshUpdate.

Lemma session_block_extracted pre opener body closer post payload :
  match_lit true (open_tag SESSION_DATA) opener = Some EmptyString ->
  match_lit true (close_tag SESSION_DATA) closer = Some EmptyString ->
  find_lit true (close_tag SESSION_DATA) body = None ->
  find_lit true (open_tag SESSION_DATA) (pre +:+ post) = None ->
  json_loads (strip body) = Some (JObj payload) ->
  _extract_and_strip_session_data (pre +:+ opener +:+ body +:+ closer +:+ post)
  = (payload, strip (pre +:+ post)).
Proof.
  intros Hopen Hclose Hbody Haround Hjson.
  pose proof (find_lit_none_prefix _ _ _ _ Haround) as Hpre.
  pose proof (find_lit_none_suffix _ _ _ _ Haround) as Hpost.
  pose proof (search_block_first true SESSION_DATA eq_refl pre opener body
                closer post Hpre Hopen Hbody Hclose) as Hfirst.
  unfold _extract_and_strip_session_data.
  rewrite finditer_eq, Hfirst.
  rewrite (finditer_none _ _ _ (search_block_none true _ post Hpost)).
  rewrite (merge_one_object body payload Hjson).
  rewrite strip_all_blocks_eq, Hfirst.
  rewrite sub_blocks_eq, Hfirst.
  rewrite (sub_blocks_none _ _ _ (search_block_none true _ post Hpost)).
  now rewrite (strip_all_blocks_clean _ _ Haround), (sub_orphan_clean _ _ Haround).
Qed.




(** ** Session data emitted by the tools *)

(** X4: a session-data line written by a tool at the end of a text is read
    back by the extractor: when the serialized payload holds no closing
    tag and decodes to an object, and the text before the line holds no
    opening tag, the extractor returns that object and the stripped text. *)
Theorem session_data_line_read_back (json_dumps : dict -> string)
  (text : string) (payload decoded : dict) :
  find_lit true (open_tag SESSION_DATA) text = None ->
  find_lit true (close_tag SESSION_DATA) (json_dumps payload) = None ->
  json_loads (strip (json_dumps payload)) = Some (JObj decoded) ->
  _extract_and_strip_session_data (text +:+ Tools._session_data_line json_dumps payload)
  = (decoded, strip text).
Proof.
  intros Htext Hbody Hjson. unfold Tools._session_data_line.
  assert (Hshape :
    text +:+ String newline ("[SESSION_DATA]" +:+ json_dumps payload +:+ "[/SESSION_DATA]")
    = (text +:+ String newline EmptyString) +:+ "[SESSION_DATA]"
      +:+ json_dumps payload +:+ "[/SESSION_DATA]" +:+ EmptyString).
  { rewrite sapp_assoc. reflexivity. }
  rewrite Hshape.
  rewrite (session_block_extracted (text +:+ String newline EmptyString)
             "[SESSION_DATA]" (json_dumps payload) "[/SESSION_DATA]" EmptyString
             decoded eq_refl eq_refl Hbody); [| |exact Hjson].
  - rewrite sapp_nil_r. f_equal. now apply strip_app_space.
  - rewrite sapp_nil_r.
    apply (find_lit_none_app_newline true (open_tag SESSION_DATA)
             (open_tag_nonempty SESSION_DATA) eq_refl);
      [exact Htext | reflexivity].
Qed.

Definition sample_dumps (payload : dict) : string :=
  "{" +:+ quoted "last_detail_id" +:+ ": " +:+ quoted "nft-7" +:+ "}".

Lemma session_data_line_read_back_witness :
  _extract_and_strip_session_data
    ("<b>details</b>" +:+ Tools._session_data_line sample_dumps
                            [("last_detail_id", JStr "nft-7")])
  = ([("last_detail_id", JStr "nft-7")], "<b>details</b>").
Proof.
  exact (session_data_line_read_back sample_dumps "<b>details</b>"
           [("last_detail_id", JStr "nft-7")] [("last_detail_id", JStr "nft-7")]
           eq_refl eq_refl eq_refl).
Defined.

(* ===================================================================== *)
(** * Properties of the block parser                                      *)
(* ===================================================================== *)

Import Parser Turn.

Section ParserFacts.

Fixpoint all_word (s : string) : bool :=
  match s with
  | EmptyString => true
  | String c s' => isword c && all_word s'
  end.

(** What [parse] emits besides its fallback: a text block with stripped,
    non-empty markdown, or a component block with a non-empty template of
    word characters and stripped html. *)
Definition well_formed_block (b : ContentBlock) : Prop :=
  (exists m, b = text_block m /\ m <> EmptyString /\ strip m = m)
  \/ (exists t h, b = component_block t h /\ t <> EmptyString
                  /\ all_word t = true /\ strip h = h).

Lemma span_word_split : forall s w r,
  span_word s = (w, r) -> s = w +:+ r /\ all_word w = true.
Proof.
  induction s as [|c s IH]; intros w r H; cbn [span_word] in H.
  - injection H as <- <-. auto.
  - destruct (isword c) eqn:E.
    + destruct (span_word s) as [w' r'] eqn:E'. injection H as <- <-.
      destruct (IH w' r' eq_refl) as [-> Hw]. cbn [all_word].
      now rewrite E, Hw.
    + injection H as <- <-. auto.
Qed.

Lemma match_component_split s t body rest :
  match_component s = Some (t, body, rest) ->
  t <> EmptyString /\ all_word t = true
  /\ exists a b, s = a +:+ body +:+ b +:+ rest.
Proof.
  unfold match_component. intros H.
  destruct (match_lit false HTML_START s) as [r|] eqn:E1; [|discriminate].
  destruct (span_word r) as [w r1] eqn:E2.
  destruct (is_empty w) eqn:E3; [discriminate|].
  destruct (match_lit false "-->" r1) as [r2|] eqn:E4; [|discriminate].
  destruct (find_lit false HTML_END r2) as [[b0 rest0]|] eqn:E5; [|discriminate].
  injection H as <- <- <-.
  destruct (span_word_split _ _ _ E2) as [-> Hw].
  destruct (match_lit_split _ _ _ _ E1) as (o1 & -> & _).
  destruct (match_lit_split _ _ _ _ E4) as (o2 & -> & _).
  destruct (find_lit_split _ _ _ _ _ E5) as (m & -> & Hm).
  destruct (match_lit_split _ _ _ _ Hm) as (o3 & -> & _).
  split; [now destruct w|]. split; [exact Hw|].
  exists (o1 +:+ w +:+ o2), o3. now rewrite !sapp_assoc.
Qed.

Lemma search_component_split : forall s pre t body rest,
  search_component s = Some (pre, t, body, rest) ->
  t <> EmptyString /\ all_word t = true
  /\ exists a b, s = pre +:+ a +:+ body +:+ b +:+ rest.
Proof.
  induction s as [|c s IH]; intros pre t body rest H; cbn [search_component] in H.
  - destruct (match_component EmptyString) as [[[t0 b0] r0]|] eqn:E; [|discriminate].
    injection H as <- <- <- <-. exact (match_component_split _ _ _ _ E).
  - destruct (match_component (String c s)) as [[[t0 b0] r0]|] eqn:E.
    + injection H as <- <- <- <-. exact (match_component_split _ _ _ _ E).
    + destruct (search_component s) as [[[[p0 t0] b0] r0]|] eqn:F; [|discriminate].
      injection H as <- <- <- <-.
      destruct (IH _ _ _ _ eq_refl) as (Ht & Hw & a & b & ->).
      split; [exact Ht|]. split; [exact Hw|]. now exists a, b.
Qed.

Lemma search_component_none : forall s,
  find_lit false HTML_START s = None -> search_component s = None.
Proof.
  assert (Hat : forall s, find_lit false HTML_START s = None ->
                          match_component s = None).
  { intros s H. unfold match_component.
    now rewrite (find_lit_none_match _ _ _ H). }
  induction s as [|c s IH]; intros H; cbn [search_component]; rewrite (Hat _ H);
    [reflexivity|].
  now rewrite (IH (find_lit_none_tail _ _ _ _ H)).
Qed.

Lemma text_if_any_well_formed s : Forall well_formed_block (text_if_any s).
Proof.
  unfold text_if_any. cbv zeta. destruct (is_empty (strip s)) eqn:E;
    [constructor|].
  constructor; [|constructor]. left. exists (strip s).
  split; [reflexivity|]. split; [|apply strip_idem].
  intros H. rewrite H in E. discriminate.
Qed.

Lemma parse_loop_well_formed : forall fuel s,
  Forall well_formed_block (parse_loop fuel s).
Proof.
  induction fuel as [|fuel IH]; intros s; cbn [parse_loop];
    [apply text_if_any_well_formed|].
  destruct (search_component s) as [[[[pre t] body] rest]|] eqn:E;
    [|apply text_if_any_well_formed].
  destruct (search_component_split _ _ _ _ _ E) as (Ht & Hw & _).
  apply Forall_app. split; [apply text_if_any_well_formed|].
  constructor; [|apply IH]. right. exists t, (strip body).
  repeat split; [exact Ht | exact Hw | apply strip_idem].
Qed.

Lemma parse_loop_nil fuel s : parse_loop fuel s = [] -> strip s = EmptyString.
Proof.
  assert (Htext : text_if_any s = [] -> strip s = EmptyString).
  { unfold text_if_any. cbv zeta. destruct (strip s); [reflexivity | discriminate]. }
  destruct fuel as [|fuel]; cbn [parse_loop]; [exact Htext|].
  destruct (search_component s) as [[[[pre t] body] rest]|]; [|exact Htext].
  intros H. apply app_eq_nil in H as [_ H]. discriminate.
Qed.

Lemma space_not_lt c : isspace c = true -> char_eq false "<" c = false.
Proof.
  destruct c as [[] [] [] [] [] [] [] []]; intros H;
    first [reflexivity | discriminate H].
Qed.

Lemma all_space_no_component : forall s,
  all_space s = true -> find_lit false HTML_START s = None.
Proof.
  induction s as [|c s IH]; intros H; [reflexivity|].
  cbn [all_space] in H. apply andb_true_iff in H as [Hc Hs].
  apply find_lit_none_cons; [|now apply IH].
  unfold HTML_START. cbn [match_lit]. now rewrite (space_not_lt c Hc).
Qed.

Lemma parse_loop_no_component fuel s :
  find_lit false HTML_START s = None -> parse_loop fuel s = text_if_any s.
Proof.
  intros H. destruct fuel; cbn [parse_loop]; [reflexivity|].
  now rewrite (search_component_none s H).
Qed.

End ParserFacts.

(** X5: [parse] never returns the empty list.  For a blank response (empty
    or whitespace only) it returns the single text block holding the
    response as it is; for any other response every block is a text block
    with stripped, non-empty markdown or a component block with a
    non-empty template of word characters and stripped html. *)
Theorem parse_blocks_well_formed (raw : string) :
  parse raw <> []
  /\ (strip raw = EmptyString -> parse raw = [text_block raw])
  /\ (strip raw <> EmptyString -> Forall well_formed_block (parse raw)).
Proof.
  unfold parse. split; [|split].
  - destruct (parse_loop (String.length raw) raw); discriminate.
  - intros Hblank.
    rewrite (parse_loop_no_component _ raw
               (all_space_no_component raw (strip_empty_all_space raw Hblank))).
    unfold text_if_any. cbv zeta. now rewrite Hblank.
  - intros Hvisible.
    destruct (parse_loop (String.length raw) raw) as [|b bs] eqn:E.
    + apply parse_loop_nil in E. contradiction.
    + rewrite <- E. apply parse_loop_well_formed.
Qed.

Lemma parse_blocks_well_formed_witness :
  parse "  " = [text_block "  "]
  /\ Forall well_formed_block
       (parse (" intro " +:+ wrap_html "<p>x</p>" "grid" +:+ " outro")).
Proof.
  split.
  - exact (proj1 (proj2 (parse_blocks_well_formed "  ")) eq_refl).
  - apply (proj2 (proj2 (parse_blocks_well_formed
                           (" intro " +:+ wrap_html "<p>x</p>" "grid" +:+ " outro")))).
    discriminate.
Defined.

(** X6: a response without the component start marker becomes one text
    block: its stripped text, or the response itself when it is blank. *)
Theorem parse_without_component (raw : string) :
  find_lit false HTML_START raw = None ->
  parse raw = [text_block (if is_empty (strip raw) then raw else strip raw)].
Proof.
  intros H. unfold parse. rewrite (parse_loop_no_component _ raw H).
  unfold text_if_any. cbv zeta. now destruct (is_empty (strip raw)).
Qed.

Lemma parse_without_component_witness :
  parse " Just **markdown** ::END_HTML--> " = [text_block "Just **markdown** ::END_HTML-->"].
Proof.
  exact (parse_without_component " Just **markdown** ::END_HTML--> " eq_refl).
Defined.

Section WrapFacts.

Lemma span_word_app : forall t c r,
  all_word t = true -> isword c = false ->
  span_word (t +:+ String c r) = (t, String c r).
Proof.
  induction t as [|d t IH]; intros c r Ht Hc.
  - rewrite sapp_nil_l. cbn [span_word]. now rewrite Hc.
  - cbn [all_word] in Ht. apply andb_true_iff in Ht as [Hd Ht].
    rewrite sapp_cons. cbn [span_word]. now rewrite Hd, (IH c r Ht Hc).
Qed.

(** The leftmost occurrence after a line that holds none. *)
Lemma find_lit_after_newline ci pat :
  pat <> EmptyString -> avoids_newline ci pat = true ->
  forall a y b r,
    find_lit ci pat a = None -> find_lit ci pat y = Some (b, r) ->
    find_lit ci pat (a +:+ String newline y) = Some (a +:+ String newline b, r).
Proof.
  intros Hne Hnl. induction a as [|c a IH]; intros y b r Ha Hy.
  - rewrite !sapp_nil_l. cbn [find_lit]. rewrite Hy.
    destruct pat as [|p pat']; [congruence|]. cbn [avoids_newline] in Hnl.
    apply andb_true_iff in Hnl as [Hp _]. apply negb_true_iff in Hp.
    cbn [match_lit]. now rewrite Hp.
  - rewrite !sapp_cons. cbn [find_lit].
    destruct (match_lit ci pat (String c (a +:+ String newline y))) as [r0|] eqn:E.
    + rewrite <- sapp_cons in E.
      destruct (match_lit_across_newline ci pat _ _ _ Hnl E) as [r' Hr'].
      apply find_lit_none_match in Ha. congruence.
    + now rewrite (IH y b r (find_lit_none_tail _ _ _ _ Ha) Hy).
Qed.

Lemma search_component_unfold s :
  search_component s =
  match match_component s with
  | Some (t, body, rest) => Some (EmptyString, t, body, rest)
  | None =>
      match s with
      | EmptyString => None
      | String c s' =>
          match search_component s' with
          | Some (pre, t, body, rest) => Some (String c pre, t, body, rest)
          | None => None
          end
      end
  end.
Proof. destruct s; reflexivity. Qed.

Lemma match_component_wrap html t :
  t <> EmptyString -> all_word t = true ->
  find_lit false HTML_END html = None ->
  match_component (wrap_html html t)
  = Some (t, String newline html +:+ String newline EmptyString, EmptyString).
Proof.
  intros Ht Hw Hhtml. unfold match_component, wrap_html.
  rewrite match_lit_self.
  change ("-->" +:+ String newline html +:+ String newline HTML_END)
    with (String "-" ("->" +:+ String newline html +:+ String newline HTML_END)).
  rewrite (span_word_app t "-" _ Hw eq_refl).
  destruct t as [|c t]; [congruence|]. cbn [is_empty].
  change (String "-" ("->" +:+ String newline html +:+ String newline HTML_END))
    with ("-->" +:+ String newline html +:+ String newline HTML_END).
  rewrite match_lit_self.
  assert (Ha : find_lit false HTML_END (String newline html) = None).
  { apply find_lit_none_cons; [reflexivity | exact Hhtml]. }
  change (String newline html +:+ String newline HTML_END)
    with ((String newline html) +:+ String newline HTML_END).
  now rewrite (find_lit_after_newline false HTML_END ltac:(discriminate) eq_refl
                 (String newline html) HTML_END EmptyString EmptyString Ha eq_refl).
Qed.

End WrapFacts.

(** X7: what a tool wraps, the parser unwraps: for a template of word
    characters and html that does not hold the end marker,
    [parse (wrap_html html t)] is the single component block with template
    [t] and the stripped html. *)
Theorem parse_wrap_html (html t : string) :
  t <> EmptyString -> all_word t = true ->
  find_lit false HTML_END html = None ->
  parse (wrap_html html t) = [component_block t (strip html)].
Proof.
  intros Ht Hw Hhtml. unfold parse.
  assert (Hlen : exists n, String.length (wrap_html html t) = S n).
  { unfold wrap_html. rewrite slength_app. cbn [HTML_START String.length plus].
    eauto. }
  destruct Hlen as [n ->]. cbn [parse_loop].
  rewrite search_component_unfold, (match_component_wrap html t Ht Hw Hhtml).
  assert (Hrest : parse_loop n EmptyString = []) by (destruct n; reflexivity).
  rewrite Hrest.
  assert (Hbody : strip (String newline html +:+ String newline EmptyString)
                  = strip html).
  { rewrite strip_app_space by reflexivity. now apply strip_cons_space. }
  rewrite Hbody. reflexivity.
Qed.

Lemma parse_wrap_html_witness :
  parse (wrap_html " <div class='x'>NFT</div> " "collection_grid")
  = [component_block "collection_grid" "<div class='x'>NFT</div>"].
Proof.
  exact (parse_wrap_html " <div class='x'>NFT</div> " "collection_grid"
           ltac:(discriminate) eq_refl eq_refl).
Defined.

(** ** What the caller of a turn receives *)

Section ReturnedBlocks.

Variable ci : bool.
Variable pat : string.

(** Neither the markdown nor the html of the block holds the literal. *)
Definition block_free (b : ContentBlock) : Prop :=
  find_lit ci pat (str_or_empty (markdown b)) = None
  /\ find_lit ci pat (str_or_empty (html b)) = None.

Lemma find_lit_none_empty s :
  find_lit ci pat s = None -> find_lit ci pat EmptyString = None.
Proof.
  intros H. apply (find_lit_none_prefix ci pat EmptyString s). exact H.
Qed.

Lemma text_if_any_free s :
  find_lit ci pat s = None -> Forall block_free (text_if_any s).
Proof.
  intros H. unfold text_if_any. cbv zeta.
  destruct (is_empty (strip s)); [constructor|].
  constructor; [|constructor]. split; cbn.
  - now apply find_lit_none_strip.
  - exact (find_lit_none_empty s H).
Qed.

(** The blocks are cut out of the text: they hold no literal the text does
    not hold. *)
Lemma parse_loop_free : forall fuel s,
  find_lit ci pat s = None -> Forall block_free (parse_loop fuel s).
Proof.
  induction fuel as [|fuel IH]; intros s H; cbn [parse_loop];
    [now apply text_if_any_free|].
  destruct (search_component s) as [[[[pre t] body] rest]|] eqn:E;
    [|now apply text_if_any_free].
  destruct (search_component_split _ _ _ _ _ E) as (_ & _ & a & b & Hs).
  pose proof (find_lit_none_empty s H) as Hempty.
  rewrite Hs in H.
  pose proof (find_lit_none_prefix _ _ _ _ H) as Hpre.
  apply find_lit_none_suffix, find_lit_none_suffix in H.
  pose proof (find_lit_none_prefix _ _ _ _ H) as Hbody.
  apply find_lit_none_suffix, find_lit_none_suffix in H.
  apply Forall_app. split; [now apply text_if_any_free|].
  constructor; [|now apply IH]. split; cbn.
  - exact Hempty.
  - now apply find_lit_none_strip.
Qed.

Lemma parse_free raw :
  find_lit ci pat raw = None -> Forall block_free (parse raw).
Proof.
  intros H. unfold parse.
  pose proof (parse_loop_free (String.length raw) raw H) as Hloop.
  destruct (parse_loop (String.length raw) raw); [|exact Hloop].
  constructor; [|constructor]. split; cbn;
    [exact H | exact (find_lit_none_empty raw H)].
Qed.

End ReturnedBlocks.

Definition block_no_open_tag (b : ContentBlock) : Prop :=
  no_open_tag (str_or_empty (markdown b)) /\ no_open_tag (str_or_empty (html b)).

Lemma parse_no_open_tag text :
  no_open_tag text -> Forall block_no_open_tag (parse text).
Proof.
  intros (H1 & H2 & H3).
  pose proof (parse_free true _ text H1) as F1.
  pose proof (parse_free true _ text H2) as F2.
  pose proof (parse_free true _ text H3) as F3.
  rewrite Forall_forall in *. intros b Hb.
  destruct (F1 b Hb), (F2 b Hb), (F3 b Hb).
  repeat split; assumption.
Qed.

Lemma sanitize_block_no_open_tag b :
  block_no_open_tag b -> Forall block_no_open_tag (sanitize_block b).
Proof.
  intros Hb. unfold sanitize_block. cbv zeta.
  destruct (String.eqb (type b) "text" && _);
    [|constructor; [exact Hb | constructor]].
  destruct (is_empty _); [constructor|].
  constructor; [|constructor]. split; cbn; [|exact (proj2 Hb)].
  destruct (sanitized_no_open_tag (str_or_empty (markdown b))) as (H1 & H2 & H3).
  repeat split; now apply find_lit_none_strip.
Qed.

(** X8: whatever the agent wrote, no block returned to the caller holds an
    opening tag of the three marker kinds, in any letter case, in its
    markdown or in its html. *)
Theorem returned_blocks_hold_no_open_tag (raw : string) :
  Forall block_no_open_tag (response_blocks raw).
Proof.
  unfold response_blocks, extract_all.
  destruct (_extract_and_strip_session_data raw) as [updates s1].
  destruct (_extract_and_strip_store_personal s1) as [personal s2].
  destruct (_extract_and_strip_store_preference s2) as [prefs s3].
  pose proof (parse_no_open_tag _ (sanitized_no_open_tag s3)) as Hparsed.
  unfold sanitized_blocks.
  induction Hparsed as [|b bs Hb _ IH]; [constructor|].
  cbn [flat_map]. apply Forall_app. split; [|exact IH].
  now apply sanitize_block_no_open_tag.
Qed.

(* ===================================================================== *)
(** * Properties of the repository                                        *)
(* ===================================================================== *)

Import RepoQueries.

(** ** Session state merge *)

(** X9: the merge into an existing session is shallow: afterwards every key
    of the update has the update's value, every other key keeps the value
    the state had, the timestamp is the current time, one commit was made,
    and neither other sessions nor the memories have changed. *)
Theorem session_state_merge_is_shallow (env : Env) (sid : string) (upd : dict)
  (db : DB) (s : Session) :
  get_session db sid = Some s ->
  List.NoDup (keys upd) ->
  let db' := update_session_state env sid upd db in
  let old := match state s with Some d => d | None => [] end in
  exists merged,
    get_session db' sid =
      Some (mkSession (session_id s) (session_user_id s) (title s) (is_active s)
              (session_created_at s) (utcnow env db) (Some merged))
    /\ (forall k, dict_get k merged =
                  match dict_get k upd with
                  | Some v => Some v
                  | None => dict_get k old
                  end)
    /\ commits db' = S (commits db)
    /\ memories db' = memories db
    /\ (forall other, other <> sid -> get_session db' other = get_session db other).
Proof.
  intros Hs Hnd db' old. subst db'.
  rewrite (update_session_state_found env sid upd db s Hs).
  exists (dict_update old upd). unfold get_session. simpl.
  split; [apply lookup_insert_eq|].
  split; [intros k; now apply dict_get_update|].
  repeat split. intros other Hne. apply lookup_insert_ne. congruence.
Qed.

Lemma session_state_merge_is_shallow_witness :
  exists merged,
    get_session
      (update_session_state env0 "s1" [("y", JInt 3); ("x", JInt 7)] db0) "s1"
    = Some (mkSession "s1" "u1" None true 10 1000 (Some merged))
    /\ dict_get "x" merged = Some (JInt 7)
    /\ dict_get "y" merged = Some (JInt 3).
Proof.
  assert (Hnd : List.NoDup (keys [("y", JInt 3); ("x", JInt 7)])).
  { repeat constructor; simpl; intuition discriminate. }
  destruct (session_state_merge_is_shallow env0 "s1" [("y", JInt 3); ("x", JInt 7)]
              db0 session0 eq_refl Hnd) as (merged & Hget & Hkeys & _).
  exists merged. split; [exact Hget|].
  split; [exact (Hkeys "x") | exact (Hkeys "y")].
Defined.

(** ** User memory: one record per (user, key) *)

(** At most one record for every (user, key). *)
Definition unique_keys (db : DB) : Prop :=
  forall u k, length (List.filter (same_user_key u k) (memories db)) <= 1.

Section UniqueFacts.

Variable env : Env.

Lemma same_user_key_eq u k m :
  same_user_key u k m = true <-> user_id m = u /\ key m = k.
Proof.
  unfold same_user_key. rewrite andb_true_iff, !String.eqb_eq. tauto.
Qed.

Lemma filter_touch_other u k u' k' v c now (l : list Memory) :
  (u', k') <> (u, k) ->
  List.filter (same_user_key u' k')
    (map (fun m => if same_user_key u k m then touch v c now m else m) l)
  = List.filter (same_user_key u' k') l.
Proof.
  intros Hne. induction l as [|x l IH]; [reflexivity|]. cbn [map List.filter].
  rewrite IH. destruct (same_user_key u k x) eqn:E; [|reflexivity].
  rewrite same_user_key_touch.
  destruct (same_user_key u' k' x) eqn:E'; [|reflexivity].
  apply same_user_key_eq in E as [<- <-]. apply same_user_key_eq in E' as [<- <-].
  congruence.
Qed.

Lemma filter_none_length {A} (f : A -> bool) (l : list A) :
  length (List.filter f l) <= 1 ->
  List.filter f l = [] \/ exists m, List.filter f l = [m].
Proof.
  destruct (List.filter f l) as [|m [|m' rest]]; simpl; intros H;
    [now left | right; eauto | lia].
Qed.

Lemma unique_keys_from u k (ms ms' : list Memory) row :
  (forall u' k', length (List.filter (same_user_key u' k') ms) <= 1) ->
  List.filter (same_user_key u k) ms' = [row] ->
  (forall u' k', (u', k') <> (u, k) ->
     List.filter (same_user_key u' k') ms' = List.filter (same_user_key u' k') ms) ->
  forall u' k', length (List.filter (same_user_key u' k') ms') <= 1.
Proof.
  intros Huniq Hrow Hother u' k'.
  destruct (string_dec u' u) as [->|Hu];
    [destruct (string_dec k' k) as [->|Hk]|].
  - rewrite Hrow. simpl. lia.
  - rewrite Hother by congruence. apply Huniq.
  - rewrite Hother by congruence. apply Huniq.
Qed.

(** An upsert on a uniquely keyed store. *)
Lemma upsert_memory_unique u t k v c db :
  unique_keys db ->
  exists row db',
    upsert_memory env u t k v c db = Ok (row, db')
    /\ unique_keys db'
    /\ List.filter (same_user_key u k) (memories db') = [row]
    /\ value row = v /\ confidence row = c
    /\ (List.filter (same_user_key u k) (memories db) = [] ->
          created_at row = utcnow env db
          /\ updated_at row = utcnow env (tick db)
          /\ ticks db' = 2 + ticks db)
    /\ (forall m, List.filter (same_user_key u k) (memories db) = [m] ->
          created_at row = created_at m
          /\ updated_at row = utcnow env db
          /\ ticks db' = 1 + ticks db)
    /\ (forall u' k', (u', k') <> (u, k) ->
          List.filter (same_user_key u' k') (memories db')
          = List.filter (same_user_key u' k') (memories db)).
Proof.
  intros Huniq.
  destruct (filter_none_length _ _ (Huniq u k)) as [Hnone | [m Hm]].
  - rewrite (upsert_memory_fresh env u t k v c db Hnone). cbv zeta.
    set (row := mkMemory (uuid4 env (draws db)) u t k v c "conversation"
                  (utcnow env db) (utcnow env (tick db))).
    set (db' := commit _).
    assert (Hmem : memories db' = (memories db ++ [row])%list) by reflexivity.
    assert (Hrow : List.filter (same_user_key u k) (memories db') = [row]).
    { rewrite Hmem, List.filter_app, Hnone. cbn [List.filter app].
      subst row. now rewrite same_user_key_refl. }
    assert (Hother : forall u' k', (u', k') <> (u, k) ->
              List.filter (same_user_key u' k') (memories db')
              = List.filter (same_user_key u' k') (memories db)).
    { intros u' k' Hne. rewrite Hmem, List.filter_app. cbn [List.filter].
      destruct (same_user_key u' k' row) eqn:E; [|apply app_nil_r].
      apply same_user_key_eq in E as [E1 E2]. subst row. cbn in E1, E2.
      congruence. }
    exists row, db'. split; [reflexivity|].
    split; [exact (unique_keys_from u k _ _ row Huniq Hrow Hother)|].
    split; [exact Hrow|]. split; [reflexivity|]. split; [reflexivity|].
    split; [intros _; repeat split|].
    split; [intros m Hm; rewrite Hnone in Hm; discriminate Hm | exact Hother].
  - rewrite (upsert_memory_existing env u t k v c db m Hm).
    set (row := touch v c (utcnow env db) m).
    set (db' := commit _).
    assert (Hmem : memories db'
                   = map (fun r => if same_user_key u k r
                                   then touch v c (utcnow env db) r else r)
                         (memories db)) by reflexivity.
    assert (Hrow : List.filter (same_user_key u k) (memories db') = [row]).
    { rewrite Hmem, filter_touch_matching, Hm. reflexivity. }
    assert (Hother : forall u' k', (u', k') <> (u, k) ->
              List.filter (same_user_key u' k') (memories db')
              = List.filter (same_user_key u' k') (memories db)).
    { intros u' k' Hne. rewrite Hmem. now apply filter_touch_other. }
    exists row, db'. split; [reflexivity|].
    split; [exact (unique_keys_from u k _ _ row Huniq Hrow Hother)|].
    split; [exact Hrow|]. split; [reflexivity|]. split; [reflexivity|].
    split; [intros Hnone; rewrite Hnone in Hm; discriminate Hm|].
    split; [|exact Hother].
    intros m' Hm'. rewrite Hm in Hm'. injection Hm' as <-. repeat split.
Qed.

Lemma filter_filter_neg {A} (f : A -> bool) (l : list A) :
  List.filter f (List.filter (fun x => negb (f x)) l) = [].
Proof.
  induction l as [|x l IH]; [reflexivity|]. simpl.
  destruct (f x) eqn:E; simpl; [exact IH|]. now rewrite E.
Qed.

Lemma filter_filter_other u k u' k' (l : list Memory) :
  (u', k') <> (u, k) ->
  List.filter (same_user_key u' k')
    (List.filter (fun m => negb (same_user_key u k m)) l)
  = List.filter (same_user_key u' k') l.
Proof.
  intros Hne. induction l as [|x l IH]; [reflexivity|]. simpl.
  destruct (same_user_key u k x) eqn:E; simpl.
  - destruct (same_user_key u' k' x) eqn:E'; [|exact IH].
    apply same_user_key_eq in E as [<- <-]. apply same_user_key_eq in E' as [<- <-].
    congruence.
  - now rewrite IH.
Qed.

Lemma filter_neg_all {A} (f : A -> bool) (l : list A) :
  List.filter f l = [] -> List.filter (fun x => negb (f x)) l = l.
Proof.
  induction l as [|x l IH]; [reflexivity|]. simpl.
  destruct (f x); simpl; [discriminate|]. intros H. now rewrite (IH H).
Qed.

End UniqueFacts.

(** X10: on a store with at most one record per (user, key), an upsert
    never raises, leaves exactly one record for its (user, key), holding
    the new value and confidence, keeps the store uniquely keyed, and
    changes no record of any other (user, key).  A new record takes its two
    timestamps from two successive readings of the clock, [created_at]
    first; an existing record keeps [created_at] and takes [updated_at]
    from the one reading of the call. *)
Theorem upsert_keeps_one_record_per_key (env : Env) (u t k v : string) (c : Q)
  (db : DB) :
  unique_keys db ->
  exists row db',
    upsert_memory env u t k v c db = Ok (row, db')
    /\ unique_keys db'
    /\ List.filter (same_user_key u k) (memories db') = [row]
    /\ value row = v /\ confidence row = c
    /\ (List.filter (same_user_key u k) (memories db) = [] ->
          created_at row = utcnow env db
          /\ updated_at row = utcnow env (tick db)
          /\ ticks db' = 2 + ticks db)
    /\ (forall m, List.filter (same_user_key u k) (memories db) = [m] ->
          created_at row = created_at m
          /\ updated_at row = utcnow env db
          /\ ticks db' = 1 + ticks db)
    /\ (forall u' k', (u', k') <> (u, k) ->
          List.filter (same_user_key u' k') (memories db')
          = List.filter (same_user_key u' k') (memories db)).
Proof. apply upsert_memory_unique. Qed.

Lemma db0_unique_keys : unique_keys db0.
Proof.
  intros u k. unfold db0, same_user_key. cbn [memories List.filter].
  cbn [user_id key memory0 memory1 memory2].
  destruct (String.eqb_spec "u1" u); destruct (String.eqb_spec "u2" u);
    destruct (String.eqb_spec "display_name" k);
    destruct (String.eqb_spec "preferred_view" k);
    try congruence; cbn; lia.
Defined.

Lemma upsert_keeps_one_record_per_key_witness :
  exists row db',
    upsert_memory env0 "u2" "preference" "preferred_view" "table" 1 db0
    = Ok (row, db')
    /\ List.filter (same_user_key "u2" "preferred_view") (memories db') = [row]
    /\ value row = "table"
    /\ created_at row = 1000%Z /\ updated_at row = 1001%Z.
Proof.
  destruct (upsert_keeps_one_record_per_key env0 "u2" "preference" "preferred_view"
              "table" 1%Q db0 db0_unique_keys)
    as (row & db' & Hrun & _ & Hrow & Hval & _ & Hnew & _).
  destruct (Hnew eq_refl) as (Hcreated & Hupdated & _).
  exists row, db'. auto.
Defined.

(** ** Deleting records *)

Section DeleteFacts.

Variable env : Env.

Lemma same_user_type_eq u t m :
  same_user_type u t m = true <-> user_id m = u /\ memory_type m = t.
Proof.
  unfold same_user_type. rewrite andb_true_iff, !String.eqb_eq. tauto.
Qed.

Lemma filter_nil_iff {A} (f : A -> bool) (l : list A) :
  List.filter f l = [] <-> forall x, In x l -> f x = false.
Proof.
  induction l as [|x l IH]; simpl.
  - split; [intros _ y [] | reflexivity].
  - destruct (f x) eqn:E.
    + split; [discriminate|]. intros H. specialize (H x (or_introl eq_refl)).
      congruence.
    + rewrite IH. split.
      * intros H y [<- | Hy]; auto.
      * intros H y Hy. apply H. now right.
Qed.

Lemma filter_length_split {A} (f : A -> bool) (l : list A) :
  length l = length (List.filter f l)
             + length (List.filter (fun x => negb (f x)) l).
Proof.
  induction l as [|x l IH]; [reflexivity|]. simpl.
  destruct (f x); simpl; lia.
Qed.

(** A deletion by (user, key) on a uniquely keyed store. *)
Lemma delete_memory_unique u k db :
  unique_keys db ->
  exists b db',
    delete_memory u k db = Ok (b, db')
    /\ (b = true <-> exists m, In m (memories db) /\ user_id m = u /\ key m = k)
    /\ List.filter (same_user_key u k) (memories db') = []
    /\ (forall u' k', (u', k') <> (u, k) ->
          List.filter (same_user_key u' k') (memories db')
          = List.filter (same_user_key u' k') (memories db))
    /\ unique_keys db'
    /\ (b = false -> db' = db).
Proof.
  intros Huniq. unfold delete_memory.
  destruct (filter_none_length _ _ (Huniq u k)) as [Hnone | [m Hm]].
  - rewrite Hnone. cbn [scalar_one_or_none]. exists false, db.
    split; [reflexivity|]. split.
    { split; [discriminate|]. intros (m & Hin & Hu & Hk).
      pose proof (proj1 (filter_nil_iff _ _) Hnone m Hin) as Hf.
      assert (Ht : same_user_key u k m = true) by now apply same_user_key_eq.
      congruence. }
    split; [exact Hnone|]. split; [reflexivity|]. split; [exact Huniq|reflexivity].
  - rewrite Hm. cbn [scalar_one_or_none].
    set (db' := commit _).
    assert (Hmem : memories db'
                   = List.filter (fun r => negb (same_user_key u k r)) (memories db))
      by reflexivity.
    exists true, db'. split; [reflexivity|]. split.
    { split; [|reflexivity]. intros _. exists m.
      assert (Hin : In m (List.filter (same_user_key u k) (memories db)))
        by (rewrite Hm; now left).
      apply List.filter_In in Hin as [Hin Hf].
      apply same_user_key_eq in Hf. tauto. }
    split; [rewrite Hmem; apply filter_filter_neg|].
    assert (Hother : forall u' k', (u', k') <> (u, k) ->
              List.filter (same_user_key u' k') (memories db')
              = List.filter (same_user_key u' k') (memories db)).
    { intros u' k' Hne. rewrite Hmem. now apply filter_filter_other. }
    split; [exact Hother|]. split; [|discriminate].
    intros u' k'. destruct (string_dec u' u) as [->|Hu];
      [destruct (string_dec k' k) as [->|Hk]|].
    + rewrite Hmem, filter_filter_neg. simpl. lia.
    + rewrite Hother by congruence. apply Huniq.
    + rewrite Hother by congruence. apply Huniq.
Qed.

End DeleteFacts.

(** X11: on a store with at most one record per (user, key), a deletion by
    (user, key) never raises; it answers true exactly when the user had a
    record under that key, leaves no record of that (user, key), changes no
    record of any other (user, key), keeps the store uniquely keyed, and
    leaves the database as it was when it answers false. *)
Theorem delete_memory_removes_the_record (u k : string) (db : DB) :
  unique_keys db ->
  exists b db',
    delete_memory u k db = Ok (b, db')
    /\ (b = true <-> exists m, In m (memories db) /\ user_id m = u /\ key m = k)
    /\ List.filter (same_user_key u k) (memories db') = []
    /\ (forall u' k', (u', k') <> (u, k) ->
          List.filter (same_user_key u' k') (memories db')
          = List.filter (same_user_key u' k') (memories db))
    /\ unique_keys db'
    /\ (b = false -> db' = db).
Proof. apply delete_memory_unique. Qed.

Lemma delete_memory_removes_the_record_witness :
  exists db',
    delete_memory "u1" "display_name" db0 = Ok (true, db')
    /\ List.filter (same_user_key "u1" "display_name") (memories db') = []
    /\ List.filter (same_user_key "u2" "display_name") (memories db') = [memory2].
Proof.
  destruct (delete_memory_removes_the_record "u1" "display_name" db0
              db0_unique_keys)
    as (b & db' & Hrun & _ & Hgone & Hother & _).
  exists db'.
  assert (Hb : b = true) by (vm_compute in Hrun; congruence).
  subst b. split; [exact Hrun|]. split; [exact Hgone|].
  rewrite (Hother "u2" "display_name") by discriminate. reflexivity.
Defined.

(** X12: storing a value under a key the user has no record for and then
    deleting that key gives back the list of records as it was: the
    deletion finds the new record, answers true, and removes only it; the
    sessions are untouched and two transactions were committed. *)
Theorem upsert_then_delete_restores (env : Env) (u t k v : string) (c : Q)
  (db : DB) :
  List.filter (same_user_key u k) (memories db) = [] ->
  exists row db1 db2,
    upsert_memory env u t k v c db = Ok (row, db1)
    /\ In row (memories db1)
    /\ delete_memory u k db1 = Ok (true, db2)
    /\ memories db2 = memories db
    /\ sessions db2 = sessions db
    /\ commits db2 = 2 + commits db.
Proof.
  intros Hnone. rewrite (upsert_memory_fresh env u t k v c db Hnone). cbv zeta.
  set (row := mkMemory (uuid4 env (draws db)) u t k v c "conversation"
                (utcnow env db) (utcnow env (tick db))).
  set (db1 := commit _).
  assert (Hmem : memories db1 = (memories db ++ [row])%list) by reflexivity.
  assert (Hself : same_user_key u k row = true) by apply same_user_key_refl.
  assert (Hrow : List.filter (same_user_key u k) (memories db1) = [row]).
  { rewrite Hmem, List.filter_app, Hnone. cbn [List.filter app].
    now rewrite Hself. }
  eexists row, db1, _. split; [reflexivity|].
  split; [rewrite Hmem; apply in_or_app; right; now left|].
  split; [unfold delete_memory; rewrite Hrow; reflexivity|].
  split; [|split; reflexivity].
  cbn [memories commit with_memories]. rewrite Hmem, List.filter_app.
  rewrite (filter_neg_all _ _ Hnone). cbn [List.filter]. rewrite Hself.
  apply app_nil_r.
Qed.

Lemma upsert_then_delete_restores_witness :
  exists row db1 db2,
    upsert_memory env0 "u2" "preference" "preferred_view" "grid" 1 db0
      = Ok (row, db1)
    /\ delete_memory "u2" "preferred_view" db1 = Ok (true, db2)
    /\ memories db2 = memories db0.
Proof.
  destruct (upsert_then_delete_restores env0 "u2" "preference" "preferred_view"
              "grid" 1%Q db0 eq_refl)
    as (row & db1 & db2 & Hup & _ & Hdel & Hmem & _).
  exists row, db1, db2. auto.
Defined.

(** X13: deleting the records of one type of one user returns the number
    of records removed; what is left is exactly the other records, in
    their order; a commit is made only when something was removed; and a
    second call finds nothing, returns 0 and changes nothing. *)
Theorem delete_by_type_counts_and_settles (u t : string) (db : DB) :
  let n := fst (delete_memories_by_type u t db) in
  let db' := snd (delete_memories_by_type u t db) in
  length (memories db) = n + length (memories db')
  /\ (forall m, In m (memories db')
                <-> In m (memories db) /\ ~ (user_id m = u /\ memory_type m = t))
  /\ (forall f, (forall m, f m = true -> same_user_type u t m = false) ->
        List.filter f (memories db') = List.filter f (memories db))
  /\ commits db' = (match n with 0 => commits db | S _ => S (commits db) end)
  /\ sessions db' = sessions db
  /\ delete_memories_by_type u t db' = (0, db').
Proof.
  cbv zeta. unfold delete_memories_by_type. cbn [fst snd].
  set (gone := List.filter (same_user_type u t) (memories db)).
  set (kept := List.filter (fun m => negb (same_user_type u t m)) (memories db)).
  assert (Hmem : memories (match gone with
                           | [] => with_memories db kept
                           | _ :: _ => commit (with_memories db kept)
                           end) = kept) by (destruct gone; reflexivity).
  rewrite Hmem.
  split; [apply filter_length_split|].
  split.
  { intros m. unfold kept. rewrite List.filter_In, negb_true_iff.
    rewrite <- same_user_type_eq.
    destruct (same_user_type u t m); intuition congruence. }
  split.
  { intros f Hf. unfold kept. clear Hmem gone kept.
    induction (memories db) as [|x l IH]; [reflexivity|]. simpl.
    destruct (same_user_type u t x) eqn:E; simpl.
    - destruct (f x) eqn:Ef; [|exact IH]. rewrite (Hf x Ef) in E. discriminate.
    - now rewrite IH. }
  split; [destruct gone; reflexivity|].
  split; [destruct gone; reflexivity|].
  assert (Hnone : List.filter (same_user_type u t) kept = [])
    by apply filter_filter_neg.
  rewrite Hnone. cbn [length]. f_equal.
  rewrite (filter_neg_all _ _ Hnone).
  destruct gone; reflexivity.
Qed.

(* ===================================================================== *)
(** * What a turn of the memory policy writes                             *)
(* ===================================================================== *)

Import MemoryValues.

(** The values a record may hold under the keys that have a value tuple;
    other keys hold free text. *)
Definition value_allowed (k v : string) : Prop :=
  (k = KEY_PREFERRED_VIEW -> In v VIEW_VALUES)
  /\ (k = KEY_DETAIL_LEVEL -> In v DETAIL_LEVEL_VALUES)
  /\ (k = KEY_RESPONSE_FORMAT -> In v RESPONSE_FORMAT_VALUES)
  /\ (k = KEY_PRIMARY_INTENT -> In v INTENT_VALUES).

Definition values_allowed (db : DB) : Prop :=
  forall m, In m (memories db) -> value_allowed (key m) (value m).

Section PolicyWrites.

Variable env : Env.
Variable py_str : json -> string.

(** A step made of upserts for user [u] whose (type, key, value) satisfy
    [ok], run one after the other. *)
Inductive writes (u : string) (ok : string -> string -> string -> Prop)
  : step -> Prop :=
| writes_skip : writes u ok skip
| writes_upsert t k v : ok t k v -> writes u ok (upsert env u t k v)
| writes_seq a b : writes u ok a -> writes u ok b -> writes u ok (a >>> b).

Lemma writes_mono u (ok ok' : string -> string -> string -> Prop) s :
  (forall t k v, ok t k v -> ok' t k v) -> writes u ok s -> writes u ok' s.
Proof.
  intros Himp H. induction H; [apply writes_skip | apply writes_upsert; auto
                              | apply writes_seq; auto].
Qed.

(** An invariant kept by every upsert of the step is kept by the step,
    whether it ends normally or with an exception. *)
Lemma writes_invariant u ok (I : DB -> Prop) s :
  (forall t k v db, ok t k v -> I db -> I (final (upsert env u t k v db))) ->
  writes u ok s -> forall db, I db -> I (final (s db)).
Proof.
  intros Hup H. induction H as [|t k v Hok|a b Ha IHa Hb IHb]; intros db Hdb.
  - exact Hdb.
  - now apply Hup.
  - unfold and_then. specialize (IHa db Hdb).
    destruct (a db) as [db1|e db1]; simpl in *; auto.
Qed.

Lemma str_in_In s l : Policy.str_in s l = true -> In s l.
Proof.
  unfold Policy.str_in. rewrite existsb_exists.
  intros (x & Hin & Hx). apply String.eqb_eq in Hx. now subst.
Qed.

(** The writes of each part of the policy. *)
Definition key_write (t0 k0 : string) (t k v : string) : Prop :=
  t = t0 /\ k = k0.

Definition enum_write (t0 k0 : string) (allowed : list string) (t k v : string)
  : Prop :=
  t = t0 /\ k = k0 /\ In v allowed.

Definition later_write (t k v : string) : Prop :=
  enum_write MEMORY_TYPE_PREFERENCE KEY_PREFERRED_VIEW VIEW_VALUES t k v
  \/ enum_write MEMORY_TYPE_PREFERENCE KEY_DETAIL_LEVEL DETAIL_LEVEL_VALUES t k v
  \/ enum_write MEMORY_TYPE_PREFERENCE KEY_RESPONSE_FORMAT RESPONSE_FORMAT_VALUES
       t k v
  \/ enum_write MEMORY_TYPE_PREFERENCE KEY_STYLE_PREFERENCE ["minimal"; "rich"]
       t k v
  \/ enum_write MEMORY_TYPE_INTENT KEY_PRIMARY_INTENT INTENT_VALUES t k v
  \/ key_write MEMORY_TYPE_INTENT KEY_INTEREST_COLLECTIONS t k v
  \/ key_write MEMORY_TYPE_INTENT KEY_PRICE_RANGE_INTEREST t k v.

Definition policy_write (t k v : string) : Prop :=
  key_write MEMORY_TYPE_PERSONAL KEY_DISPLAY_NAME t k v
  \/ key_write MEMORY_TYPE_PERSONAL KEY_TIMEZONE t k v
  \/ key_write MEMORY_TYPE_PERSONAL KEY_LANGUAGE t k v
  \/ later_write t k v.

Lemma personal_from_message_writes u msg :
  writes u (key_write MEMORY_TYPE_PERSONAL KEY_DISPLAY_NAME)
    (personal_from_message env u msg).
Proof.
  unfold personal_from_message.
  destruct (first_name_match NAME_PATTERNS msg) as [name|]; [|apply writes_skip].
  destruct (_ && _); [|apply writes_skip].
  apply writes_upsert. now split.
Qed.

Lemma personal_from_directive_writes u personal k limit :
  writes u (key_write MEMORY_TYPE_PERSONAL k)
    (personal_from_directive env py_str u personal k limit).
Proof.
  unfold personal_from_directive.
  destruct (dict_get k personal) as [v|]; [|apply writes_skip].
  destruct (truthy v); [|apply writes_skip].
  apply writes_upsert. now split.
Qed.

Lemma preference_dimension_writes u prefs k allowed fallback :
  (forall v, fallback = Some v -> In v allowed) ->
  writes u (enum_write MEMORY_TYPE_PREFERENCE k allowed)
    (preference_dimension env py_str u prefs k allowed fallback).
Proof.
  intros Hfb. unfold preference_dimension. cbv zeta.
  destruct (get_or (dict_get k prefs) (dict_get k prefs)) as [x|].
  - destruct (truthy x && Policy.str_in (lower (py_str x)) allowed) eqn:E.
    + apply andb_true_iff in E as [_ E]. apply writes_upsert.
      repeat split. now apply str_in_In.
    + destruct fallback as [v|]; [|apply writes_skip].
      apply writes_upsert. repeat split. now apply Hfb.
  - destruct fallback as [v|]; [|apply writes_skip].
    apply writes_upsert. repeat split. now apply Hfb.
Qed.

Lemma upsert_if_writes u t k allowed o :
  (forall v, o = Some v -> In v allowed) ->
  writes u (enum_write t k allowed) (upsert_if env u t k o).
Proof.
  intros Ho. destruct o as [v|]; [|apply writes_skip].
  apply writes_upsert. repeat split. now apply Ho.
Qed.

Ltac one_of_the_values :=
  let v := fresh "v" in
  let H := fresh "H" in
  intros v H;
  repeat match type of H with
         | (if ?c then _ else _) = _ => destruct c
         end;
  inversion H; subst; simpl; tauto.

Lemma view_fallback_values m v :
  view_fallback m = Some v -> In v VIEW_VALUES.
Proof. revert v. unfold view_fallback. one_of_the_values. Qed.

Lemma detail_fallback_values m v :
  detail_fallback m = Some v -> In v DETAIL_LEVEL_VALUES.
Proof. revert v. unfold detail_fallback. one_of_the_values. Qed.

Lemma format_fallback_values m v :
  format_fallback m = Some v -> In v RESPONSE_FORMAT_VALUES.
Proof. revert v. unfold format_fallback. one_of_the_values. Qed.

Lemma style_from_message_values m v :
  style_from_message m = Some v -> In v ["minimal"; "rich"].
Proof. revert v. unfold style_from_message. one_of_the_values. Qed.

Lemma intent_from_message_values m v :
  intent_from_message m = Some v -> In v INTENT_VALUES.
Proof. revert v. unfold intent_from_message. one_of_the_values. Qed.

Lemma collection_interest_writes u msg :
  writes u (key_write MEMORY_TYPE_INTENT KEY_INTEREST_COLLECTIONS)
    (collection_interest env u msg).
Proof.
  unfold collection_interest.
  destruct (search true COLLECTION_INTEREST_PATTERN msg) as [m|];
    [|apply writes_skip].
  cbv zeta. destruct (_ <=? _); [|apply writes_skip].
  apply writes_upsert. now split.
Qed.

Lemma price_range_writes u msg :
  writes u (key_write MEMORY_TYPE_INTENT KEY_PRICE_RANGE_INTEREST)
    (price_range env u msg).
Proof.
  unfold price_range.
  destruct (search true PRICE_RANGE_PATTERN msg) as [m|]; [|apply writes_skip].
  apply writes_upsert. now split.
Qed.

Lemma preferences_and_intents_writes u msg msg_lower prefs :
  writes u later_write (preferences_and_intents env py_str u msg msg_lower prefs).
Proof.
  unfold preferences_and_intents.
  apply writes_seq.
  { eapply writes_mono; [|apply preference_dimension_writes,
                            view_fallback_values].
    unfold later_write. tauto. }
  apply writes_seq.
  { eapply writes_mono; [|apply preference_dimension_writes,
                            detail_fallback_values].
    unfold later_write. tauto. }
  apply writes_seq.
  { eapply writes_mono; [|apply preference_dimension_writes,
                            format_fallback_values].
    unfold later_write. tauto. }
  apply writes_seq.
  { eapply writes_mono; [|apply upsert_if_writes, style_from_message_values].
    unfold later_write. tauto. }
  apply writes_seq.
  { eapply writes_mono; [|apply upsert_if_writes, intent_from_message_values].
    unfold later_write. tauto. }
  apply writes_seq.
  { eapply writes_mono; [|apply collection_interest_writes].
    unfold later_write. tauto. }
  eapply writes_mono; [|apply price_range_writes].
  unfold later_write. tauto.
Qed.

(** What follows the name steps of a turn: time zone, language, and the
    preferences and intents behind their gate. *)
Lemma after_name_writes u msg msg_lower personal prefs :
  writes u (fun t k v => key_write MEMORY_TYPE_PERSONAL KEY_TIMEZONE t k v
                         \/ key_write MEMORY_TYPE_PERSONAL KEY_LANGUAGE t k v
                         \/ later_write t k v)
    (personal_from_directive env py_str u personal KEY_TIMEZONE 100 >>>
     personal_from_directive env py_str u personal KEY_LANGUAGE 50 >>>
     (if negb (matches true REMEMBER_ASK_PATTERN msg) && negb (nonempty prefs)
      then skip
      else preferences_and_intents env py_str u msg msg_lower prefs)).
Proof.
  apply writes_seq.
  { eapply writes_mono; [|apply personal_from_directive_writes]. tauto. }
  apply writes_seq.
  { eapply writes_mono; [|apply personal_from_directive_writes]. tauto. }
  destruct (_ && _); [apply writes_skip|].
  eapply writes_mono; [|apply preferences_and_intents_writes]. tauto.
Qed.

(** A turn that is not a request to forget is a series of upserts for the
    user of the turn, each of one of the kinds of [policy_write]. *)
Lemma extract_and_store_memory_writes u message personal prefs :
  matches true DONT_REMEMBER_PERSONAL (strip message) = false ->
  writes u policy_write
    (_extract_and_store_memory env py_str u message personal prefs).
Proof.
  intros Hnot. unfold _extract_and_store_memory. cbv zeta. rewrite Hnot.
  apply writes_seq.
  { eapply writes_mono; [|apply personal_from_message_writes].
    unfold policy_write. tauto. }
  apply writes_seq.
  { eapply writes_mono; [|apply personal_from_directive_writes].
    unfold policy_write. tauto. }
  eapply writes_mono; [|apply after_name_writes]. unfold policy_write. tauto.
Qed.

(** Where the records after an upsert come from. *)
Lemma upsert_rows u t k v db x :
  In x (memories (final (upsert env u t k v db))) ->
  In x (memories db)
  \/ (user_id x = u /\ key x = k /\ value x = v).
Proof.
  unfold upsert, upsert_memory.
  destruct (List.filter (same_user_key u k) (memories db)) as [|m [|m' rest]];
    cbn [scalar_one_or_none final]; [| |now left].
  - cbn [memories commit tick draw with_memories]. intros Hin.
    apply in_app_or in Hin as [Hin | [<- | []]]; [now left|right]. now cbn.
  - cbn [memories commit tick with_memories]. intros Hin.
    apply in_map_iff in Hin as (y & <- & Hy).
    destruct (same_user_key u k y) eqn:E; [right|now left].
    apply same_user_key_eq in E as [E1 E2]. now cbn.
Qed.

(** The records of the other users after an upsert. *)
Lemma upsert_other_users u t k v db u' :
  u' <> u ->
  get_user_memories u' (final (upsert env u t k v db)) = get_user_memories u' db.
Proof.
  intros Hne. unfold upsert, upsert_memory, get_user_memories.
  destruct (List.filter (same_user_key u k) (memories db)) as [|m [|m' rest]];
    cbn [scalar_one_or_none final]; [| |reflexivity].
  - cbn [memories commit tick draw with_memories].
    rewrite List.filter_app. cbn [List.filter user_id].
    destruct (String.eqb_spec u u') as [E|_]; [congruence|]. apply app_nil_r.
  - cbn [memories commit tick with_memories].
    induction (memories db) as [|x l IH]; [reflexivity|]. cbn [map List.filter].
    rewrite IH. destruct (same_user_key u k x) eqn:E; [|reflexivity].
    apply same_user_key_eq in E as [E _]. cbn [touch user_id]. rewrite E.
    destruct (String.eqb_spec u u') as [E'|_]; [congruence|reflexivity].
Qed.

Lemma delete_by_type_keeps (f : Memory -> bool) u t db :
  (forall m, f m = true -> same_user_type u t m = false) ->
  List.filter f (memories (snd (delete_memories_by_type u t db)))
  = List.filter f (memories db).
Proof.
  intros Hf. unfold delete_memories_by_type. cbn [snd].
  assert (H : forall l,
    List.filter f (List.filter (fun m => negb (same_user_type u t m)) l)
    = List.filter f l).
  { induction l as [|x l IH]; [reflexivity|]. simpl.
    destruct (same_user_type u t x) eqn:E; simpl.
    - destruct (f x) eqn:Ef; [|exact IH]. rewrite (Hf x Ef) in E. discriminate.
    - now rewrite IH. }
  destruct (List.filter (same_user_type u t) (memories db)); apply H.
Qed.

Lemma delete_by_type_rows u t db x :
  In x (memories (snd (delete_memories_by_type u t db))) -> In x (memories db).
Proof.
  unfold delete_memories_by_type. cbn [snd].
  destruct (List.filter (same_user_type u t) (memories db));
    cbn [memories commit with_memories]; intros H;
    now apply List.filter_In in H.
Qed.

Lemma filter_filter_length {A} (f g : A -> bool) (l : list A) :
  length (List.filter f (List.filter g l)) <= length (List.filter f l).
Proof.
  induction l as [|x l IH]; [reflexivity|]. simpl.
  destruct (g x), (f x) eqn:E; simpl; rewrite ?E; simpl; lia.
Qed.

Lemma delete_by_type_unique u t db :
  unique_keys db -> unique_keys (snd (delete_memories_by_type u t db)).
Proof.
  intros Huniq u' k'. unfold delete_memories_by_type. cbn [snd].
  assert (H : length (List.filter (same_user_key u' k')
                (List.filter (fun m => negb (same_user_type u t m)) (memories db)))
              <= 1).
  { etransitivity; [apply filter_filter_length | apply Huniq]. }
  destruct (List.filter (same_user_type u t) (memories db)); exact H.
Qed.

(** On a uniquely keyed store a series of upserts runs to its end and
    leaves the store uniquely keyed. *)
Lemma writes_unique u ok s :
  writes u ok s ->
  forall db, unique_keys db -> exists db', s db = Done db' /\ unique_keys db'.
Proof.
  intros H. induction H as [|t k v Hok|a b Ha IHa Hb IHb]; intros db Hdb.
  - exists db. now split.
  - destruct (upsert_memory_unique env u t k v 1%Q db Hdb)
      as (row & db' & Hrun & Huniq & _).
    exists db'. unfold upsert. rewrite Hrun. now split.
  - destruct (IHa db Hdb) as (db1 & Hrun1 & Huniq1).
    destruct (IHb db1 Huniq1) as (db2 & Hrun2 & Huniq2).
    exists db2. unfold and_then. rewrite Hrun1. now split.
Qed.

(** A series of upserts that does not write key [k] leaves the records of
    (user, [k]) as they were. *)
Lemma writes_other_key u ok s k :
  (forall t k' v, ok t k' v -> k' <> k) ->
  writes u ok s ->
  forall db,
    List.filter (same_user_key u k) (memories (final (s db)))
    = List.filter (same_user_key u k) (memories db).
Proof.
  intros Hok H. induction H as [|t k' v Hw|a b Ha IHa Hb IHb]; intros db.
  - reflexivity.
  - specialize (Hok t k' v Hw). unfold upsert, upsert_memory.
    destruct (List.filter (same_user_key u k') (memories db))
      as [|m [|m' rest]] eqn:Hf; cbn [scalar_one_or_none final];
      [| |reflexivity].
    + cbn [memories commit tick draw with_memories].
      rewrite List.filter_app. cbn [List.filter].
      unfold same_user_key at 2. cbn [user_id key].
      destruct (String.eqb_spec k' k) as [E|_]; [congruence|].
      rewrite andb_false_r. apply app_nil_r.
    + cbn [memories commit tick with_memories].
      apply filter_touch_other. congruence.
  - unfold and_then. specialize (IHa db).
    destruct (a db) as [db1|e db1]; cbn [final] in *; [|exact IHa].
    now rewrite IHb.
Qed.

End PolicyWrites.

Section TurnFacts.

Variable env : Env.
Variable py_str : json -> string.

Lemma upsert_sessions u t k v db :
  sessions (final (upsert env u t k v db)) = sessions db.
Proof.
  unfold upsert, upsert_memory.
  destruct (List.filter (same_user_key u k) (memories db)) as [|m [|m' rest]];
    reflexivity.
Qed.

Lemma delete_by_type_sessions u t db :
  sessions (snd (delete_memories_by_type u t db)) = sessions db.
Proof.
  unfold delete_memories_by_type. cbn [snd].
  destruct (List.filter (same_user_type u t) (memories db)); reflexivity.
Qed.

Lemma policy_write_allowed t k v : policy_write t k v -> value_allowed k v.
Proof.
  unfold policy_write, later_write, key_write, enum_write, value_allowed.
  intros H.
  repeat match type of H with
         | _ \/ _ => destruct H as [H|H]
         end;
    repeat match type of H with
           | _ /\ _ => let E := fresh in destruct H as [E H]
           end;
    subst; repeat split; intros E; try discriminate E; auto.
Qed.

Lemma policy_write_not_name t k v :
  key_write MEMORY_TYPE_PERSONAL KEY_TIMEZONE t k v
  \/ key_write MEMORY_TYPE_PERSONAL KEY_LANGUAGE t k v
  \/ later_write t k v ->
  k <> KEY_DISPLAY_NAME.
Proof.
  unfold later_write, key_write, enum_write. intros H.
  repeat match type of H with
         | _ \/ _ => destruct H as [H|H]
         end;
    repeat match type of H with
           | _ /\ _ => let E := fresh in destruct H as [E H]
           end;
    subst; discriminate.
Qed.

End TurnFacts.

(** X14: a turn of the memory policy for one user changes no record of any
    other user, whatever the message and the directives and whether or not
    the turn ends with an exception; the sessions are not touched either. *)
Theorem turn_leaves_other_users (env : Env) (py_str : json -> string)
  (u message : string) (personal prefs : option dict) (db : DB) (u' : string) :
  u' <> u ->
  let db' := final (_extract_and_store_memory env py_str u message personal prefs db)
  in get_user_memories u' db' = get_user_memories u' db
     /\ sessions db' = sessions db.
Proof.
  intros Hne. cbv zeta.
  destruct (matches true DONT_REMEMBER_PERSONAL (strip message)) eqn:E.
  - unfold _extract_and_store_memory. cbv zeta. rewrite E. cbn [final].
    split; [|apply delete_by_type_sessions].
    unfold get_user_memories. apply delete_by_type_keeps.
    intros m Hm. apply String.eqb_eq in Hm.
    destruct (same_user_type u MEMORY_TYPE_PERSONAL m) eqn:Es; [|reflexivity].
    apply same_user_type_eq in Es as [Es _]. congruence.
  - apply (writes_invariant env u policy_write
             (fun d => get_user_memories u' d = get_user_memories u' db
                       /\ sessions d = sessions db)).
    + intros t k v d _ [Hm Hs]. split.
      * now rewrite upsert_other_users.
      * now rewrite upsert_sessions.
    + now apply extract_and_store_memory_writes.
    + now split.
Qed.

Lemma turn_leaves_other_users_witness :
  get_user_memories "u2"
    (final (_extract_and_store_memory env0 py_str_plain "u1"
              "please forget my name" None None db0))
  = [memory2]
  /\ get_user_memories "u2"
       (final (_extract_and_store_memory env0 py_str_plain "u1"
                 "call me Robin" None None db0))
     = [memory2].
Proof.
  split.
  - apply (turn_leaves_other_users env0 py_str_plain "u1" "please forget my name"
             None None db0 "u2"). discriminate.
  - apply (turn_leaves_other_users env0 py_str_plain "u1" "call me Robin"
             None None db0 "u2"). discriminate.
Defined.

(** X15: on a store with at most one record per (user, key), a turn of the
    memory policy never ends with an exception, and it leaves the store
    with at most one record per (user, key). *)
Theorem turn_runs_on_unique_store (env : Env) (py_str : json -> string)
  (u message : string) (personal prefs : option dict) (db : DB) :
  unique_keys db ->
  exists db',
    _extract_and_store_memory env py_str u message personal prefs db = Done db'
    /\ unique_keys db'.
Proof.
  intros Huniq.
  destruct (matches true DONT_REMEMBER_PERSONAL (strip message)) eqn:E.
  - unfold _extract_and_store_memory. cbv zeta. rewrite E.
    eexists. split; [reflexivity|]. now apply delete_by_type_unique.
  - apply (writes_unique env u policy_write); [|exact Huniq].
    now apply extract_and_store_memory_writes.
Qed.

Lemma turn_runs_on_unique_store_witness :
  exists db',
    _extract_and_store_memory env0 py_str_plain "u1"
      "remember that i prefer the table view" None None db0 = Done db'
    /\ unique_keys db'.
Proof.
  apply (turn_runs_on_unique_store env0 py_str_plain "u1"
           "remember that i prefer the table view" None None db0).
  exact db0_unique_keys.
Defined.

(** X16: a turn of the memory policy stores under the keys preferred_view,
    detail_level, response_format and primary_intent only values of the
    value tuples of these keys: when every record held an allowed value
    before the turn, every record holds one after it. *)
Theorem turn_stores_allowed_values (env : Env) (py_str : json -> string)
  (u message : string) (personal prefs : option dict) (db : DB) :
  values_allowed db ->
  values_allowed
    (final (_extract_and_store_memory env py_str u message personal prefs db)).
Proof.
  intros Hdb.
  destruct (matches true DONT_REMEMBER_PERSONAL (strip message)) eqn:E.
  - unfold _extract_and_store_memory. cbv zeta. rewrite E. cbn [final].
    intros m Hm. apply Hdb. now apply delete_by_type_rows in Hm.
  - apply (writes_invariant env u policy_write values_allowed); [| |exact Hdb].
    + intros t k v d Hok Hd m Hm.
      apply upsert_rows in Hm as [Hm | (_ & Hk & Hv)]; [now apply Hd|].
      rewrite Hk, Hv. now apply policy_write_allowed with (t := t).
    + now apply extract_and_store_memory_writes.
Qed.

Lemma db0_values_allowed : values_allowed db0.
Proof.
  intros m [<- | [<- | [<- | []]]]; unfold value_allowed; cbn;
    repeat split; intros E; try discriminate E; auto.
Defined.

Lemma turn_stores_allowed_values_witness :
  values_allowed
    (final (_extract_and_store_memory env0 py_str_plain "u1"
              "remember my preference"
              None (Some [("preferred_view", JStr "carousel")]) db0)).
Proof.
  apply (turn_stores_allowed_values env0 py_str_plain "u1" "remember my preference"
           None (Some [("preferred_view", JStr "carousel")]) db0).
  exact db0_values_allowed.
Defined.

(** X17: when the message is ASCII text and no request to forget, and the
    model's personal directive carries a non-empty string as display name,
    that name, cut to its first 100 characters, is the one the turn leaves
    in the user's record, also when the message itself gives a name: on a
    uniquely keyed store the turn ends normally with exactly one
    display_name record for the user, holding the directive's name. *)
Theorem directive_name_wins (env : Env) (py_str : json -> string)
  (u message : string) (personal : dict) (prefs : option dict) (db : DB)
  (name : string) :
  is_ascii message = true ->
  matches true DONT_REMEMBER_PERSONAL (strip message) = false ->
  dict_get KEY_DISPLAY_NAME personal = Some (JStr name) ->
  name <> EmptyString ->
  unique_keys db ->
  exists db' row,
    _extract_and_store_memory env py_str u message (Some personal) prefs db
    = Done db'
    /\ List.filter (same_user_key u KEY_DISPLAY_NAME) (memories db') = [row]
    /\ value row = take_chars 100 (py_str (JStr name)).
Proof.
  intros _ Hnot Hget Hname Huniq.
  assert (Htruthy : truthy (JStr name) = true)
    by (destruct name; [congruence | reflexivity]).
  unfold _extract_and_store_memory. cbv zeta. rewrite Hnot. cbn [or_empty].
  destruct (writes_unique env u _ _
              (personal_from_message_writes env u (strip message)) db Huniq)
    as (db1 & Hrun1 & Huniq1).
  destruct (upsert_memory_unique env u MEMORY_TYPE_PERSONAL KEY_DISPLAY_NAME
              (take_chars 100 (py_str (JStr name))) 1%Q db1 Huniq1)
    as (row & db2 & Hrun2 & Huniq2 & Hrow & Hval & _).
  pose proof (after_name_writes env py_str u (strip message)
                (lower (strip message)) personal (or_empty prefs)) as Hrest.
  destruct (writes_unique env u _ _ Hrest db2 Huniq2) as (db3 & Hrun3 & _).
  pose proof (writes_other_key env u _ _ KEY_DISPLAY_NAME
                policy_write_not_name Hrest db2) as Hkeep.
  rewrite Hrun3 in Hkeep. cbn [final] in Hkeep.
  exists db3, row. split.
  - unfold and_then at 1. rewrite Hrun1.
    unfold and_then at 1. unfold personal_from_directive at 1.
    rewrite Hget, Htruthy. unfold upsert at 1. rewrite Hrun2. exact Hrun3.
  - split; [now rewrite Hkeep | exact Hval].
Qed.

Lemma directive_name_wins_witness :
  exists db' row,
    _extract_and_store_memory env0 py_str_plain "u1" "call me Bob"
      (Some [("display_name", JStr "Robert")]) None db0 = Done db'
    /\ List.filter (same_user_key "u1" KEY_DISPLAY_NAME) (memories db') = [row]
    /\ value row = "Robert".
Proof.
  apply (directive_name_wins env0 py_str_plain "u1" "call me Bob"
           [("display_name", JStr "Robert")] None db0 "Robert").
  - reflexivity.
  - vm_compute. reflexivity.
  - reflexivity.
  - discriminate.
  - exact db0_unique_keys.
Defined.

(* ===================================================================== *)
(** * The memory part of the prompt                                       *)
(* ===================================================================== *)

Import Context.

Section ContextFacts.

Definition pair_of (m : Memory) : string * string := (key m, value m).

Definition is_type (t : string) (m : Memory) : bool :=
  String.eqb (memory_type m) t.

(** Records whose type is none of the four known types. *)
Definition other_type (m : Memory) : bool :=
  negb (is_type MEMORY_TYPE_PERSONAL m) && negb (is_type MEMORY_TYPE_PREFERENCE m)
  && negb (is_type MEMORY_TYPE_INTENT m) && negb (is_type MEMORY_TYPE_BEHAVIOR m).

Definition listed_as_preference (m : Memory) : bool :=
  is_type MEMORY_TYPE_PREFERENCE m || other_type m.

Lemma fold_file ms : forall b,
  fold_left file ms b =
  mkBuckets
    (personal b ++ map pair_of (List.filter (is_type MEMORY_TYPE_PERSONAL) ms))
    (preference b ++ map pair_of (List.filter listed_as_preference ms))
    (intent b ++ map pair_of (List.filter (is_type MEMORY_TYPE_INTENT) ms))
    (behavior b ++ map pair_of (List.filter (is_type MEMORY_TYPE_BEHAVIOR) ms)).
Proof.
  induction ms as [|m ms IH]; intros b.
  - cbn. rewrite !app_nil_r. now destruct b.
  - cbn [fold_left]. rewrite IH. unfold file, listed_as_preference, other_type,
      is_type. cbv zeta. cbn [List.filter].
    destruct (String.eqb_spec (memory_type m) MEMORY_TYPE_PERSONAL) as [E1|E1].
    { rewrite E1. cbn. now rewrite <- app_assoc. }
    destruct (String.eqb_spec (memory_type m) MEMORY_TYPE_PREFERENCE) as [E2|E2].
    { rewrite E2. cbn. now rewrite <- app_assoc. }
    destruct (String.eqb_spec (memory_type m) MEMORY_TYPE_INTENT) as [E3|E3].
    { rewrite E3. cbn. now rewrite <- app_assoc. }
    destruct (String.eqb_spec (memory_type m) MEMORY_TYPE_BEHAVIOR) as [E4|E4].
    { cbn. now rewrite <- app_assoc. }
    cbn. now rewrite <- app_assoc.
Qed.

Lemma by_type_filters ms :
  by_type ms =
  mkBuckets
    (map pair_of (List.filter (is_type MEMORY_TYPE_PERSONAL) ms))
    (map pair_of (List.filter listed_as_preference ms))
    (map pair_of (List.filter (is_type MEMORY_TYPE_INTENT) ms))
    (map pair_of (List.filter (is_type MEMORY_TYPE_BEHAVIOR) ms)).
Proof. unfold by_type. now rewrite fold_file. Qed.

End ContextFacts.

Section GroupFacts.

Lemma perm_into3 {A} (x : A) l l1 l2 l3 :
  Permutation l (l1 ++ l2 ++ l3) -> Permutation (x :: l) (l1 ++ l2 ++ x :: l3).
Proof.
  intros H. rewrite app_assoc. apply Permutation_cons_app.
  now rewrite <- app_assoc.
Qed.

Lemma perm_into4 {A} (x : A) l l1 l2 l3 l4 :
  Permutation l (l1 ++ l2 ++ l3 ++ l4) ->
  Permutation (x :: l) (l1 ++ l2 ++ l3 ++ x :: l4).
Proof.
  intros H. rewrite app_assoc. apply perm_into3. now rewrite <- app_assoc.
Qed.

(** Every record falls into exactly one of the four lists. *)
Lemma groups_permutation ms :
  Permutation (map pair_of ms)
    (map pair_of (List.filter (is_type MEMORY_TYPE_PERSONAL) ms)
     ++ map pair_of (List.filter listed_as_preference ms)
     ++ map pair_of (List.filter (is_type MEMORY_TYPE_INTENT) ms)
     ++ map pair_of (List.filter (is_type MEMORY_TYPE_BEHAVIOR) ms)).
Proof.
  induction ms as [|m ms IH]; [constructor|].
  cbn [map List.filter]. unfold listed_as_preference, other_type, is_type.
  destruct (String.eqb_spec (memory_type m) MEMORY_TYPE_PERSONAL) as [E1|E1].
  { rewrite E1. cbn. apply perm_skip, IH. }
  destruct (String.eqb_spec (memory_type m) MEMORY_TYPE_PREFERENCE) as [E2|E2].
  { rewrite E2. cbn. apply Permutation_cons_app, IH. }
  destruct (String.eqb_spec (memory_type m) MEMORY_TYPE_INTENT) as [E3|E3].
  { rewrite E3. cbn. apply perm_into3, IH. }
  destruct (String.eqb_spec (memory_type m) MEMORY_TYPE_BEHAVIOR) as [E4|E4].
  { cbn. apply perm_into4, IH. }
  cbn. apply Permutation_cons_app, IH.
Qed.

Lemma section_of_length header entries :
  length (section_of header entries)
  = length entries + (match entries with [] => 0 | _ => 1 end).
Proof. destruct entries; cbn [section_of length]; [reflexivity|]. rewrite length_map. cbn. lia. Qed.

Lemma no_newline_sapp a b : no_newline (a +:+ b) = no_newline a && no_newline b.
Proof.
  induction a as [|c a IH]; [reflexivity|]. rewrite sapp_cons. cbn [no_newline].
  rewrite IH. now rewrite andb_assoc.
Qed.

Lemma section_of_line_break_free header entries :
  no_newline header = true ->
  Forall (fun kv => no_newline (fst kv) = true /\ no_newline (snd kv) = true) entries ->
  Forall (fun l => no_newline l = true) (section_of header entries).
Proof.
  intros Hh Hall. destruct entries as [|e es]; [constructor|].
  cbn [section_of]. constructor; [exact Hh|].
  rewrite List.Forall_forall in *. intros x Hx.
  apply in_map_iff in Hx as ([k v] & <- & Hkv).
  destruct (Hall _ Hkv) as [Hk Hv]. unfold entry. cbn [fst snd] in *.
  now rewrite !no_newline_sapp, Hk, Hv.
Qed.

Lemma pairs_line_break_free (f : Memory -> bool) ms :
  Forall (fun m => no_newline (key m) = true /\ no_newline (value m) = true) ms ->
  Forall (fun kv => no_newline (fst kv) = true /\ no_newline (snd kv) = true)
    (map pair_of (List.filter f ms)).
Proof.
  intros H. rewrite List.Forall_forall in *. intros x Hx.
  apply in_map_iff in Hx as (m & <- & Hm).
  apply List.filter_In in Hm as [Hm _]. exact (H m Hm).
Qed.

Lemma sections_length ms :
  ms <> [] -> length ms < length (sections ms).
Proof.
  intros Hne. unfold sections. cbv zeta.
  rewrite !length_app, !section_of_length.
  pose proof (Permutation_length (groups_permutation ms)) as Hlen.
  rewrite by_type_filters. cbn [personal preference intent behavior].
  rewrite length_map, !length_app in Hlen.
  assert (Hpos : 0 < length ms) by (destruct ms; [congruence | cbn; lia]).
  destruct (map pair_of (List.filter (is_type MEMORY_TYPE_PERSONAL) ms));
    destruct (map pair_of (List.filter listed_as_preference ms));
    destruct (map pair_of (List.filter (is_type MEMORY_TYPE_INTENT) ms));
    destruct (map pair_of (List.filter (is_type MEMORY_TYPE_BEHAVIOR) ms));
    cbn [length app] in *; rewrite ?length_app; cbn [length]; lia.
Qed.

Lemma filter_filter_implied {A} (f g : A -> bool) (l : list A) :
  (forall x, f x = true -> g x = true) ->
  List.filter f (List.filter g l) = List.filter f l.
Proof.
  intros H. induction l as [|x l IH]; [reflexivity|]. simpl.
  destruct (g x) eqn:Eg; simpl.
  - now rewrite IH.
  - destruct (f x) eqn:Ef; [|exact IH]. rewrite (H x Ef) in Eg. discriminate.
Qed.

Lemma filter_filter_excluded {A} (f g : A -> bool) (l : list A) :
  (forall x, f x = true -> g x = false) ->
  List.filter f (List.filter g l) = [].
Proof.
  intros H. induction l as [|x l IH]; [reflexivity|]. simpl.
  destruct (g x) eqn:Eg; simpl; [|exact IH].
  destruct (f x) eqn:Ef; [|exact IH]. rewrite (H x Ef) in Eg. discriminate.
Qed.

(** A line of a section is its header or an entry. *)
Lemma section_of_lines header entries x :
  In x (section_of header entries) ->
  x = header \/ exists kv, x = entry kv.
Proof.
  destruct entries as [|e es]; [intros []|]. cbn [section_of].
  intros [<- | H]; [now left|]. right.
  apply in_map_iff in H as (kv & <- & _). now exists kv.
Qed.

End GroupFacts.

(** X18: in the memory part of the prompt no record is lost and none is
    listed twice: the four lists together hold the (key, value) pairs of
    the records, each once; a record whose type is none of the four known
    types is listed with the preferences; and the lines are these pairs
    with one header for each of the three sections that is not empty. *)
Theorem memories_listed_once (ms : list Memory) :
  let b := by_type ms in
  Permutation (map pair_of ms)
    (personal b ++ preference b ++ intent b ++ behavior b)
  /\ (forall m, In m ms -> other_type m = true -> In (pair_of m) (preference b))
  /\ length (sections ms)
     = length ms
       + (match personal b with [] => 0 | _ => 1 end)
       + (match preference b with [] => 0 | _ => 1 end)
       + (match (intent b ++ behavior b)%list with [] => 0 | _ => 1 end).
Proof.
  cbv zeta. split; [|split].
  - rewrite by_type_filters. apply groups_permutation.
  - intros m Hin Hother. rewrite by_type_filters. cbn [preference].
    apply in_map. apply List.filter_In. split; [exact Hin|].
    unfold listed_as_preference. rewrite Hother. apply orb_true_r.
  - unfold sections. cbv zeta. rewrite !length_app, !section_of_length.
    pose proof (Permutation_length (groups_permutation ms)) as Hlen.
    rewrite by_type_filters in *. cbn [personal preference intent behavior].
    rewrite !length_app, !length_map in *. lia.
Qed.

Lemma memories_listed_once_witness :
  In ("favourite_chain", "ethereum")
    (preference
       (by_type [memory0;
                 mkMemory "m9" "u1" "fact" "favourite_chain" "ethereum" 1
                   "conversation" 8 8])).
Proof.
  apply (proj1 (proj2 (memories_listed_once
                         [memory0;
                          mkMemory "m9" "u1" "fact" "favourite_chain" "ethereum" 1
                            "conversation" 8 8]))
           (mkMemory "m9" "u1" "fact" "favourite_chain" "ethereum" 1
              "conversation" 8 8)).
  - right. left. reflexivity.
  - reflexivity.
Defined.

(** X19: the memory text of the prompt is empty for a user without
    records; for records whose keys and values hold no line break, its
    lines are exactly the headers and entries of the sections, one line
    each, so it has at least one line per record. *)
Theorem format_memories_lines (ms : list Memory) :
  ms <> [] ->
  Forall (fun m => no_newline (key m) = true /\ no_newline (value m) = true) ms ->
  _format_memories [] = EmptyString
  /\ split_lines (_format_memories ms) = sections ms
  /\ length ms < length (split_lines (_format_memories ms)).
Proof.
  intros Hne Hall. split; [reflexivity|].
  assert (Hlines : split_lines (_format_memories ms) = sections ms).
  { pose proof (sections_length ms Hne) as Hlen.
    unfold _format_memories. destruct ms as [|m ms']; [congruence|].
    destruct (sections (m :: ms')) as [|l ls] eqn:E;
      [cbn [length] in Hlen; lia|].
    rewrite <- E. apply split_join; [rewrite E; discriminate|].
    unfold sections. cbv zeta. rewrite by_type_filters.
    cbn [personal preference intent behavior].
    repeat apply Forall_app_2; apply section_of_line_break_free; try reflexivity;
      try (now apply pairs_line_break_free).
    apply Forall_app_2; now apply pairs_line_break_free. }
  split; [exact Hlines|]. rewrite Hlines. now apply sections_length.
Qed.

Lemma format_memories_lines_witness :
  split_lines (formatted_memories "u1" db0)
  = [ PERSONAL_HEADER; "- display_name: Sam";
      PREFERENCE_HEADER; "- preferred_view: grid" ].
Proof.
  assert (Hne : get_user_memories "u1" db0 <> []) by discriminate.
  assert (Hall : Forall (fun m => no_newline (key m) = true
                                  /\ no_newline (value m) = true)
                   (get_user_memories "u1" db0)).
  { repeat constructor. }
  exact (proj1 (proj2 (format_memories_lines (get_user_memories "u1" db0)
                         Hne Hall))).
Defined.

Section ForgetFacts.

Lemma user_memories_after_delete u t l :
  List.filter (fun m => String.eqb (user_id m) u)
    (List.filter (fun m => negb (same_user_type u t m)) l)
  = List.filter (fun m => negb (is_type t m))
      (List.filter (fun m => String.eqb (user_id m) u) l).
Proof.
  unfold same_user_type, is_type.
  induction l as [|x l IH]; [reflexivity|]. cbn [List.filter].
  destruct (String.eqb (user_id x) u) eqn:Eu; cbn [andb negb List.filter].
  - destruct (String.eqb (memory_type x) t); cbn [negb List.filter].
    + exact IH.
    + rewrite Eu. now rewrite IH.
  - rewrite Eu. exact IH.
Qed.

Lemma get_user_memories_after_delete u t db :
  get_user_memories u (snd (delete_memories_by_type u t db))
  = List.filter (fun m => negb (is_type t m)) (get_user_memories u db).
Proof.
  unfold get_user_memories, delete_memories_by_type. cbn [snd].
  destruct (List.filter (same_user_type u t) (memories db));
    apply user_memories_after_delete.
Qed.

Lemma by_type_without_personal ms :
  by_type (List.filter (fun m => negb (is_type MEMORY_TYPE_PERSONAL m)) ms)
  = mkBuckets [] (preference (by_type ms)) (intent (by_type ms))
      (behavior (by_type ms)).
Proof.
  rewrite !by_type_filters. cbn [preference intent behavior].
  rewrite filter_filter_excluded
    by (intros x Hx; now rewrite Hx).
  rewrite !filter_filter_implied; [reflexivity| | |].
  - intros x Hx. unfold is_type in *. apply String.eqb_eq in Hx. now rewrite Hx.
  - intros x Hx. unfold is_type in *. apply String.eqb_eq in Hx. now rewrite Hx.
  - intros x Hx. unfold listed_as_preference, other_type, is_type in *.
    destruct (String.eqb_spec (memory_type x) MEMORY_TYPE_PERSONAL) as [E|_];
      [|reflexivity].
    rewrite E in Hx. discriminate Hx.
Qed.

Lemma entry_not_header kv : entry kv <> PERSONAL_HEADER.
Proof. unfold entry. rewrite sapp_cons. discriminate. Qed.

End ForgetFacts.

(** X20: after a turn whose message asks to forget the personal details,
    the memory part of the user's next prompt has no personal section: its
    lines are the sections of the preferences and of the intents and
    behaviour as they were before the turn, and the personal header is not
    among them. *)
Theorem forget_clears_personal_section (env : Env) (py_str : json -> string)
  (u message : string) (personal_from_llm preference_from_llm : option dict)
  (db : DB) :
  matches true DONT_REMEMBER_PERSONAL (strip message) = true ->
  let before := by_type (get_user_memories u db) in
  let after :=
    get_user_memories u
      (final (_extract_and_store_memory env py_str u message
                personal_from_llm preference_from_llm db)) in
  sections after
  = (section_of PREFERENCE_HEADER (preference before)
     ++ section_of INTENT_HEADER (intent before ++ behavior before))%list
  /\ ~ In PERSONAL_HEADER (sections after).
Proof.
  intros Hforget. cbv zeta.
  unfold _extract_and_store_memory. cbv zeta. rewrite Hforget. cbn [final].
  rewrite get_user_memories_after_delete.
  assert (Hsec : sections
                   (List.filter (fun m => negb (is_type MEMORY_TYPE_PERSONAL m))
                      (get_user_memories u db))
                 = (section_of PREFERENCE_HEADER
                      (preference (by_type (get_user_memories u db)))
                    ++ section_of INTENT_HEADER
                         (intent (by_type (get_user_memories u db))
                          ++ behavior (by_type (get_user_memories u db))))%list).
  { unfold sections. cbv zeta. rewrite by_type_without_personal. reflexivity. }
  split; [exact Hsec|]. rewrite Hsec. intros Hin.
  apply in_app_or in Hin as [Hin | Hin];
    apply section_of_lines in Hin as [Hin | [kv Hin]];
    try discriminate Hin; symmetry in Hin; exact (entry_not_header kv Hin).
Qed.

Lemma forget_clears_personal_section_witness :
  sections
    (get_user_memories "u1"
       (final (_extract_and_store_memory env0 py_str_plain "u1"
                 "please forget my name" None None db0)))
  = [PREFERENCE_HEADER; "- preferred_view: grid"].
Proof.
  exact (proj1 (forget_clears_personal_section env0 py_str_plain "u1"
                  "please forget my name" None None db0 eq_refl)).
Defined.

(* ===================================================================== *)
(** * Reading the stored history back                                     *)
(* ===================================================================== *)

Import History.

Section HistoryFacts.

Variable py_str : json -> string.

Lemma strip_empty : strip EmptyString = EmptyString.
Proof. reflexivity. Qed.

Lemma text_field_str k s d :
  dict_get k d = Some (JStr s) -> text_field d k = Ok (strip s).
Proof.
  intros H. unfold text_field. rewrite H. cbn [truthy].
  destruct s; reflexivity.
Qed.

(** What is shown of one stored block. *)
Definition shown_of (sb : StoredBlock) : list string :=
  (if_any (strip (stored_markdown sb)) ++ if_any (strip (html_tools_data sb)))%list.

Lemma block_parts_stored out :
  block_parts (map stored_json out) = Ok (flat_map shown_of out).
Proof.
  induction out as [|sb out IH]; [reflexivity|].
  cbn [map block_parts stored_json].
  rewrite (text_field_str "markdown" (stored_markdown sb)) by reflexivity.
  rewrite (text_field_str "html_tools_data" (html_tools_data sb)) by reflexivity.
  cbn [bind]. rewrite IH. cbn [bind flat_map]. unfold shown_of.
  now rewrite <- app_assoc.
Qed.

Definition markdown_stripped (sb : StoredBlock) : Prop :=
  strip (stored_markdown sb) = stored_markdown sb.

Lemma plain_stripped b : markdown_stripped (plain b).
Proof. apply strip_idem. Qed.

Ltac stored_step IH :=
  match goal with
  | H : bind (storage_loop _ _ ?bs ?u) _ = Ok _ |- _ =>
      let E := fresh "E" in
      destruct (storage_loop py_str _ bs u) eqn:E; [|discriminate H];
      cbn [bind] in H; injection H as <-;
      constructor; [first [apply plain_stripped | reflexivity] | eapply IH, E]
  end.

Lemma storage_loop_stripped su blocks : forall u out,
  storage_loop py_str su blocks u = Ok out -> Forall markdown_stripped out.
Proof.
  induction blocks as [|b bs IH]; intros u out H.
  - injection H as <-. constructor.
  - cbn [storage_loop] in H. cbv zeta in H.
    repeat match type of H with
           | (if ?c then _ else _) = _ => destruct c
           | bind (if ?c then _ else _) _ = _ => destruct c
           | bind (_nft_list_summary ?a ?b) _ = _ =>
               destruct (_nft_list_summary a b); [|discriminate H]
           | bind (_collection_list_summary ?a ?b) _ = _ =>
               destruct (_collection_list_summary a b); [|discriminate H]
           | bind (_detail_summary_text ?a ?b) _ = _ =>
               destruct (_detail_summary_text a b); [|discriminate H]
           | bind (Ok _) _ = _ => cbn [bind] in H
           end;
      stored_step IH.
Qed.

Lemma flat_map_shown out :
  Forall markdown_stripped out ->
  flat_map shown_of out
  = flat_map (fun sb => if_any (stored_markdown sb)
                        ++ if_any (strip (html_tools_data sb)))%list out.
Proof.
  induction 1 as [|sb out Hsb _ IH]; [reflexivity|].
  cbn [flat_map]. unfold shown_of at 1. rewrite Hsb, IH. reflexivity.
Qed.

End HistoryFacts.

(** X21: what is stored for an assistant turn is read back as the turn's
    visible text.  When the stored JSON decodes to the list of stored
    blocks, the history shows for the message the markdown of each text
    block and the stripped summary of each component block, those that are
    not empty, in the order of the blocks and separated by blank lines; a
    turn without any such part is shown as its stored JSON text. *)
Theorem stored_turn_read_back (py_str : json -> string)
  (json_dumps : list StoredBlock -> string) (blocks : list ContentBlock)
  (state_updates : dict) (out : list StoredBlock) :
  out_blocks py_str blocks state_updates = Ok out ->
  json_loads (json_dumps out) = Some (JArr (map stored_json out)) ->
  let stored := json_dumps out in
  let parts :=
    flat_map (fun sb => if_any (stored_markdown sb)
                        ++ if_any (strip (html_tools_data sb)))%list out in
  _build_blocks_json_for_storage py_str json_dumps blocks state_updates = Ok stored
  /\ _format_history [mkMessage "assistant" stored "blocks_json"]
     = Ok [("assistant",
            match parts with [] => stored | _ => join blank_line parts end)].
Proof.
  intros Hout Hdec. cbv zeta. split.
  - unfold _build_blocks_json_for_storage. now rewrite Hout.
  - cbn [_format_history role content content_type Compaction.str_in existsb
         String.eqb negb orb].
    change (String.eqb "assistant" "user") with false.
    change (String.eqb "assistant" "assistant") with true.
    change (String.eqb "blocks_json" "blocks_json") with true.
    cbn [negb orb]. unfold expand. rewrite Hdec, block_parts_stored.
    rewrite (flat_map_shown out (storage_loop_stripped py_str _ _ _ _ Hout)).
    reflexivity.
Qed.

Definition dumps_plain (out : list StoredBlock) : string :=
  "[" +:+ join ", "
            (map (fun sb =>
                    "{" +:+ quoted "markdown" +:+ ": "
                    +:+ quoted (stored_markdown sb) +:+ ", "
                    +:+ quoted "html_tools_data" +:+ ": "
                    +:+ quoted (html_tools_data sb) +:+ "}") out)
  +:+ "]".

Lemma stored_turn_read_back_witness :
  _format_history
    [mkMessage "assistant"
       (dumps_plain
          [ mkStored "Here are your NFTs:" "";
            mkStored "" "nft-1 Foo () price_eth=? last_sale_eth=? owner= status=? rarity_rank=?";
            mkStored "" "[details for nft-1]";
            mkStored "" "" ])
       "blocks_json"]
  = Ok [("assistant",
         join blank_line
           [ "Here are your NFTs:";
             "nft-1 Foo () price_eth=? last_sale_eth=? owner= status=? rarity_rank=?";
             "[details for nft-1]" ])].
Proof.
  exact (proj2 (stored_turn_read_back py_str_plain dumps_plain sample_blocks
                  sample_updates _ eq_refl eq_refl)).
Defined.

Section HistoryFailures.

Lemma text_field_raises d k e : text_field d k = Raise e -> e = AttributeError.
Proof.
  unfold text_field. destruct (dict_get k d) as [v|]; [|discriminate].
  destruct (truthy v); [|discriminate].
  destruct v; try discriminate; now intros [= <-].
Qed.

Lemma block_parts_raises bs : forall e,
  block_parts bs = Raise e -> e = AttributeError.
Proof.
  induction bs as [|b bs IH]; intros e; [discriminate|]. cbn [block_parts].
  destruct b as [| | | | | |d]; try (now intros [= <-]).
  destruct (text_field d "markdown") eqn:E1; cbn [bind];
    [|intros [= <-]; exact (text_field_raises _ _ _ E1)].
  destruct (text_field d "html_tools_data") eqn:E2; cbn [bind];
    [|intros [= <-]; exact (text_field_raises _ _ _ E2)].
  destruct (block_parts bs) eqn:E3; cbn [bind]; [discriminate|].
  intros [= <-]. now apply IH.
Qed.

Definition is_object (v : json) : bool :=
  match v with JObj _ => true | _ => false end.

Lemma block_parts_poisoned bs b :
  In b bs -> is_object b = false -> block_parts bs = Raise AttributeError.
Proof.
  intros Hin Hb. induction bs as [|b0 bs IH]; [destruct Hin|].
  cbn [block_parts]. destruct Hin as [-> | Hin].
  - destruct b; try reflexivity. discriminate Hb.
  - specialize (IH Hin). destruct b0 as [| | | | | |d]; try reflexivity.
    destruct (text_field d "markdown") eqn:E1; cbn [bind];
      [|now rewrite (text_field_raises _ _ _ E1)].
    destruct (text_field d "html_tools_data") eqn:E2; cbn [bind];
      [|now rewrite (text_field_raises _ _ _ E2)].
    now rewrite IH.
Qed.

Lemma expand_raises c e : expand c = Raise e -> e = AttributeError.
Proof.
  unfold expand. destruct (json_loads c) as [[| | | | |bs|]|]; try discriminate.
  destruct (block_parts bs) eqn:E; cbn [bind]; [discriminate|].
  intros [= <-]. exact (block_parts_raises _ _ E).
Qed.

End HistoryFailures.

(** X22: the history formatting tolerates stored content that is no JSON,
    but not a JSON list with an entry that is no object: one message of a
    user or the assistant, of content type blocks_json, whose content
    decodes to a list holding a number, a string, a list, a boolean or
    null makes the formatting of the whole history end with an
    AttributeError, wherever the message stands. *)
Theorem one_malformed_block_fails_history (messages : list Message)
  (msg : Message) (blocks : list json) (b : json) :
  In msg messages ->
  Compaction.str_in (role msg) ["user"; "assistant"] = true ->
  content_type msg = "blocks_json" ->
  json_loads (content msg) = Some (JArr blocks) ->
  In b blocks -> is_object b = false ->
  _format_history messages = Raise AttributeError.
Proof.
  intros Hin Hrole Hty Hdec Hb Hobj.
  assert (Hexp : expand (content msg) = Raise AttributeError).
  { unfold expand. rewrite Hdec.
    now rewrite (block_parts_poisoned blocks b Hb Hobj). }
  induction messages as [|m ms IH]; [destruct Hin|].
  cbn [_format_history]. destruct Hin as [-> | Hin].
  - rewrite Hrole, Hty. cbn [negb]. rewrite String.eqb_refl, Hexp. reflexivity.
  - specialize (IH Hin). destruct (negb _); [exact IH|].
    destruct (if String.eqb (content_type m) "blocks_json"
              then expand (content m) else Ok (content m)) eqn:E; cbn [bind].
    + now rewrite IH.
    + destruct (String.eqb (content_type m) "blocks_json"); [|discriminate E].
      now rewrite (expand_raises _ _ E).
Qed.

Lemma one_malformed_block_fails_history_witness :
  _format_history
    [ mkMessage "user" "show me grid NFTs" "markdown";
      mkMessage "assistant" "[{}, 7]" "blocks_json";
      mkMessage "user" "and the next page" "markdown" ]
  = Raise AttributeError
  /\ _format_history
       [ mkMessage "user" "show me grid NFTs" "markdown";
         mkMessage "assistant" "[{}, 7" "blocks_json" ]
     = Ok [("user", "show me grid NFTs"); ("assistant", "[{}, 7")].
Proof.
  split; [|reflexivity].
  apply (one_malformed_block_fails_history _
           (mkMessage "assistant" "[{}, 7]" "blocks_json")
           [JObj []; JInt 7] (JInt 7)).
  - right. left. reflexivity.
  - reflexivity.
  - reflexivity.
  - reflexivity.
  - right. left. reflexivity.
  - reflexivity.
Defined.

(** ** Storing a plain answer *)

(** X23: an answer without a component start marker is stored as one block
    holding its stripped text and no tool data, whatever the session data
    of the turn are: the summaries are not computed, so session data of an
    unexpected shape cannot make the storing of a plain answer fail. *)
Theorem plain_answer_stored_as_text (py_str : json -> string)
  (stripped_response : string) (state_updates : dict) :
  find_lit false HTML_START stripped_response = None ->
  out_blocks py_str (parse stripped_response) state_updates
  = Ok [mkStored (strip stripped_response) EmptyString].
Proof.
  intros H. unfold parse. rewrite (parse_loop_no_component _ _ H).
  unfold text_if_any. cbv zeta.
  destruct (is_empty (strip stripped_response)) eqn:E.
  - reflexivity.
  - unfold out_blocks, text_block. cbn. unfold plain. cbn [markdown str_or_empty].
    now rewrite strip_idem.
Qed.

Lemma plain_answer_stored_as_text_witness :
  out_blocks py_str_plain (parse "  The floor price is 2 ETH. ")
    [("nft_list", JInt 5); ("detail_summary", JStr "oops")]
  = Ok [mkStored "The floor price is 2 ETH." ""].
Proof.
  exact (plain_answer_stored_as_text py_str_plain "  The floor price is 2 ETH. "
           [("nft_list", JInt 5); ("detail_summary", JStr "oops")] eq_refl).
Defined.
